(** * ABSAPolEmo: feature construction, corpus loading and the training driver

    A shallow embedding of [utils/data_utils.py] and of the control skeleton
    of [models/Transformers.py], with the properties of the feature
    builders, the corpus loader and the trainer proved about it.

    Conventions.
    - Python lists of integers are [list Z]; lists of strings are
      [list string]; a dict from label strings to ids is a [gmap string Z].
    - A Python exception is a value of [exn]; a function that can raise
      returns a [result].
    - [max_seq_length] is the length of a Feature Record (the CLI's
      [--max_seq_length], default 128) and is a [nat].  The subtraction
      [max_seq_length - 2] of the transformer strategy is carried out in [Z]
      and the slice [l[0:stop]] follows Python for a negative [stop], so the
      behaviour for [max_seq_length < 2] is the source's.
    - The ints of the trainer's arithmetic are [Z] and its floats are
      binary64 values; a division by zero and a conversion out of range
      raise as in Python.
    - In-place mutation of the pending buffers is modelled by value: after
      [append_pending] has padded the pending lists in place, the caller
      either rebinds every pending variable to the fresh per-example lists
      or returns, so no padded list is extended again. *)

From Stdlib Require Import ZArith List Lia Bool Ascii String Floats.
From stdpp Require Import base gmap strings list pretty.

Local Open Scope string_scope.
Local Open Scope list_scope.
Local Open Scope Z_scope.

(** ** Exceptions and results *)

Inductive exn : Type :=
| IndexError
| KeyError (key : string)
| AssertionError
| FileNotFoundError
| NotADirectoryError
| ValueError (msg : string)
| TypeError (msg : string)
| ZeroDivisionError
| OverflowError.

Inductive result (A : Type) : Type :=
| Ok (a : A)
| Raise (e : exn).

Arguments Ok {A} a.
Arguments Raise {A} e.

Definition bind {A B : Type} (k : A -> result B) (m : result A) : result B :=
  match m with
  | Ok a => k a
  | Raise e => Raise e
  end.

#[global] Instance result_ret : MRet result := fun A a => Ok a.
#[global] Instance result_bind : MBind result := fun A B k m => bind k m.

(** A [for] loop whose body can raise: the state is threaded through the
    elements from left to right and the first exception ends the loop. *)
Fixpoint foldM {A S : Type} (body : S -> A -> result S) (l : list A) (s : S)
  : result S :=
  match l with
  | [] => Ok s
  | x :: l' => s' ← body s x; foldM body l' s'
  end.

(** ** Python built-ins used by the source *)

(** [enumerate(l, start)] *)
Fixpoint enumerate {A : Type} (start : nat) (l : list A) : list (nat * A) :=
  match l with
  | [] => []
  | x :: l' => (start, x) :: enumerate (S start) l'
  end.

(** [range(0, n)] *)
Definition range (n : nat) : list nat := seq 0 n.

(** [l[i]] for a non-negative index. *)
Definition py_index {A : Type} (l : list A) (i : nat) : result A :=
  match nth_error l i with
  | Some x => Ok x
  | None => Raise IndexError
  end.

(** [assert b] *)
Definition py_assert (b : bool) : result unit :=
  if b then Ok tt else Raise AssertionError.

(** [d[k]] *)
Definition py_getitem (d : gmap string Z) (k : string) : result Z :=
  match d !! k with
  | Some v => Ok v
  | None => Raise (KeyError k)
  end.

(** [l[0:stop]]: a negative [stop] counts from the end of the list. *)
Definition py_slice_to {A : Type} (l : list A) (stop : Z) : list A :=
  if 0 <=? stop then firstn (Z.to_nat stop) l
  else firstn (Z.to_nat (Z.of_nat (length l) + stop)) l.

(** [s.split(sep)] for a one-character separator: every occurrence of the
    separator cuts, so the empty string gives one empty word. *)
Fixpoint py_split (sep : ascii) (s : string) : list string :=
  match s with
  | EmptyString => [EmptyString]
  | String c s' =>
      if Ascii.eqb c sep then EmptyString :: py_split sep s'
      else match py_split sep s' with
           | [] => [String c EmptyString]
           | w :: ws => String c w :: ws
           end
  end.

(** The ASCII characters for which [str.isspace] holds. *)
Definition is_space (c : ascii) : bool :=
  let n := nat_of_ascii c in
  ((9 <=? n)%nat && (n <=? 13)%nat) || ((28 <=? n)%nat && (n <=? 32)%nat).

Fixpoint py_lstrip (s : string) : string :=
  match s with
  | EmptyString => EmptyString
  | String c s' => if is_space c then py_lstrip s' else s
  end.

Fixpoint py_rstrip (s : string) : string :=
  match s with
  | EmptyString => EmptyString
  | String c s' =>
      match py_rstrip s' with
      | EmptyString => if is_space c then EmptyString else String c EmptyString
      | r => String c r
      end
  end.

(** [s.strip()] *)
Definition py_strip (s : string) : string := py_rstrip (py_lstrip s).

(** ** Data model *)

Record InputExample : Type := mkInputExample {
  guid : string;
  text_a : string;
  text_b : option string;
  label : list string
}.

Record InputFeatures : Type := mkInputFeatures {
  input_ids : list Z;
  input_mask : list Z;
  label_id : list Z;
  valid_ids : list Z;
  label_mask : list Z
}.

Definition ignored_label : string := "IGNORE".

(** [{label: i for i, label in enumerate(label_list, 1)}] followed by
    [label_map[ignored_label] = 0]. *)
Definition build_label_map (label_list : list string) : gmap string Z :=
  <[ignored_label := 0]>
    (fold_left (fun (m : gmap string Z) (p : nat * string) =>
                  <[snd p := Z.of_nat (fst p)]> m)
               (enumerate 1 label_list) ∅).

(** ** Feature builder, recurrent-model strategy *)

(** The loop [for i in range(0, max_seq_length)] over the original labels:
    the state is [(label_ids, label_mask)]. *)
Definition lstm_label_step (label_map : gmap string Z) (labellist : list string)
    (st : list Z * list Z) (i : nat) : result (list Z * list Z) :=
  let '(label_ids, label_mask) := st in
  if (length labellist <=? i)%nat then
    ign ← py_getitem label_map ignored_label;
    Ok (label_ids ++ [ign], label_mask ++ [0])
  else
    l ← py_index labellist i;
    id ← py_getitem label_map l;
    Ok (label_ids ++ [id], label_mask ++ [1]).

(** The body of the loop over examples. *)
Definition lstm_features (label_map : gmap string Z) (max_seq_length : nat)
    (encode_method : list string -> list Z) (example : InputExample)
  : result InputFeatures :=
  let textlist := py_split " " (text_a example) in
  let labellist := label example in
  let token_ids := encode_method textlist in
  let token_ids :=
    if (max_seq_length <? length token_ids)%nat then
      py_slice_to token_ids (Z.of_nat max_seq_length)
    else if (length token_ids <? max_seq_length)%nat then
      token_ids ++ repeat 0 (max_seq_length - length token_ids)
    else token_ids in
  let valid_ids := repeat 1 (length token_ids) in
  '(label_ids, label_mask) ←
     foldM (lstm_label_step label_map labellist) (range max_seq_length) ([], []);
  let valid_ids := valid_ids ++ repeat 0 (max_seq_length - length token_ids) in
  Ok {| input_ids := token_ids;
        input_mask := repeat 1 (length token_ids);
        label_id := label_ids;
        valid_ids := valid_ids;
        label_mask := label_mask |}.

Definition convert_examples_to_features_LSTM (examples : list InputExample)
    (label_list : list string) (max_seq_length : nat)
    (encode_method : list string -> list Z) : result (list InputFeatures) :=
  let label_map := build_label_map label_list in
  foldM (fun features example =>
           f ← lstm_features label_map max_seq_length encode_method example;
           Ok (features ++ [f]))
        examples [].

(** ** Feature builder, transformer-packing strategy *)

(** The per-example lists [token_ids], [labels], [valid], [label_mask]
    while the words are being encoded. *)
Record pieces : Type := mkPieces {
  p_token_ids : list Z;
  p_labels : list string;
  p_valid : list Z;
  p_label_mask : list Z
}.

(** The five pending lists; an encoded example is the same five lists. *)
Record pending : Type := mkPending {
  pending_token_ids : list Z;
  pending_input_mask : list Z;
  pending_label_ids : list Z;
  pending_valid : list Z;
  pending_label_mask : list Z
}.

(** The body of [for m in range(len(tokens))]; the state is
    [(labels, valid, label_mask)]. *)
Definition piece_step (label_1 : string)
    (st : list string * list Z * list Z) (m : nat)
  : list string * list Z * list Z :=
  let '(labels, valid, label_mask) := st in
  if (m =? 0)%nat then (labels ++ [label_1], valid ++ [1], label_mask ++ [1])
  else (labels ++ [ignored_label], valid ++ [0], label_mask ++ [0]).

(** The body of [for i, word in enumerate(textlist)]. *)
Definition word_step (encode_method : string -> list Z)
    (labellist : list string) (st : pieces) (iw : nat * string)
  : result pieces :=
  let '(i, word) := iw in
  let tokens := encode_method (py_strip word) in
  let token_ids := p_token_ids st ++ tokens in
  label_1 ← py_index labellist i;
  let '(labels, valid, label_mask) :=
    fold_left (piece_step label_1) (range (length tokens))
              (p_labels st, p_valid st, p_label_mask st) in
  Ok {| p_token_ids := token_ids; p_labels := labels;
        p_valid := valid; p_label_mask := label_mask |}.

Definition encode_words (encode_method : string -> list Z)
    (textlist labellist : list string) : result pieces :=
  foldM (word_step encode_method labellist) (enumerate 0 textlist)
        {| p_token_ids := []; p_labels := []; p_valid := []; p_label_mask := [] |}.

(** [if len(token_ids) >= max_seq_length - 1:] trim the four lists. *)
Definition trim (max_seq_length : nat) (p : pieces) : pieces :=
  if Z.of_nat max_seq_length - 1 <=? Z.of_nat (length (p_token_ids p)) then
    let stop := Z.of_nat max_seq_length - 2 in
    {| p_token_ids := py_slice_to (p_token_ids p) stop;
       p_labels := py_slice_to (p_labels p) stop;
       p_valid := py_slice_to (p_valid p) stop;
       p_label_mask := py_slice_to (p_label_mask p) stop |}
  else p.

(** [insert(0, ...)] on each list, then [append(...)] on each list. *)
Definition add_markers (p : pieces) : pieces :=
  {| p_token_ids := 0 :: p_token_ids p ++ [2];
     p_labels := ignored_label :: p_labels p ++ [ignored_label];
     p_valid := 0 :: p_valid p ++ [0];
     p_label_mask := 0 :: p_label_mask p ++ [0] |}.

(** [for i, _ in enumerate(token_ids): label_ids.append(label_map[labels[i]])] *)
Definition label_ids_of (label_map : gmap string Z) (labels : list string)
    (n : nat) : result (list Z) :=
  foldM (fun label_ids i =>
           l ← py_index labels i;
           id ← py_getitem label_map l;
           Ok (label_ids ++ [id]))
        (range n) [].

(** The part of the loop body that encodes one example, up to
    [input_mask = [1] * len(token_ids)]. *)
Definition encode_example (label_map : gmap string Z) (max_seq_length : nat)
    (encode_method : string -> list Z) (example : InputExample)
  : result pending :=
  let textlist := py_split " " (text_a example) in
  let labellist := label example in
  p ← encode_words encode_method textlist labellist;
  let p := add_markers (trim max_seq_length p) in
  _ ← py_assert (length (p_token_ids p) =? length (p_labels p))%nat;
  _ ← py_assert (length (p_valid p) =? length (p_labels p))%nat;
  label_ids ← label_ids_of label_map (p_labels p) (length (p_token_ids p));
  _ ← py_assert (length (p_token_ids p) =? length label_ids)%nat;
  _ ← py_assert (length (p_valid p) =? length label_ids)%nat;
  let input_mask := repeat 1 (length (p_token_ids p)) in
  Ok {| pending_token_ids := p_token_ids p;
        pending_input_mask := input_mask;
        pending_label_ids := label_ids;
        pending_valid := p_valid p;
        pending_label_mask := p_label_mask p |}.

(** The first [while] loop of [append_pending], run [n] times. *)
Fixpoint pad_all (n : nat) (ignored_label : string) (label_map : gmap string Z)
    (p : pending) : result pending :=
  match n with
  | O => Ok p
  | S n' =>
      ign ← py_getitem label_map ignored_label;
      pad_all n' ignored_label label_map
        {| pending_token_ids := pending_token_ids p ++ [1];
           pending_input_mask := pending_input_mask p ++ [0];
           pending_label_ids := pending_label_ids p ++ [ign];
           pending_valid := pending_valid p ++ [0];
           pending_label_mask := pending_label_mask p ++ [0] |}
  end.

(** The second [while] loop of [append_pending], run [n] times. *)
Fixpoint pad_labels (n : nat) (ignored_label : string)
    (label_map : gmap string Z) (p : pending) : result pending :=
  match n with
  | O => Ok p
  | S n' =>
      ign ← py_getitem label_map ignored_label;
      pad_labels n' ignored_label label_map
        {| pending_token_ids := pending_token_ids p;
           pending_input_mask := pending_input_mask p;
           pending_label_ids := pending_label_ids p ++ [ign];
           pending_valid := pending_valid p;
           pending_label_mask := pending_label_mask p ++ [0] |}
  end.

(** [append_pending]: each [while len(l) < max_seq_length] loop appends one
    element per iteration, so it runs [max_seq_length - len(l)] times.  The
    parameters [ex_index] and [example] are not used by the source. *)
Definition append_pending (ignored_label : string) (p : pending)
    (max_seq_length : nat) (label_map : gmap string Z) : result InputFeatures :=
  p ← pad_all (max_seq_length - length (pending_token_ids p))
              ignored_label label_map p;
  p ← pad_labels (max_seq_length - length (pending_label_ids p))
                 ignored_label label_map p;
  _ ← py_assert (length (pending_token_ids p) =? max_seq_length)%nat;
  _ ← py_assert (length (pending_input_mask p) =? max_seq_length)%nat;
  _ ← py_assert (length (pending_label_ids p) =? max_seq_length)%nat;
  _ ← py_assert (length (pending_valid p) =? max_seq_length)%nat;
  _ ← py_assert (length (pending_label_mask p) =? max_seq_length)%nat;
  Ok {| input_ids := pending_token_ids p;
        input_mask := pending_input_mask p;
        label_id := pending_label_ids p;
        valid_ids := pending_valid p;
        label_mask := pending_label_mask p |}.

(** [extend] on each of the five pending lists. *)
Definition pending_extend (p s : pending) : pending :=
  {| pending_token_ids := pending_token_ids p ++ pending_token_ids s;
     pending_input_mask := pending_input_mask p ++ pending_input_mask s;
     pending_label_ids := pending_label_ids p ++ pending_label_ids s;
     pending_valid := pending_valid p ++ pending_valid s;
     pending_label_mask := pending_label_mask p ++ pending_label_mask s |}.

Definition empty_pending : pending :=
  {| pending_token_ids := []; pending_input_mask := [];
     pending_label_ids := []; pending_valid := []; pending_label_mask := [] |}.

(** The body of the loop over examples; the state is the pending lists and
    [features]. *)
Definition pack_step (label_map : gmap string Z) (max_seq_length : nat)
    (encode_method : string -> list Z)
    (st : pending * list InputFeatures) (example : InputExample)
  : result (pending * list InputFeatures) :=
  let '(pend, features) := st in
  s ← encode_example label_map max_seq_length encode_method example;
  if (max_seq_length <?
        length (pending_token_ids s) + length (pending_token_ids pend))%nat
  then
    f ← append_pending ignored_label pend max_seq_length label_map;
    Ok (s, features ++ [f])
  else Ok (pending_extend pend s, features).

Definition convert_examples_to_features_Transformers
    (examples : list InputExample) (label_list : list string)
    (max_seq_length : nat) (encode_method : string -> list Z)
  : result (list InputFeatures) :=
  let label_map := build_label_map label_list in
  '(pend, features) ←
     foldM (pack_step label_map max_seq_length encode_method) examples
           (empty_pending, []);
  f ← append_pending ignored_label pend max_seq_length label_map;
  Ok (features ++ [f]).

(** ** Corpus loader *)

(** [x.split('.')[1] == 'json'], the test of the [filter]. *)
Definition is_json (x : string) : result bool :=
  ext ← py_index (py_split "." x) 1;
  Ok (String.eqb ext "json").

(** [list(filter(lambda x: ..., files))] *)
Fixpoint filter_json (files : list string) : result (list string) :=
  match files with
  | [] => Ok []
  | f :: files' =>
      keep ← is_json f;
      rest ← filter_json files';
      Ok (if keep : bool then f :: rest else rest)
  end.

(** The loop [for f in files] with its [break]; the state is
    [(x_train, y_train)].  [read_json] stands for the parse of the file at
    a path, which depends on the file's contents. *)
Fixpoint load_loop (read_json : string -> result (list string * list string))
    (path : string) (files : list string)
    (x_train y_train : list (list string))
  : result (list (list string) * list (list string)) :=
  match files with
  | [] => Ok (x_train, y_train)
  | f :: files' =>
      '(tokens, labels) ← read_json (path ++ "/" ++ f)%string;
      let x_train := x_train ++ [tokens] in
      let y_train := y_train ++ [labels] in
      if (100 <? length x_train)%nat then Ok (x_train, y_train)
      else load_loop read_json path files' x_train y_train
  end.

(** [load_from_folder]; [listing] is what [os.listdir(path)] returns. *)
Definition load_from_folder (listing : list string)
    (read_json : string -> result (list string * list string)) (path : string)
  : result (list (list string) * list (list string)) :=
  files ← filter_json listing;
  load_loop read_json path files [] [].

(** ** The training driver *)

(** A Python value given to the [%] operator. *)
Inductive pyval : Type :=
| PyInt (z : Z)
| PyStr (s : string).

Definition py_str (v : pyval) : string :=
  match v with
  | PyInt z => pretty z
  | PyStr s => s
  end.

(** [fmt % v] for a value [v] that is neither a tuple nor a mapping.  The
    format is read from left to right; [%s] and [%d] take the value and
    [%%] is a percent sign (flags and widths are not modelled: the two
    [raise] statements of the source use none).  The boolean tells whether
    the value has been taken. *)
Fixpoint format_go (fmt : string) (v : pyval) (used : bool)
  : result (string * bool) :=
  match fmt with
  | EmptyString => Ok (EmptyString, used)
  | String c rest =>
      if Ascii.eqb c "%" then
        match rest with
        | EmptyString => Raise (ValueError "incomplete format")
        | String d rest' =>
            if Ascii.eqb d "%" then
              '(out, used') ← format_go rest' v used;
              Ok (String "%" out, used')
            else if Ascii.eqb d "s" || Ascii.eqb d "d" then
              if used then Raise (TypeError "not enough arguments for format string")
              else
                '(out, used') ← format_go rest' v true;
                Ok ((py_str v ++ out)%string, used')
            else Raise (ValueError "unsupported format character")
        end
      else
        '(out, used') ← format_go rest v used;
        Ok (String c out, used')
  end.

Definition py_format (fmt : string) (v : pyval) : result string :=
  '(out, used) ← format_go fmt v false;
  if used : bool then Ok out
  else Raise (TypeError "not all arguments converted during string formatting").

(** What is at the path [output_dir]. *)
Inductive node : Type :=
| Missing
| RegularFile
| Directory (entries : list string).

(** [os.path.exists] *)
Definition path_exists (n : node) : bool :=
  match n with
  | Missing => false
  | _ => true
  end.

(** [os.listdir] *)
Definition listdir (n : node) : result (list string) :=
  match n with
  | Directory entries => Ok entries
  | RegularFile => Raise NotADirectoryError
  | Missing => Raise FileNotFoundError
  end.

(** Where a checkpoint is written: [output_dir] itself or the per-epoch
    subdirectory [os.path.join(output_dir, "e%03d" % epoch_no)]. *)
Inductive location : Type :=
| OutputDir
| EpochDir (epoch_no : nat).

(** Python's numbers in the arithmetic of [train].  An [int] is a [Z]; a
    [float] is a binary64 value. *)

(** The binary64 value of a rounded result; a result out of the range of
    the format is Python's [OverflowError]. *)
Definition py_float_of_sf (x : spec_float) : result float :=
  match x with
  | S754_infinity _ => Raise OverflowError
  | _ => Ok (SF2Prim x)
  end.

(** [float(z)] for an int, as in the conversion of the int operand of a
    mixed operation: the nearest binary64 value, ties to even. *)
Definition py_float_of_int (z : Z) : result float :=
  py_float_of_sf (binary_normalize prec emax z 0 false).

(** An int as an exact quotient operand. *)
Definition sf_of_int (z : Z) : spec_float :=
  match z with
  | Z0 => S754_zero false
  | Zpos p => S754_finite false p 0
  | Zneg p => S754_finite true p 0
  end.

(** [a / b] on two ints: the exact quotient rounded once to binary64. *)
Definition py_int_truediv (a b : Z) : result float :=
  if b =? 0 then Raise ZeroDivisionError
  else py_float_of_sf (SFdiv prec emax (sf_of_int a) (sf_of_int b)).

(** [x / b] for a float and an int. *)
Definition py_float_truediv_int (x : float) (b : Z) : result float :=
  y ← py_float_of_int b;
  if (y =? 0)%float then Raise ZeroDivisionError else Ok (x / y)%float.

(** [x * b] for a float and an int. *)
Definition py_float_mul_int (x : float) (b : Z) : result float :=
  y ← py_float_of_int b;
  Ok (x * y)%float.

(** [int(x)] for a float: truncation towards zero. *)
Definition py_int_of_float (x : float) : result Z :=
  match Prim2SF x with
  | S754_zero _ => Ok 0
  | S754_finite s m e => Ok (cond_Zopp s (Z.shiftl (Z.pos m) e))
  | S754_infinity _ => Raise OverflowError
  | S754_nan => Raise (ValueError "cannot convert float NaN to integer")
  end.

(** [int(len(train_examples) / train_batch_size / gradient_accumulation_steps)
    * epochs], with [train_batch_size] the value that the name holds at that
    point. *)
Definition num_train_optimization_steps (n_examples : nat)
    (train_batch_size gradient_accumulation_steps : Z) (epochs : nat)
  : result Z :=
  q ← py_int_truediv (Z.of_nat n_examples) train_batch_size;
  q ← py_float_truediv_int q gradient_accumulation_steps;
  n ← py_int_of_float q;
  Ok (n * Z.of_nat epochs).

(** [int(warmup_proportion * num_train_optimization_steps)] *)
Definition warmup_steps (warmup_proportion : float) (t_total : Z) : result Z :=
  x ← py_float_mul_int warmup_proportion t_total;
  py_int_of_float x.

(** The effects of [train], in the order of the source. *)
Inductive event : Type :=
| MakeDirs (loc : location)
| ConfigureLogging
| SeedRandom
| GetExamples (set_type : string)
| BuildModel
| BuildOptimizer
| BuildScheduler (warmup_steps t_total : Z)
| ConvertFeatures (set_type : string)
| EpochStart (epoch_no : nat)
| TrainingPass (epoch_no : nat)
| EvaluateModel (epoch_no : nat)
| SaveModel (loc : location)
| SaveParams (loc : location).

(** A computation with effects: the events it performed and how it ended. *)
Record io (A : Type) : Type := mkIO {
  trace : list event;
  outcome : result A
}.

Arguments mkIO {A} trace outcome.
Arguments trace {A} i.
Arguments outcome {A} i.

Definition io_bind {A B : Type} (k : A -> io B) (m : io A) : io B :=
  match outcome m with
  | Ok a => {| trace := trace m ++ trace (k a); outcome := outcome (k a) |}
  | Raise e => {| trace := trace m; outcome := Raise e |}
  end.

#[global] Instance io_mret : MRet io := fun A a => mkIO [] (Ok a).
#[global] Instance io_mbind : MBind io := fun A B k m => io_bind k m.

Definition emit (e : event) : io unit := mkIO [e] (Ok tt).
Definition lift {A : Type} (r : result A) : io A := mkIO [] r.
Definition raise {A : Type} (e : exn) : io A := mkIO [] (Raise e).

(** One iteration of [for epoch_no in range(1, epochs + 1)]; the state is
    [best_val_f1].  [evaluate_model epoch_no] is the F1 score that the
    evaluator returns in that epoch. *)
Definition epoch_body (epoch_save_model : bool) (evaluate_model : nat -> float)
    (best_val_f1 : float) (epoch_no : nat) : io float :=
  _ ← emit (EpochStart epoch_no);
  _ ← emit (TrainingPass epoch_no);
  _ ← emit (EvaluateModel epoch_no);
  let f1 := evaluate_model epoch_no in
  best_val_f1 ←
    (if (best_val_f1 <? f1)%float then
       _ ← emit (SaveModel OutputDir);
       _ ← emit (SaveParams OutputDir);
       mret f1
     else mret best_val_f1);
  _ ← (if epoch_save_model then
         _ ← emit (MakeDirs (EpochDir epoch_no));
         _ ← emit (SaveModel (EpochDir epoch_no));
         emit (SaveParams (EpochDir epoch_no))
       else mret tt);
  mret best_val_f1.

Fixpoint epoch_loop (epoch_save_model : bool) (evaluate_model : nat -> float)
    (epoch_nos : list nat) (best_val_f1 : float) : io float :=
  match epoch_nos with
  | [] => mret best_val_f1
  | epoch_no :: rest =>
      best_val_f1 ← epoch_body epoch_save_model evaluate_model best_val_f1 epoch_no;
      epoch_loop epoch_save_model evaluate_model rest best_val_f1
  end.

(** [best_val_f1 = 0.0] and the loop over [range(1, epochs + 1)]. *)
Definition run_epochs (epoch_save_model : bool) (evaluate_model : nat -> float)
    (epochs : nat) : io float :=
  epoch_loop epoch_save_model evaluate_model (seq 1 epochs) 0%float.

(** [Transformers.train].  [out] is what is at [output_dir] when the call
    starts and [train_examples] is what [get_examples(data_path, 'train')]
    returns.  The work between the two checks and the loop (seeding, loading
    the examples, building the model, the optimizer and the scheduler,
    featurization) is recorded as events; the arithmetic on the batch size
    and on the number of steps is carried out, since it can raise.  After
    the check of [gradient_accumulation_steps] the divisor of [//] is at
    least 1, for which Python's [//] is [Z.div]. *)
Definition train (output_dir : string) (out : node)
    (train_batch_size gradient_accumulation_steps : Z) (epochs : nat)
    (train_examples : list InputExample) (warmup_proportion : float)
    (epoch_save_model : bool) (evaluate_model : nat -> float) : io unit :=
  nonempty ← lift (if path_exists out
                   then entries ← listdir out;
                        Ok (match entries with [] => false | _ => true end)
                   else Ok false);
  _ ← (if nonempty : bool then
         msg ← lift (py_format
                       "Output directory (%s) already exists and is not empty."
                       (PyStr output_dir));
         raise (ValueError msg)
       else mret tt);
  _ ← (if negb (path_exists out) then emit (MakeDirs OutputDir) else mret tt);
  _ ← emit ConfigureLogging;
  _ ← (if gradient_accumulation_steps <? 1 then
         msg ← lift (py_format
                       "Invalid gradient_accumulation_steps parameter: {}, should be >= 1"
                       (PyInt gradient_accumulation_steps));
         raise (ValueError msg)
       else mret tt);
  let train_batch_size := Z.div train_batch_size gradient_accumulation_steps in
  _ ← emit SeedRandom;
  _ ← emit (GetExamples "train");
  num_train_optimization_steps ←
    lift (num_train_optimization_steps (length train_examples) train_batch_size
            gradient_accumulation_steps epochs);
  _ ← emit BuildModel;
  warmup_steps ← lift (warmup_steps warmup_proportion num_train_optimization_steps);
  _ ← emit BuildOptimizer;
  _ ← emit (BuildScheduler warmup_steps num_train_optimization_steps);
  _ ← emit (ConvertFeatures "train");
  _ ← emit (GetExamples "valid");
  _ ← emit (ConvertFeatures "valid");
  _ ← run_epochs epoch_save_model evaluate_model epochs;
  mret tt.

(** ** Joining the tokens of a document *)

(** [sep.join(l)] *)
Fixpoint py_join (sep : string) (l : list string) : string :=
  match l with
  | [] => EmptyString
  | x :: l' =>
      match l' with
      | [] => x
      | _ :: _ => (x ++ sep ++ py_join sep l')%string
      end
  end.

(** ** Reading one annotation file *)

(** The JSON document of a file after [json.load], for a file of the
    corpus format: [chunks] is a list of lists of lists of tokens, a token
    has an [orth] and a list of annotation ids, and [annotations] lists the
    annotations with their four fields. *)
Record token_json : Type := mkToken {
  orth : string;
  token_annotations : list Z
}.

Record Annotation : Type := mkAnnotation {
  ann_id : Z;
  ann_type_id : Z;
  ann_type : string;
  ann_name : string
}.

Record document : Type := mkDocument {
  chunks : list (list (list token_json));
  annotations : list Annotation
}.

(** The two nested loops that fill [text_tuples]. *)
Definition text_tuples_of (first_chunk : list (list token_json))
  : list (string * list Z) :=
  fold_left (fun acc chunk =>
               fold_left (fun acc sub_chunk =>
                            acc ++ [(orth sub_chunk, token_annotations sub_chunk)])
                         chunk acc)
            first_chunk [].

(** The loop that fills [ann_dict]. *)
Definition ann_dict_of (anns : list Annotation) : gmap Z Annotation :=
  fold_left (fun (d : gmap Z Annotation) a => <[ann_id a := a]> d) anns ∅.

(** The body of [for (text, ann) in text_tuples]; the state is
    [(labels, tokens)]. *)
Definition label_step (get_type : Annotation -> string)
    (ann_dict : gmap Z Annotation) (st : list string * list string)
    (ta : string * list Z) : result (list string * list string) :=
  let '(labels, tokens) := st in
  let '(text, ann) := ta in
  l ← (if (0 <? length ann)%nat then
         first ← py_index ann 0;
         match ann_dict !! first with
         | Some a => Ok (get_type a)
         | None => Raise (KeyError (pretty first))
         end
       else Ok "O");
  Ok (labels ++ [l], tokens ++ [text]).

(** [read_json] on the document of the file.  The class [Annotation] is
    not part of the sources at hand: an annotation object is the record of
    its four constructor arguments, and [get_type] is taken as a
    parameter. *)
Definition read_json (get_type : Annotation -> string) (data : document)
  : result (list string * list string) :=
  first_chunk ← py_index (chunks data) 0;
  let text_tuples := text_tuples_of first_chunk in
  let ann_dict := ann_dict_of (annotations data) in
  '(labels, tokens) ← foldM (label_step get_type ann_dict) text_tuples ([], []);
  _ ← py_assert (length tokens =? length labels)%nat;
  Ok (tokens, labels).

(** ** Building the examples *)

(** The body of [for i in range(0, len(x_train))]; the state is
    [(examples, label_list)]. *)
Definition example_step (set_type : string) (x_train y_train : list (list string))
    (st : list InputExample * list string) (i : nat)
  : result (list InputExample * list string) :=
  let '(examples, label_list) := st in
  tokens ← py_index x_train i;
  labels ← py_index y_train i;
  Ok (examples ++
        [ {| guid := (set_type ++ "-" ++ pretty i)%string;
             text_a := py_join " " tokens;
             text_b := None;
             label := labels |} ],
      label_list ++ labels).

(** [get_examples].  [list_of_set l] stands for [list(set(l))], whose
    order Python does not fix. *)
Definition get_examples (list_of_set : list string -> list string)
    (listing : list string)
    (read_json : string -> result (list string * list string))
    (path set_type : string) : result (list InputExample * list string) :=
  '(x_train, y_train) ← load_from_folder listing read_json path;
  '(examples, label_list) ←
     foldM (example_step set_type x_train y_train)
           (range (length x_train)) ([], []);
  Ok (examples, list_of_set label_list).

(** ** The training pass over the batches *)

(** What one iteration of [for step, batch in enumerate(train_dataloader)]
    does to the gradients and the optimizer. *)
Inductive step_event : Type :=
| Backward (step : nat)
| ClipGradNorm (step : nat)
| OptimizerStep (step : nat)
| SchedulerStep (step : nat)
| ZeroGrad (step : nat).

(** The body of the loop over the batches.  It is reached only after
    [train] has checked [gradient_accumulation_steps >= 1], for which
    Python's [%] is [Z.modulo]. *)
Definition batch_step (gradient_accumulation_steps : Z)
    (t : list step_event) (step : nat) : list step_event :=
  t ++ [Backward step; ClipGradNorm step] ++
  (if (Z.of_nat step + 1) mod gradient_accumulation_steps =? 0
   then [OptimizerStep step; SchedulerStep step; ZeroGrad step]
   else []).

(** One epoch's pass over [n_batches] batches. *)
Definition training_pass (gradient_accumulation_steps : Z) (n_batches : nat)
  : list step_event :=
  fold_left (batch_step gradient_accumulation_steps) (range n_batches) [].

(** ** Vocabulary of the statements *)

(** The number of occurrences of the character [c] in [s]. *)
Fixpoint count_char (c : ascii) (s : string) : nat :=
  match s with
  | EmptyString => O
  | String d s' => (Nat.b2n (Ascii.eqb d c) + count_char c s')%nat
  end.

(** Whether the character [c] occurs in [s]. *)
Fixpoint contains_char (c : ascii) (s : string) : bool :=
  match s with
  | EmptyString => false
  | String d s' => Ascii.eqb d c || contains_char c s'
  end.

(** The insertions of [{label: i for i, label in enumerate(label_list, start)}]
    into a map. *)
Definition insert_labels (start : nat) (label_list : list string)
    (m : gmap string Z) : gmap string Z :=
  fold_left (fun (m : gmap string Z) (p : nat * string) =>
               <[snd p := Z.of_nat (fst p)]> m)
            (enumerate start label_list) m.

(** A label that the label map knows. *)
Definition known_label (label_list : list string) (l : string) : Prop :=
  l = ignored_label \/ In l label_list.

(** The epochs in which the best checkpoint is written: the epochs whose
    events, from their [EpochStart] on, contain [SaveModel OutputDir].
    [current] is the epoch the events read so far belong to. *)
Fixpoint checkpoint_epochs (current : nat) (t : list event) : list nat :=
  match t with
  | [] => []
  | EpochStart epoch_no :: t' => checkpoint_epochs epoch_no t'
  | SaveModel OutputDir :: t' => current :: checkpoint_epochs current t'
  | _ :: t' => checkpoint_epochs current t'
  end.

(** The epochs in which the parameters of the best checkpoint are written:
    the epochs whose events contain [SaveParams OutputDir]. *)
Fixpoint params_epochs (current : nat) (t : list event) : list nat :=
  match t with
  | [] => []
  | EpochStart epoch_no :: t' => params_epochs epoch_no t'
  | SaveParams OutputDir :: t' => current :: params_epochs current t'
  | _ :: t' => params_epochs current t'
  end.

(** The writes into [output_dir] itself, in the order of the trace. *)
Definition writes_output_dir (e : event) : bool :=
  match e with
  | SaveModel OutputDir | SaveParams OutputDir => true
  | _ => false
  end.

(** The best F1 seen before epoch [epoch_no]: the largest of 0.0 and the
    scores of the epochs [1 .. epoch_no - 1]. *)
Definition best_of (best f1 : float) : float :=
  if (best <? f1)%float then f1 else best.

Definition best_before (evaluate_model : nat -> float) (epoch_no : nat) : float :=
  fold_left best_of (map evaluate_model (seq 1 (epoch_no - 1))) 0%float.

(** The events that are work on the data or the model. *)
Definition is_work (e : event) : bool :=
  match e with
  | MakeDirs _ | ConfigureLogging => false
  | _ => true
  end.

(** The token ids after truncation or padding. *)
Definition lstm_token_ids (max_seq_length : nat) (token_ids : list Z) : list Z :=
  if (max_seq_length <? length token_ids)%nat then
    py_slice_to token_ids (Z.of_nat max_seq_length)
  else if (length token_ids <? max_seq_length)%nat then
    token_ids ++ repeat 0 (max_seq_length - length token_ids)
  else token_ids.

(** The five lists of a Feature Record all have length [max_seq_length]. *)
Definition well_sized (max_seq_length : nat) (f : InputFeatures) : Prop :=
  length (input_ids f) = max_seq_length /\
  length (input_mask f) = max_seq_length /\
  length (label_id f) = max_seq_length /\
  length (valid_ids f) = max_seq_length /\
  length (label_mask f) = max_seq_length.

(** The labels, and the validity and label-mask flags, that a word with
    [k] sub-word pieces contributes: the word's label and flag 1 at the first
    piece, the IGNORE label and flag 0 at the others. *)
Definition piece_labels (label_1 : string) (k : nat) : list string :=
  match k with
  | O => []
  | S k' => label_1 :: repeat ignored_label k'
  end.

Definition piece_flags (k : nat) : list Z :=
  match k with
  | O => []
  | S k' => 1 :: repeat 0 k'
  end.

(** The sub-word pieces of a word, and the concatenated contributions of a
    list of words paired with their labels. *)
Definition pieces_of (encode_method : string -> list Z) (word : string) : list Z :=
  encode_method (py_strip word).

Definition words_token_ids (encode_method : string -> list Z)
    (words : list string) : list Z :=
  concat (map (pieces_of encode_method) words).

Definition words_labels (encode_method : string -> list Z)
    (words labels : list string) : list string :=
  concat (map (fun wl => piece_labels (snd wl)
                           (length (pieces_of encode_method (fst wl))))
              (combine words labels)).

Definition words_flags (encode_method : string -> list Z)
    (words : list string) : list Z :=
  concat (map (fun w => piece_flags (length (pieces_of encode_method w))) words).

(** A pending buffer flushed as a Feature Record: every list is padded on
    the right up to [max_seq_length], the token ids with the pad id 1, the
    three masks with 0 and the label ids with the IGNORE id 0. *)
Definition pad_record (max_seq_length : nat) (p : pending) : InputFeatures :=
  {| input_ids := pending_token_ids p ++
                  repeat 1 (max_seq_length - length (pending_token_ids p));
     input_mask := pending_input_mask p ++
                   repeat 0 (max_seq_length - length (pending_input_mask p));
     label_id := pending_label_ids p ++
                 repeat 0 (max_seq_length - length (pending_label_ids p));
     valid_ids := pending_valid p ++
                  repeat 0 (max_seq_length - length (pending_valid p));
     label_mask := pending_label_mask p ++
                   repeat 0 (max_seq_length - length (pending_label_mask p)) |}.

(** The five lists of a buffer have the same length. *)
Definition aligned (p : pending) : Prop :=
  length (pending_input_mask p) = length (pending_token_ids p) /\
  length (pending_label_ids p) = length (pending_token_ids p) /\
  length (pending_valid p) = length (pending_token_ids p) /\
  length (pending_label_mask p) = length (pending_token_ids p).

(** The packing described as a function of the encoded sequences alone:
    a sequence joins the pending buffer when the two together fit in
    [max_seq_length]; otherwise the buffer is emitted, padded, and the
    sequence starts the next buffer; the last buffer is emitted at the end. *)
Fixpoint pack_spec (max_seq_length : nat) (pend : pending) (seqs : list pending)
  : list InputFeatures :=
  match seqs with
  | [] => [pad_record max_seq_length pend]
  | s :: seqs' =>
      if (max_seq_length <?
            length (pending_token_ids s) + length (pending_token_ids pend))%nat
      then pad_record max_seq_length pend :: pack_spec max_seq_length s seqs'
      else pack_spec max_seq_length (pending_extend pend s) seqs'
  end.

(** The loop over the examples followed by the final flush, started from
    any pending buffer and list of features. *)
Definition run_from (label_map : gmap string Z) (max_seq_length : nat)
    (encode_method : string -> list Z) (pend : pending)
    (features : list InputFeatures) (examples : list InputExample)
  : result (list InputFeatures) :=
  '(pend, features) ←
     foldM (pack_step label_map max_seq_length encode_method) examples
           (pend, features);
  f ← append_pending ignored_label pend max_seq_length label_map;
  Ok (features ++ [f]).

(** The ids of a list of labels, looked up from left to right. *)
Fixpoint lookup_labels (label_map : gmap string Z) (labels : list string)
  : result (list Z) :=
  match labels with
  | [] => Ok []
  | l :: labels' =>
      id ← py_getitem label_map l;
      ids ← lookup_labels label_map labels';
      Ok (id :: ids)
  end.

(** The four word-level lists cut to their first [n] elements. *)
Definition truncate_pieces (n : nat) (p : pieces) : pieces :=
  {| p_token_ids := firstn n (p_token_ids p);
     p_labels := firstn n (p_labels p);
     p_valid := firstn n (p_valid p);
     p_label_mask := firstn n (p_label_mask p) |}.

(** The four word-level lists have the same length. *)
Definition aligned_pieces (p : pieces) : Prop :=
  length (p_labels p) = length (p_token_ids p) /\
  length (p_valid p) = length (p_token_ids p) /\
  length (p_label_mask p) = length (p_token_ids p).

(** An encoded example assembled from its word-level lists and label ids. *)
Definition assemble (t : pieces) (label_ids : list Z) : pending :=
  {| pending_token_ids := p_token_ids t;
     pending_input_mask := repeat 1 (length (p_token_ids t));
     pending_label_ids := label_ids;
     pending_valid := p_valid t;
     pending_label_mask := p_label_mask t |}.

(** The labels at the positions whose validity flag is 1, in order. *)
Fixpoint project_valid (valid labels : list Z) : list Z :=
  match valid, labels with
  | v :: valid', l :: labels' =>
      if v =? 1 then l :: project_valid valid' labels'
      else project_valid valid' labels'
  | _, _ => []
  end.

Definition projected_labels (f : InputFeatures) : list Z :=
  project_valid (valid_ids f) (label_id f).

Definition projected_pending (s : pending) : list Z :=
  project_valid (pending_valid s) (pending_label_ids s).

(** The words of an example and the labels of these words. *)
Definition words_of (example : InputExample) : list string :=
  py_split " " (text_a example).

Definition word_labels_of (example : InputExample) : list string :=
  firstn (length (words_of example)) (label example).

(** The token ids of a record at the positions whose input mask is 1. *)
Definition masked_ids (f : InputFeatures) : list Z :=
  project_valid (input_mask f) (input_ids f).

(** Whether the second dot-separated component of a file name is [json]. *)
Definition has_json_ext (x : string) : bool :=
  match py_split "." x with
  | _ :: ext :: _ => String.eqb ext "json"
  | _ => false
  end.

(** The label that [read_json] gives a token. *)
Definition token_label (get_type : Annotation -> string) (anns : list Annotation)
    (t : token_json) (l : string) : Prop :=
  match token_annotations t with
  | [] => l = "O"
  | first :: _ =>
      exists a, In a anns /\ ann_id a = first /\ l = get_type a
  end.

(** The example that [get_examples] builds from the [i]-th document. *)
Definition example_of (set_type : string)
    (d : nat * (list string * list string)) : InputExample :=
  {| guid := (set_type ++ "-" ++ pretty (fst d))%string;
     text_a := py_join " " (fst (snd d));
     text_b := None;
     label := snd (snd d) |}.

(** The number of optimizer steps among the events. *)
Fixpoint optimizer_steps (t : list step_event) : nat :=
  match t with
  | [] => O
  | OptimizerStep _ :: t' => S (optimizer_steps t')
  | _ :: t' => optimizer_steps t'
  end.

(** The number of backward passes whose gradients are still accumulated
    after the events, given the number [acc] accumulated before them:
    [ZeroGrad] clears them. *)
Fixpoint accumulated (acc : nat) (t : list step_event) : nat :=
  match t with
  | [] => acc
  | Backward _ :: t' => accumulated (S acc) t'
  | ZeroGrad _ :: t' => accumulated O t'
  | _ :: t' => accumulated acc t'
  end.

(** * Properties *)

(** ** The error monad and the loops *)

Lemma bind_Ok {A B : Type} (m : result A) (k : A -> result B) (b : B) :
  (x ← m; k x) = Ok b <-> exists a, m = Ok a /\ k a = Ok b.
Proof.
  unfold mbind, result_bind, bind. destruct m as [a|e]; split.
  - intros H. exists a. split; [reflexivity | exact H].
  - intros (a' & Ha & Hk). injection Ha as ->. exact Hk.
  - discriminate.
  - intros (a' & Ha & _). discriminate.
Qed.

Lemma bind_Ok_eq {A B : Type} (a : A) (k : A -> result B) :
  (x ← Ok a; k x) = k a.
Proof. reflexivity. Qed.

Lemma bind_Raise_eq {A B : Type} (e : exn) (k : A -> result B) :
  (x ← Raise e; k x) = Raise e.
Proof. reflexivity. Qed.

Lemma py_index_Ok {A : Type} (l : list A) (i : nat) (x : A) :
  nth_error l i = Some x -> py_index l i = Ok x.
Proof. intros H. unfold py_index. now rewrite H. Qed.

Lemma py_assert_Ok (b : bool) (u : unit) : py_assert b = Ok u <-> b = true.
Proof. destruct b, u; simpl; split; congruence. Qed.

Ltac inv_bind H :=
  let a := fresh "a" in
  let Ha := fresh "Ha" in
  apply bind_Ok in H; destruct H as (a & Ha & H).

Ltac inv_assert H :=
  let u := fresh "u" in
  let Hu := fresh "Hassert" in
  apply bind_Ok in H; destruct H as (u & Hu & H);
  apply py_assert_Ok in Hu.

(** An invariant of the loop body is an invariant of the loop. *)
Lemma foldM_invariant {A S : Type} (P : S -> Prop) (body : S -> A -> result S) :
  (forall s x s', P s -> body s x = Ok s' -> P s') ->
  forall l s s', P s -> foldM body l s = Ok s' -> P s'.
Proof.
  intros Hstep l. induction l as [|x l IH]; intros s s' Hs H; simpl in H.
  - injection H as <-. exact Hs.
  - inv_bind H. eapply IH; [|exact H]. eapply Hstep; eauto.
Qed.

(** ** Python built-ins *)

Lemma length_py_slice_to_nonneg {A : Type} (l : list A) (n : nat) :
  length (py_slice_to l (Z.of_nat n)) = Nat.min n (length l).
Proof.
  unfold py_slice_to.
  destruct (Z.leb_spec 0 (Z.of_nat n)) as [_|H]; [|lia].
  rewrite Nat2Z.id. apply length_firstn.
Qed.

Lemma py_slice_to_nonneg {A : Type} (l : list A) (n : nat) :
  py_slice_to l (Z.of_nat n) = firstn n l.
Proof.
  unfold py_slice_to.
  destruct (Z.leb_spec 0 (Z.of_nat n)) as [_|H]; [|lia].
  now rewrite Nat2Z.id.
Qed.

(** ** The label map *)

Lemma build_label_map_ignore (label_list : list string) :
  build_label_map label_list !! ignored_label = Some 0.
Proof. unfold build_label_map. apply lookup_insert_eq. Qed.

Lemma py_getitem_ignore (label_list : list string) :
  py_getitem (build_label_map label_list) ignored_label = Ok 0.
Proof. unfold py_getitem. now rewrite build_label_map_ignore. Qed.

(** ** Recurrent-model strategy *)

Lemma lstm_label_step_length label_map labellist st i st' :
  lstm_label_step label_map labellist st i = Ok st' ->
  length (fst st') = S (length (fst st)) /\ length (snd st') = S (length (snd st)).
Proof.
  unfold lstm_label_step. destruct st as [ids mask].
  destruct (length labellist <=? i)%nat; intros H.
  - inv_bind H. injection H as <-. simpl. rewrite !length_app. simpl. lia.
  - inv_bind H. inv_bind H. injection H as <-. simpl. rewrite !length_app. simpl. lia.
Qed.

Lemma lstm_label_loop_length label_map labellist l st st' :
  foldM (lstm_label_step label_map labellist) l st = Ok st' ->
  length (fst st') = (length (fst st) + length l)%nat /\
  length (snd st') = (length (snd st) + length l)%nat.
Proof.
  revert st. induction l as [|i l IH]; intros st H; simpl in H.
  - injection H as <-. simpl. lia.
  - inv_bind H. apply lstm_label_step_length in Ha. apply IH in H. simpl. lia.
Qed.

Lemma length_lstm_token_ids max_seq_length token_ids :
  length (lstm_token_ids max_seq_length token_ids) = max_seq_length.
Proof.
  unfold lstm_token_ids.
  destruct (Nat.ltb_spec max_seq_length (length token_ids)).
  - rewrite length_py_slice_to_nonneg. lia.
  - destruct (Nat.ltb_spec (length token_ids) max_seq_length).
    + rewrite length_app, repeat_length. lia.
    + lia.
Qed.

Lemma lstm_features_inv label_map max_seq_length encode_method example f :
  lstm_features label_map max_seq_length encode_method example = Ok f ->
  input_ids f =
    lstm_token_ids max_seq_length (encode_method (py_split " " (text_a example))) /\
  input_mask f = repeat 1 max_seq_length /\
  valid_ids f = repeat 1 max_seq_length /\
  length (label_id f) = max_seq_length /\
  length (label_mask f) = max_seq_length.
Proof.
  unfold lstm_features.
  fold (lstm_token_ids max_seq_length (encode_method (py_split " " (text_a example)))).
  intros H. inv_bind H. destruct a as [label_ids mask].
  injection H as <-. simpl.
  rewrite length_lstm_token_ids, Nat.sub_diag. simpl. rewrite app_nil_r.
  apply lstm_label_loop_length in Ha. simpl in Ha.
  unfold range in Ha. rewrite length_seq in Ha. tauto.
Qed.

Lemma lstm_features_well_sized label_map max_seq_length encode_method example f :
  lstm_features label_map max_seq_length encode_method example = Ok f ->
  well_sized max_seq_length f.
Proof.
  intros H. apply lstm_features_inv in H.
  destruct H as (Hi & Hm & Hv & Hl & Hk). unfold well_sized.
  rewrite Hi, Hm, Hv, length_lstm_token_ids, repeat_length. tauto.
Qed.

(** Every record of the recurrent strategy satisfies [P] when every record
    built from one example does. *)
Lemma lstm_records (P : InputFeatures -> Prop) examples label_list
    max_seq_length encode_method fs :
  (forall example f,
     lstm_features (build_label_map label_list) max_seq_length encode_method
       example = Ok f -> P f) ->
  convert_examples_to_features_LSTM examples label_list max_seq_length
    encode_method = Ok fs ->
  Forall P fs.
Proof.
  intros HP. unfold convert_examples_to_features_LSTM.
  apply (foldM_invariant (Forall P)); [|constructor].
  intros s x s' Hs H. inv_bind H. injection H as <-.
  apply Forall_app. split; [exact Hs|]. constructor; [|constructor]. eauto.
Qed.

(** ** Transformer strategy: encoding the words of one example *)

Lemma piece_loop_rest label_1 n start labels valid mask :
  fold_left (piece_step label_1) (seq (S start) n) (labels, valid, mask) =
  (labels ++ repeat ignored_label n, valid ++ repeat 0 n, mask ++ repeat 0 n).
Proof.
  revert start labels valid mask.
  induction n as [|n IH]; intros start labels valid mask; simpl.
  - now rewrite !app_nil_r.
  - rewrite IH. now rewrite <- !app_assoc.
Qed.

Lemma piece_loop label_1 k labels valid mask :
  fold_left (piece_step label_1) (range k) (labels, valid, mask) =
  (labels ++ piece_labels label_1 k, valid ++ piece_flags k, mask ++ piece_flags k).
Proof.
  unfold range. destruct k as [|k]; simpl.
  - now rewrite !app_nil_r.
  - rewrite piece_loop_rest. now rewrite <- !app_assoc.
Qed.

Lemma length_piece_labels label_1 k : length (piece_labels label_1 k) = k.
Proof. destruct k; simpl; [reflexivity | now rewrite repeat_length]. Qed.

Lemma length_piece_flags k : length (piece_flags k) = k.
Proof. destruct k; simpl; [reflexivity | now rewrite repeat_length]. Qed.

Lemma word_step_Ok encode_method labellist st i word label_1 :
  nth_error labellist i = Some label_1 ->
  word_step encode_method labellist st (i, word) =
  Ok {| p_token_ids := p_token_ids st ++ pieces_of encode_method word;
        p_labels := p_labels st ++
                    piece_labels label_1 (length (pieces_of encode_method word));
        p_valid := p_valid st ++
                   piece_flags (length (pieces_of encode_method word));
        p_label_mask := p_label_mask st ++
                        piece_flags (length (pieces_of encode_method word)) |}.
Proof.
  intros Hl. unfold word_step, py_index, pieces_of. rewrite Hl. simpl.
  now rewrite piece_loop.
Qed.

Lemma word_step_Raise encode_method labellist st i word :
  nth_error labellist i = None ->
  word_step encode_method labellist st (i, word) = Raise IndexError.
Proof. intros Hl. unfold word_step, py_index. now rewrite Hl. Qed.

(** The loop over the words in closed form: it raises [IndexError] when the
    labels run out, and otherwise appends each word's contribution. *)
Lemma word_loop encode_method labellist words i st :
  (i <= length labellist)%nat ->
  foldM (word_step encode_method labellist) (enumerate i words) st =
  if (i + length words <=? length labellist)%nat then
    Ok {| p_token_ids := p_token_ids st ++ words_token_ids encode_method words;
          p_labels := p_labels st ++
                      words_labels encode_method words (skipn i labellist);
          p_valid := p_valid st ++ words_flags encode_method words;
          p_label_mask := p_label_mask st ++ words_flags encode_method words |}
  else Raise IndexError.
Proof.
  revert i st. induction words as [|w words IH]; intros i st Hi.
  - simpl. rewrite Nat.add_0_r.
    destruct (Nat.leb_spec i (length labellist)); [|lia].
    unfold words_token_ids, words_labels, words_flags. simpl.
    rewrite !app_nil_r. now destruct st.
  - cbn [enumerate foldM length].
    destruct (nth_error labellist i) as [l|] eqn:Hl.
    + rewrite (word_step_Ok _ _ _ _ _ _ Hl). simpl.
      assert (i < length labellist)%nat by (apply nth_error_Some; congruence).
      rewrite IH by lia. cbn [p_token_ids p_labels p_valid p_label_mask].
      replace (i + S (length words))%nat with (S i + length words)%nat by lia.
      destruct (S i + length words <=? length labellist)%nat; [|reflexivity].
      f_equal. unfold words_token_ids, words_labels, words_flags.
      assert (Hs : skipn i labellist = l :: skipn (S i) labellist).
      { clear -Hl. revert i Hl. induction labellist as [|x xs IHl]; intros [|i] H;
          simpl in *; try discriminate.
        - now injection H as ->.
        - now apply IHl. }
      rewrite Hs. simpl. now rewrite <- !app_assoc.
    + rewrite (word_step_Raise _ _ _ _ _ Hl). simpl.
      apply nth_error_None in Hl.
      destruct (Nat.leb_spec (i + S (length words)) (length labellist)); [lia|].
      reflexivity.
Qed.

Lemma encode_words_closed encode_method textlist labellist :
  encode_words encode_method textlist labellist =
  if (length textlist <=? length labellist)%nat then
    Ok {| p_token_ids := words_token_ids encode_method textlist;
          p_labels := words_labels encode_method textlist labellist;
          p_valid := words_flags encode_method textlist;
          p_label_mask := words_flags encode_method textlist |}
  else Raise IndexError.
Proof.
  unfold encode_words. rewrite word_loop by lia. reflexivity.
Qed.

Lemma encode_words_Ok encode_method textlist labellist p :
  encode_words encode_method textlist labellist = Ok p ->
  (length textlist <= length labellist)%nat /\
  p_token_ids p = words_token_ids encode_method textlist /\
  p_labels p = words_labels encode_method textlist labellist /\
  p_valid p = words_flags encode_method textlist /\
  p_label_mask p = words_flags encode_method textlist.
Proof.
  rewrite encode_words_closed.
  destruct (Nat.leb_spec (length textlist) (length labellist)); [|discriminate].
  intros H'. injection H' as <-. simpl. tauto.
Qed.

(** The block that the [i]-th element contributes to a concatenation starts
    where the blocks of the elements before it end. *)
Lemma concat_map_block {A B : Type} (F : A -> list B) (xs : list A) (i : nat) (x : A) :
  nth_error xs i = Some x ->
  firstn (length (F x))
         (skipn (length (concat (map F (firstn i xs)))) (concat (map F xs))) = F x.
Proof.
  revert i. induction xs as [|y xs IH]; intros [|i] H; simpl in H; try discriminate.
  - injection H as ->. simpl. rewrite drop_0. apply take_app_length.
  - simpl. rewrite length_app, drop_app_add. now apply IH.
Qed.

Lemma nth_error_combine {A B : Type} (xs : list A) (ys : list B) i x y :
  nth_error xs i = Some x -> nth_error ys i = Some y ->
  nth_error (combine xs ys) i = Some (x, y).
Proof.
  revert ys i. induction xs as [|x0 xs IH]; intros [|y0 ys] [|i] Hx Hy;
    simpl in *; try discriminate.
  - congruence.
  - now apply IH.
Qed.

Lemma length_words_flags encode_method words :
  length (words_flags encode_method words) =
  length (words_token_ids encode_method words).
Proof.
  unfold words_flags, words_token_ids. induction words as [|w ws IH]; simpl.
  - reflexivity.
  - rewrite !length_app, length_piece_flags. lia.
Qed.

Lemma length_words_labels encode_method words labels :
  (length words <= length labels)%nat ->
  length (words_labels encode_method words labels) =
  length (words_token_ids encode_method words).
Proof.
  unfold words_labels, words_token_ids. revert labels.
  induction words as [|w ws IH]; intros [|l ls] H; simpl in *; try lia.
  rewrite !length_app, length_piece_labels, IH by lia. reflexivity.
Qed.

(** C4.  In the transformer strategy, a word that the sub-word encoder maps
    to [k >= 1] pieces occupies [k] consecutive positions, starting after the
    pieces of the words before it; the first of these positions carries the
    word's label with validity 1 and label mask 1, and each of the other
    [k - 1] positions carries the IGNORE label with validity 0 and label
    mask 0. *)
Theorem first_piece_inherits_label
    (encode_method : string -> list Z) (textlist labellist : list string)
    (p : pieces) (i : nat) (word lbl : string) :
  encode_words encode_method textlist labellist = Ok p ->
  nth_error textlist i = Some word ->
  nth_error labellist i = Some lbl ->
  let k := length (encode_method (py_strip word)) in
  let o := length (words_token_ids encode_method (firstn i textlist)) in
  (1 <= k)%nat ->
  firstn k (skipn o (p_token_ids p)) = encode_method (py_strip word) /\
  firstn k (skipn o (p_labels p)) = lbl :: repeat ignored_label (k - 1) /\
  firstn k (skipn o (p_valid p)) = 1 :: repeat 0 (k - 1) /\
  firstn k (skipn o (p_label_mask p)) = 1 :: repeat 0 (k - 1).
Proof.
  intros Hp Hw Hl k o Hk.
  apply encode_words_Ok in Hp. destruct Hp as (Hlen & Ht & Hlab & Hv & Hm).
  assert (Hi : (i < length textlist)%nat) by (apply nth_error_Some; congruence).
  assert (Hi' : (i < length labellist)%nat) by (apply nth_error_Some; congruence).
  assert (Hflags : firstn k (skipn o (words_flags encode_method textlist)) =
                   1 :: repeat 0 (k - 1)).
  { unfold o. rewrite <- length_words_flags. unfold words_flags.
    pose proof (concat_map_block
      (fun w => piece_flags (length (pieces_of encode_method w))) textlist i word Hw)
      as Hb.
    cbv beta in Hb. rewrite length_piece_flags in Hb.
    change (length (pieces_of encode_method word)) with k in Hb. rewrite Hb. destruct k; [lia|]. simpl. now rewrite Nat.sub_0_r. }
  rewrite Ht, Hlab, Hv, Hm. repeat split; try exact Hflags.
  - apply (concat_map_block (pieces_of encode_method) textlist i word Hw).
  - pose proof (nth_error_combine _ _ _ _ _ Hw Hl) as Hc.
    pose proof (concat_map_block
      (fun wl => piece_labels (snd wl) (length (pieces_of encode_method (fst wl))))
      (combine textlist labellist) i (word, lbl) Hc) as Hb.
    cbv beta in Hb. rewrite length_piece_labels in Hb. cbn [fst snd] in Hb.
    rewrite combine_firstn in Hb.
    fold (words_labels encode_method (firstn i textlist) (firstn i labellist)) in Hb.
    rewrite length_words_labels in Hb by (rewrite !length_firstn; lia).
    fold o in Hb. change (length (pieces_of encode_method word)) with k in Hb.
    unfold words_labels. rewrite Hb. destruct k; [lia|]. simpl.
    now rewrite Nat.sub_0_r.
Qed.

Lemma first_piece_inherits_label_witness :
  let encode_method := fun w : string => repeat 7 (String.length w) in
  let textlist := ["Jan"; "Kowalski"; "pracuje"] in
  let p := {| p_token_ids := repeat 7 18;
              p_labels := ["PERSON"; "IGNORE"; "IGNORE"; "PERSON"] ++
                          repeat "IGNORE" 7 ++ ["O"] ++ repeat "IGNORE" 6;
              p_valid := [1; 0; 0; 1] ++ repeat 0 7 ++ [1] ++ repeat 0 6;
              p_label_mask := [1; 0; 0; 1] ++ repeat 0 7 ++ [1] ++ repeat 0 6 |} in
  firstn 8 (skipn 3 (p_token_ids p)) = repeat 7 8 /\
  firstn 8 (skipn 3 (p_labels p)) = "PERSON" :: repeat ignored_label 7 /\
  firstn 8 (skipn 3 (p_valid p)) = 1 :: repeat 0 7 /\
  firstn 8 (skipn 3 (p_label_mask p)) = 1 :: repeat 0 7.
Proof.
  intros encode_method textlist p.
  apply (first_piece_inherits_label encode_method textlist
           ["PERSON"; "PERSON"; "O"] p 1 "Kowalski" "PERSON");
    [reflexivity | reflexivity | reflexivity | simpl; lia].
Defined.

(** ** Transformer strategy: flushing the pending buffer *)

Lemma pad_all_closed n ign label_map ig p :
  py_getitem label_map ign = Ok ig ->
  pad_all n ign label_map p =
  Ok {| pending_token_ids := pending_token_ids p ++ repeat 1 n;
        pending_input_mask := pending_input_mask p ++ repeat 0 n;
        pending_label_ids := pending_label_ids p ++ repeat ig n;
        pending_valid := pending_valid p ++ repeat 0 n;
        pending_label_mask := pending_label_mask p ++ repeat 0 n |}.
Proof.
  intros Hig. revert p. induction n as [|n IH]; intros p; simpl.
  - rewrite !app_nil_r. now destruct p.
  - rewrite Hig. simpl. rewrite IH. simpl. now rewrite <- !app_assoc.
Qed.

Lemma pad_labels_closed n ign label_map ig p :
  py_getitem label_map ign = Ok ig ->
  pad_labels n ign label_map p =
  Ok {| pending_token_ids := pending_token_ids p;
        pending_input_mask := pending_input_mask p;
        pending_label_ids := pending_label_ids p ++ repeat ig n;
        pending_valid := pending_valid p;
        pending_label_mask := pending_label_mask p ++ repeat 0 n |}.
Proof.
  intros Hig. revert p. induction n as [|n IH]; intros p; simpl.
  - rewrite !app_nil_r. now destruct p.
  - rewrite Hig. simpl. rewrite IH. simpl. now rewrite <- !app_assoc.
Qed.

(** Whatever [append_pending] returns passed its five assertions. *)
Lemma append_pending_well_sized ign p max_seq_length label_map f :
  append_pending ign p max_seq_length label_map = Ok f ->
  well_sized max_seq_length f.
Proof.
  unfold append_pending. intros H.
  inv_bind H. inv_bind H. do 5 inv_assert H. injection H as <-.
  unfold well_sized. simpl.
  repeat match goal with
         | Hb : (_ =? _)%nat = true |- _ => apply Nat.eqb_eq in Hb
         end.
  tauto.
Qed.

(** A buffer that [append_pending] accepts is no longer than
    [max_seq_length]. *)
Lemma append_pending_fits label_list p max_seq_length f :
  append_pending ignored_label p max_seq_length (build_label_map label_list) = Ok f ->
  (length (pending_token_ids p) <= max_seq_length)%nat.
Proof.
  unfold append_pending.
  rewrite (pad_all_closed _ _ _ 0) by apply py_getitem_ignore. simpl.
  rewrite (pad_labels_closed _ _ _ 0) by apply py_getitem_ignore. simpl.
  intros H. inv_assert H. simpl in Hassert. apply Nat.eqb_eq in Hassert.
  rewrite length_app, repeat_length in Hassert. lia.
Qed.

(** An aligned buffer that fits is flushed as its padded record. *)
Lemma append_pending_aligned label_list p max_seq_length :
  aligned p ->
  (length (pending_token_ids p) <= max_seq_length)%nat ->
  append_pending ignored_label p max_seq_length (build_label_map label_list) =
  Ok (pad_record max_seq_length p).
Proof.
  intros (Hm & Hl & Hv & Hk) Hfit. unfold append_pending.
  rewrite (pad_all_closed _ _ _ 0) by apply py_getitem_ignore. simpl.
  rewrite (pad_labels_closed _ _ _ 0) by apply py_getitem_ignore. simpl.
  rewrite !length_app, !repeat_length.
  replace (max_seq_length -
           (length (pending_label_ids p) +
            (max_seq_length - length (pending_token_ids p))))%nat with O by lia.
  simpl. rewrite !app_nil_r.
  rewrite Hm, Hl, Hv, Hk.
  replace (length (pending_token_ids p) +
           (max_seq_length - length (pending_token_ids p)))%nat
    with max_seq_length by lia.
  rewrite ?Nat.add_0_r, !Nat.eqb_refl. simpl.
  unfold pad_record. now rewrite Hm, Hl, Hv, Hk.
Qed.

(** ** Transformer strategy: the loop over the examples *)

Lemma pack_step_Ok label_map max_seq_length encode_method pend fs e st' :
  pack_step label_map max_seq_length encode_method (pend, fs) e = Ok st' ->
  exists s,
    encode_example label_map max_seq_length encode_method e = Ok s /\
    (((max_seq_length <
         length (pending_token_ids s) + length (pending_token_ids pend))%nat /\
      exists f,
        append_pending ignored_label pend max_seq_length label_map = Ok f /\
        st' = (s, fs ++ [f])) \/
     ((length (pending_token_ids s) + length (pending_token_ids pend) <=
         max_seq_length)%nat /\
      st' = (pending_extend pend s, fs))).
Proof.
  unfold pack_step. intros H. inv_bind H. exists a. split; [exact Ha|].
  destruct (Nat.ltb_spec max_seq_length
              (length (pending_token_ids a) + length (pending_token_ids pend))).
  - left. split; [assumption|]. inv_bind H. injection H as <-. eauto.
  - right. split; [assumption|]. now injection H as <-.
Qed.

Lemma convert_Transformers_run_from examples label_list max_seq_length encode_method :
  convert_examples_to_features_Transformers examples label_list max_seq_length
    encode_method =
  run_from (build_label_map label_list) max_seq_length encode_method
    empty_pending [] examples.
Proof. reflexivity. Qed.

Lemma run_from_cons label_map max_seq_length encode_method pend fs e examples :
  run_from label_map max_seq_length encode_method pend fs (e :: examples) =
  (st ← pack_step label_map max_seq_length encode_method (pend, fs) e;
   run_from label_map max_seq_length encode_method (fst st) (snd st) examples).
Proof.
  unfold run_from. cbn [foldM].
  generalize (pack_step label_map max_seq_length encode_method (pend, fs) e).
  intros [[pend' fs']|err]; reflexivity.
Qed.

(** Every record of a successful run is well sized when the records it
    started from are. *)
Lemma run_from_well_sized label_map max_seq_length encode_method examples :
  forall pend fs r,
    Forall (well_sized max_seq_length) fs ->
    run_from label_map max_seq_length encode_method pend fs examples = Ok r ->
    Forall (well_sized max_seq_length) r.
Proof.
  induction examples as [|e examples IH]; intros pend fs r Hfs H.
  - unfold run_from in H. simpl in H. inv_bind H. injection H as <-.
    apply Forall_app. split; [exact Hfs|]. constructor; [|constructor].
    eapply append_pending_well_sized; eauto.
  - rewrite run_from_cons in H. inv_bind H. destruct a as [pend' fs'].
    apply pack_step_Ok in Ha.
    destruct Ha as (s & _ & [(_ & f & Hf & Hst) | (_ & Hst)]);
      injection Hst as -> ->; simpl in H; eapply IH; try exact H; try exact Hfs.
    apply Forall_app. split; [exact Hfs|]. constructor; [|constructor].
    eapply append_pending_well_sized; eauto.
Qed.

(** A run that returns started from a buffer that fits. *)
Lemma run_from_pending_fits label_list max_seq_length encode_method examples :
  forall pend fs r,
    run_from (build_label_map label_list) max_seq_length encode_method
      pend fs examples = Ok r ->
    (length (pending_token_ids pend) <= max_seq_length)%nat.
Proof.
  induction examples as [|e examples IH]; intros pend fs r H.
  - unfold run_from in H. simpl in H. inv_bind H.
    eapply append_pending_fits; eauto.
  - rewrite run_from_cons in H. inv_bind H. destruct a as [pend' fs'].
    apply pack_step_Ok in Ha.
    destruct Ha as (s & _ & [(_ & f & Hf & Hst) | (_ & Hst)]);
      injection Hst as -> ->; simpl in H.
    + eapply append_pending_fits; eauto.
    + apply IH in H. simpl in H. rewrite length_app in H. lia.
Qed.

(** A run that returns encoded every example, each to a sequence that
    fits. *)
Lemma run_from_examples_fit label_list max_seq_length encode_method examples :
  forall pend fs r e,
    run_from (build_label_map label_list) max_seq_length encode_method
      pend fs examples = Ok r ->
    In e examples ->
    exists s,
      encode_example (build_label_map label_list) max_seq_length encode_method e
        = Ok s /\
      (length (pending_token_ids s) <= max_seq_length)%nat.
Proof.
  induction examples as [|e0 examples IH]; intros pend fs r e H Hin.
  - destruct Hin.
  - rewrite run_from_cons in H. inv_bind H. destruct a as [pend' fs'].
    simpl in H. destruct Hin as [<-|Hin]; [|eapply IH; eauto].
    apply pack_step_Ok in Ha.
    destruct Ha as (s & Hs & [(_ & f & Hf & Hst) | (_ & Hst)]);
      injection Hst as -> ->; exists s; (split; [exact Hs|]);
      apply run_from_pending_fits in H; simpl in H.
    + exact H.
    + rewrite length_app in H. lia.
Qed.

(** C5.  Every Feature Record that either feature strategy returns has its
    five parallel lists (input token ids, input mask, label ids, validity
    mask, label mask) of length exactly [max_seq_length]. *)
Theorem feature_records_have_length_max_seq_length :
  (forall (examples : list InputExample) (label_list : list string)
          (max_seq_length : nat) (encode_method : list string -> list Z)
          (fs : list InputFeatures),
     convert_examples_to_features_LSTM examples label_list max_seq_length
       encode_method = Ok fs ->
     Forall (well_sized max_seq_length) fs) /\
  (forall (examples : list InputExample) (label_list : list string)
          (max_seq_length : nat) (encode_method : string -> list Z)
          (fs : list InputFeatures),
     convert_examples_to_features_Transformers examples label_list
       max_seq_length encode_method = Ok fs ->
     Forall (well_sized max_seq_length) fs).
Proof.
  split.
  - intros examples label_list max_seq_length encode_method fs H.
    eapply lstm_records; [|exact H].
    intros example f Hf. eapply lstm_features_well_sized; eauto.
  - intros examples label_list max_seq_length encode_method fs H.
    rewrite convert_Transformers_run_from in H.
    eapply run_from_well_sized; [|exact H]. constructor.
Qed.

Lemma feature_records_have_length_max_seq_length_witness :
  Forall (well_sized 3)
    [ {| input_ids := [5; 0; 0]; input_mask := [1; 1; 1]; label_id := [1; 0; 0];
         valid_ids := [1; 1; 1]; label_mask := [1; 0; 0] |} ] /\
  Forall (well_sized 5)
    [ {| input_ids := [0; 5; 6; 5; 2]; input_mask := [1; 1; 1; 1; 1];
         label_id := [0; 1; 0; 1; 0]; valid_ids := [0; 1; 0; 1; 0];
         label_mask := [0; 1; 0; 1; 0] |};
      {| input_ids := [0; 5; 6; 2; 1]; input_mask := [1; 1; 1; 1; 0];
         label_id := [0; 1; 0; 0; 0]; valid_ids := [0; 1; 0; 0; 0];
         label_mask := [0; 1; 0; 0; 0] |} ].
Proof.
  split.
  - apply (proj1 feature_records_have_length_max_seq_length
             [mkInputExample "train-1" "Ala" None ["PERSON"]]
             ["PERSON"; "O"] 3%nat (fun _ => [5])).
    vm_compute. reflexivity.
  - apply (proj2 feature_records_have_length_max_seq_length
             [mkInputExample "train-0" "Jan Kowalski pracuje" None
                ["PERSON"; "PERSON"; "O"];
              mkInputExample "train-1" "Ala" None ["PERSON"]]
             ["PERSON"; "O"] 5%nat (fun _ => [5; 6])).
    vm_compute. reflexivity.
Defined.

(** C10.  The transformer strategy ends with an unconditional flush, so
    whatever it returns holds at least one Feature Record; for the empty
    list of examples it returns exactly one record, made of padding only:
    token ids all 1, the three masks all 0, label ids all the IGNORE id 0. *)
Theorem final_flush_is_unconditional :
  (forall (examples : list InputExample) (label_list : list string)
          (max_seq_length : nat) (encode_method : string -> list Z)
          (fs : list InputFeatures),
     convert_examples_to_features_Transformers examples label_list
       max_seq_length encode_method = Ok fs ->
     (1 <= length fs)%nat) /\
  (forall (label_list : list string) (max_seq_length : nat)
          (encode_method : string -> list Z),
     convert_examples_to_features_Transformers [] label_list max_seq_length
       encode_method =
     Ok [ {| input_ids := repeat 1 max_seq_length;
             input_mask := repeat 0 max_seq_length;
             label_id := repeat 0 max_seq_length;
             valid_ids := repeat 0 max_seq_length;
             label_mask := repeat 0 max_seq_length |} ]).
Proof.
  split.
  - intros examples label_list max_seq_length encode_method fs H.
    unfold convert_examples_to_features_Transformers in H.
    inv_bind H. destruct a as [pend features]. inv_bind H. injection H as <-.
    rewrite length_app. simpl. lia.
  - intros label_list max_seq_length encode_method.
    unfold convert_examples_to_features_Transformers. cbn [foldM].
    change (mbind ?k (Ok ?a)) with (k a). cbv beta iota.
    rewrite append_pending_aligned.
    + unfold pad_record, empty_pending. simpl. now rewrite Nat.sub_0_r.
    + unfold aligned, empty_pending. simpl. tauto.
    + simpl. lia.
Qed.

Lemma final_flush_is_unconditional_witness :
  Nat.le 1
    (length [ {| input_ids := [0; 5; 2; 1]; input_mask := [1; 1; 1; 0];
                 label_id := [0; 1; 0; 0]; valid_ids := [0; 1; 0; 0];
                 label_mask := [0; 1; 0; 0] |} ]).
Proof.
  apply (proj1 final_flush_is_unconditional
           [mkInputExample "train-1" "Ala" None ["PERSON"]]
           ["PERSON"; "O"] 4%nat (fun _ => [5])).
  vm_compute. reflexivity.
Defined.

(** ** Transformer strategy: one encoded example *)

Lemma drop_nth_error {A : Type} (l : list A) (i : nat) (x : A) :
  nth_error l i = Some x -> skipn i l = x :: skipn (S i) l.
Proof.
  revert i. induction l as [|y l IH]; intros [|i] H; simpl in H; try discriminate.
  - now injection H as ->.
  - now apply IH.
Qed.

Lemma lookup_labels_Ok label_map labels ids :
  lookup_labels label_map labels = Ok ids <->
  Forall2 (fun l id => label_map !! l = Some id) labels ids.
Proof.
  revert ids. induction labels as [|l labels IH]; intros ids; simpl.
  - split.
    + intros H. injection H as <-. constructor.
    + intros H. now inversion H.
  - split.
    + intros H. inv_bind H. inv_bind H. injection H as <-.
      constructor; [|now apply IH].
      unfold py_getitem in Ha. destruct (label_map !! l); congruence.
    + intros H. inversion H as [|? id ? ids' Hl Hrest]; subst.
      unfold py_getitem. rewrite Hl. simpl.
      apply IH in Hrest. now rewrite Hrest.
Qed.

Lemma lookup_labels_length label_map labels ids :
  lookup_labels label_map labels = Ok ids -> length ids = length labels.
Proof.
  intros H. apply lookup_labels_Ok in H. symmetry. eapply Forall2_length; eauto.
Qed.

Lemma lookup_labels_app label_map l1 l2 :
  lookup_labels label_map (l1 ++ l2) =
  (ids1 ← lookup_labels label_map l1;
   ids2 ← lookup_labels label_map l2;
   Ok (ids1 ++ ids2)).
Proof.
  induction l1 as [|l l1 IH]; simpl.
  - unfold mbind, result_bind, bind. now destruct (lookup_labels label_map l2).
  - rewrite IH. unfold mbind, result_bind, bind.
    destruct (py_getitem label_map l); [|reflexivity].
    destruct (lookup_labels label_map l1); [|reflexivity].
    now destruct (lookup_labels label_map l2).
Qed.

(** The loop that maps the labels to ids, over every position of the
    labels, is the left-to-right lookup. *)
Lemma label_ids_loop label_map labels n :
  forall start acc,
    (start + n = length labels)%nat ->
    foldM (fun label_ids i =>
             l ← py_index labels i;
             id ← py_getitem label_map l;
             Ok (label_ids ++ [id]))
          (seq start n) acc =
    (ids ← lookup_labels label_map (skipn start labels); Ok (acc ++ ids)).
Proof.
  induction n as [|n IH]; intros start acc Hlen.
  - rewrite drop_ge by lia. simpl. now rewrite app_nil_r.
  - cbn [seq foldM].
    destruct (nth_error labels start) as [l|] eqn:Hl.
    2:{ apply nth_error_None in Hl. lia. }
    rewrite (drop_nth_error _ _ _ Hl), (py_index_Ok _ _ _ Hl), bind_Ok_eq.
    cbn [lookup_labels].
    destruct (py_getitem label_map l) as [id|err];
      rewrite ?bind_Ok_eq, ?bind_Raise_eq; [|reflexivity].
    rewrite IH by lia.
    destruct (lookup_labels label_map (skipn (S start) labels));
      rewrite ?bind_Ok_eq, ?bind_Raise_eq; [|reflexivity].
    now rewrite <- app_assoc.
Qed.

Lemma label_ids_of_closed label_map labels :
  label_ids_of label_map labels (length labels) = lookup_labels label_map labels.
Proof.
  unfold label_ids_of, range. rewrite label_ids_loop by lia.
  rewrite drop_0. unfold mbind, result_bind, bind.
  now destruct (lookup_labels label_map labels).
Qed.

Lemma encode_words_aligned encode_method textlist labellist p :
  encode_words encode_method textlist labellist = Ok p -> aligned_pieces p.
Proof.
  intros H. apply encode_words_Ok in H. destruct H as (Hlen & Ht & Hl & Hv & Hm).
  unfold aligned_pieces. rewrite Ht, Hl, Hv, Hm.
  rewrite length_words_labels, length_words_flags by exact Hlen. tauto.
Qed.

Lemma length_py_slice_to_eq {A B : Type} (l : list A) (l' : list B) (stop : Z) :
  length l = length l' ->
  length (py_slice_to l stop) = length (py_slice_to l' stop).
Proof.
  intros H. unfold py_slice_to. destruct (0 <=? stop); rewrite !length_take, H;
    reflexivity.
Qed.

Lemma trim_aligned max_seq_length p :
  aligned_pieces p -> aligned_pieces (trim max_seq_length p).
Proof.
  intros (Hl & Hv & Hm). unfold trim.
  destruct (Z.of_nat max_seq_length - 1 <=? Z.of_nat (length (p_token_ids p)));
    [|unfold aligned_pieces; tauto].
  unfold aligned_pieces. simpl.
  repeat split; apply length_py_slice_to_eq; assumption.
Qed.

Lemma add_markers_aligned p : aligned_pieces p -> aligned_pieces (add_markers p).
Proof.
  intros (Hl & Hv & Hm). unfold aligned_pieces, add_markers. simpl.
  rewrite !length_app. simpl. lia.
Qed.

(** One example in closed form: encode the words, trim, add the markers and
    look the labels up; the four assertions of the source always hold. *)
Lemma encode_example_closed label_map max_seq_length encode_method example :
  encode_example label_map max_seq_length encode_method example =
  (p ← encode_words encode_method (py_split " " (text_a example)) (label example);
   ids ← lookup_labels label_map (p_labels (add_markers (trim max_seq_length p)));
   Ok (assemble (add_markers (trim max_seq_length p)) ids)).
Proof.
  unfold encode_example.
  destruct (encode_words encode_method (py_split " " (text_a example))
              (label example)) as [p|err] eqn:Hp; [|reflexivity].
  cbn [mbind result_bind bind].
  pose proof (add_markers_aligned _
                (trim_aligned max_seq_length _ (encode_words_aligned _ _ _ _ Hp)))
    as (Hl & Hv & Hm).
  set (t := add_markers (trim max_seq_length p)) in *.
  rewrite Hv, <- Hl, !Nat.eqb_refl. cbn [py_assert mbind result_bind bind].
  rewrite label_ids_of_closed.
  destruct (lookup_labels label_map (p_labels t)) as [ids|err] eqn:Hids;
    [|reflexivity].
  cbn [mbind result_bind bind].
  rewrite (lookup_labels_length _ _ _ Hids), Nat.eqb_refl.
  cbn [py_assert mbind result_bind bind]. unfold assemble. now rewrite Hl.
Qed.

Lemma encode_example_Ok label_map max_seq_length encode_method example s :
  encode_example label_map max_seq_length encode_method example = Ok s ->
  exists p ids,
    encode_words encode_method (py_split " " (text_a example)) (label example)
      = Ok p /\
    lookup_labels label_map (p_labels (add_markers (trim max_seq_length p)))
      = Ok ids /\
    s = assemble (add_markers (trim max_seq_length p)) ids.
Proof.
  rewrite encode_example_closed. intros H. inv_bind H. inv_bind H.
  injection H as <-. eauto.
Qed.

Lemma encode_example_aligned label_map max_seq_length encode_method example s :
  encode_example label_map max_seq_length encode_method example = Ok s ->
  aligned s.
Proof.
  intros H. apply encode_example_Ok in H. destruct H as (p & ids & Hp & Hids & ->).
  pose proof (add_markers_aligned _
                (trim_aligned max_seq_length _ (encode_words_aligned _ _ _ _ Hp)))
    as (Hl & Hv & Hm).
  apply lookup_labels_length in Hids.
  unfold aligned, assemble. simpl. rewrite repeat_length. rewrite Hids. tauto.
Qed.

Lemma trim_closed max_seq_length p :
  (2 <= max_seq_length)%nat ->
  trim max_seq_length p =
  if (max_seq_length - 1 <=? length (p_token_ids p))%nat
  then truncate_pieces (max_seq_length - 2) p else p.
Proof.
  intros Hmax. unfold trim.
  replace (Z.of_nat max_seq_length - 2) with (Z.of_nat (max_seq_length - 2)) by lia.
  rewrite !py_slice_to_nonneg.
  destruct (Z.leb_spec (Z.of_nat max_seq_length - 1)
                       (Z.of_nat (length (p_token_ids p))));
    destruct (Nat.leb_spec (max_seq_length - 1) (length (p_token_ids p)));
    try lia; reflexivity.
Qed.

Lemma lookup_labels_markers label_list labels :
  lookup_labels (build_label_map label_list)
    (ignored_label :: labels ++ [ignored_label]) =
  (mid ← lookup_labels (build_label_map label_list) labels; Ok (0 :: mid ++ [0])).
Proof.
  cbn [lookup_labels]. rewrite py_getitem_ignore, bind_Ok_eq, lookup_labels_app.
  destruct (lookup_labels (build_label_map label_list) labels) as [mid|err];
    rewrite ?bind_Ok_eq, ?bind_Raise_eq; [|reflexivity].
  cbn [lookup_labels]. rewrite py_getitem_ignore. reflexivity.
Qed.

(** A run over at least one example returns only when a record has room
    for the two sentence markers; for [max_seq_length < 2] the final
    assertions of [append_pending] fail. *)
Lemma run_needs_room_for_markers examples label_list max_seq_length
    encode_method fs example :
  convert_examples_to_features_Transformers examples label_list max_seq_length
    encode_method = Ok fs ->
  In example examples ->
  (2 <= max_seq_length)%nat.
Proof.
  intros H Hin. rewrite convert_Transformers_run_from in H.
  destruct (run_from_examples_fit _ _ _ _ _ _ _ _ H Hin) as (s & Hs & Hfit).
  destruct (encode_example_Ok _ _ _ _ _ Hs) as (p & ids & _ & _ & ->).
  simpl in Hfit. rewrite length_app in Hfit. simpl in Hfit. lia.
Qed.

(** C3.  In a run of the transformer strategy, an example whose sub-word
    encoding (before the sentence markers) has at least [max_seq_length - 1]
    ids has its token-id, label, validity and label-mask lists cut to their
    first [max_seq_length - 2] elements, and each then has exactly that
    length; a shorter encoding is left as it is.  In both cases the id 0 is
    put in front and the id 2 at the end, both with the IGNORE label (id 0),
    validity 0 and label mask 0. *)
Theorem truncation_and_sentence_markers
    (examples : list InputExample) (label_list : list string)
    (max_seq_length : nat) (encode_method : string -> list Z)
    (fs : list InputFeatures) (example : InputExample) :
  convert_examples_to_features_Transformers examples label_list max_seq_length
    encode_method = Ok fs ->
  In example examples ->
  exists (p t : pieces) (s : pending) (mid : list Z),
    encode_words encode_method (py_split " " (text_a example)) (label example)
      = Ok p /\
    encode_example (build_label_map label_list) max_seq_length encode_method
      example = Ok s /\
    (Z.of_nat max_seq_length - 1 <= Z.of_nat (length (p_token_ids p)) ->
     t = truncate_pieces (max_seq_length - 2) p /\
     Z.of_nat (length (p_token_ids t)) = Z.of_nat max_seq_length - 2 /\
     Z.of_nat (length (p_labels t)) = Z.of_nat max_seq_length - 2 /\
     Z.of_nat (length (p_valid t)) = Z.of_nat max_seq_length - 2 /\
     Z.of_nat (length (p_label_mask t)) = Z.of_nat max_seq_length - 2) /\
    (Z.of_nat (length (p_token_ids p)) < Z.of_nat max_seq_length - 1 -> t = p) /\
    pending_token_ids s = 0 :: p_token_ids t ++ [2] /\
    build_label_map label_list !! ignored_label = Some 0 /\
    pending_label_ids s = 0 :: mid ++ [0] /\
    Forall2 (fun l id => build_label_map label_list !! l = Some id)
            (p_labels t) mid /\
    pending_valid s = 0 :: p_valid t ++ [0] /\
    pending_label_mask s = 0 :: p_label_mask t ++ [0].
Proof.
  intros H Hin. rewrite convert_Transformers_run_from in H.
  destruct (run_from_examples_fit _ _ _ _ _ _ _ _ H Hin) as (s & Hs & Hfit).
  destruct (encode_example_Ok _ _ _ _ _ Hs) as (p & ids & Hp & Hids & Hsp).
  assert (Hmax : (2 <= max_seq_length)%nat).
  { rewrite Hsp in Hfit. simpl in Hfit. rewrite length_app in Hfit. simpl in Hfit.
    lia. }
  cbn [add_markers p_labels] in Hids. rewrite lookup_labels_markers in Hids.
  inv_bind Hids. injection Hids as <-. rename a into mid.
  pose proof (encode_words_aligned _ _ _ _ Hp) as (Hl & Hv & Hm).
  exists p, (trim max_seq_length p), s, mid.
  split; [exact Hp|]. split; [exact Hs|].
  rewrite (trim_closed _ _ Hmax). split; [|split].
  - intros Hlong.
    destruct (Nat.leb_spec (max_seq_length - 1) (length (p_token_ids p))); [|lia].
    split; [reflexivity|]. unfold truncate_pieces. simpl.
    rewrite !length_take, Hl, Hv, Hm. lia.
  - intros Hshort.
    destruct (Nat.leb_spec (max_seq_length - 1) (length (p_token_ids p))); [lia|].
    reflexivity.
  - rewrite <- (trim_closed _ _ Hmax). rewrite Hsp. simpl.
    repeat split; try reflexivity.
    + apply build_label_map_ignore.
    + now apply lookup_labels_Ok.
Qed.

Lemma truncation_and_sentence_markers_witness :
  let example := mkInputExample "train-0" "Jan Kowalski pracuje" None
                   ["PERSON"; "PERSON"; "O"] in
  let label_list := ["PERSON"; "O"] in
  let encode_method := fun _ : string => [5; 6] in
  exists (p t : pieces) (s : pending) (mid : list Z),
    encode_words encode_method (py_split " " (text_a example)) (label example)
      = Ok p /\
    encode_example (build_label_map label_list) 5 encode_method example = Ok s /\
    (Z.of_nat 5 - 1 <= Z.of_nat (length (p_token_ids p)) ->
     t = truncate_pieces (5 - 2) p /\
     Z.of_nat (length (p_token_ids t)) = Z.of_nat 5 - 2 /\
     Z.of_nat (length (p_labels t)) = Z.of_nat 5 - 2 /\
     Z.of_nat (length (p_valid t)) = Z.of_nat 5 - 2 /\
     Z.of_nat (length (p_label_mask t)) = Z.of_nat 5 - 2) /\
    (Z.of_nat (length (p_token_ids p)) < Z.of_nat 5 - 1 -> t = p) /\
    pending_token_ids s = 0 :: p_token_ids t ++ [2] /\
    build_label_map label_list !! ignored_label = Some 0 /\
    pending_label_ids s = 0 :: mid ++ [0] /\
    Forall2 (fun l id => build_label_map label_list !! l = Some id)
            (p_labels t) mid /\
    pending_valid s = 0 :: p_valid t ++ [0] /\
    pending_label_mask s = 0 :: p_label_mask t ++ [0].
Proof.
  intros example label_list encode_method.
  apply (truncation_and_sentence_markers
           [example; mkInputExample "train-1" "Ala" None ["PERSON"]]
           label_list 5%nat encode_method
           [ {| input_ids := [0; 5; 6; 5; 2]; input_mask := [1; 1; 1; 1; 1];
                label_id := [0; 1; 0; 1; 0]; valid_ids := [0; 1; 0; 1; 0];
                label_mask := [0; 1; 0; 1; 0] |};
             {| input_ids := [0; 5; 6; 2; 1]; input_mask := [1; 1; 1; 1; 0];
                label_id := [0; 1; 0; 0; 0]; valid_ids := [0; 1; 0; 0; 0];
                label_mask := [0; 1; 0; 0; 0] |} ]
           example).
  - vm_compute. reflexivity.
  - left. reflexivity.
Defined.

(** ** Transformer strategy: the packing *)

Lemma pending_extend_aligned p s :
  aligned p -> aligned s -> aligned (pending_extend p s).
Proof.
  intros (Hm & Hl & Hv & Hk) (Hm' & Hl' & Hv' & Hk').
  unfold aligned, pending_extend. simpl. rewrite !length_app. lia.
Qed.

Lemma pending_extend_empty s : pending_extend empty_pending s = s.
Proof. now destruct s. Qed.

Lemma pack_step_encoded label_map max_seq_length encode_method pend fs e s :
  encode_example label_map max_seq_length encode_method e = Ok s ->
  pack_step label_map max_seq_length encode_method (pend, fs) e =
  if (max_seq_length <?
        length (pending_token_ids s) + length (pending_token_ids pend))%nat
  then f ← append_pending ignored_label pend max_seq_length label_map;
       Ok (s, fs ++ [f])
  else Ok (pending_extend pend s, fs).
Proof. intros Hs. unfold pack_step. now rewrite Hs, bind_Ok_eq. Qed.

(** The loop and the final flush compute [pack_spec] of the encoded
    sequences, from any aligned pending buffer that fits. *)
Lemma run_from_pack_spec label_list max_seq_length encode_method examples seqs :
  Forall2 (fun e s =>
             encode_example (build_label_map label_list) max_seq_length
               encode_method e = Ok s /\
             (length (pending_token_ids s) <= max_seq_length)%nat)
          examples seqs ->
  forall pend fs,
    aligned pend ->
    (length (pending_token_ids pend) <= max_seq_length)%nat ->
    run_from (build_label_map label_list) max_seq_length encode_method
      pend fs examples =
    Ok (fs ++ pack_spec max_seq_length pend seqs).
Proof.
  induction 1 as [|e s examples seqs (Hs & Hfit) _ IH]; intros pend fs Hal Hpend.
  - unfold run_from. cbn [foldM]. rewrite bind_Ok_eq.
    now rewrite append_pending_aligned.
  - rewrite run_from_cons, (pack_step_encoded _ _ _ _ _ _ _ Hs).
    cbn [pack_spec].
    destruct (Nat.ltb_spec max_seq_length
                (length (pending_token_ids s) + length (pending_token_ids pend))).
    + rewrite append_pending_aligned by assumption.
      rewrite !bind_Ok_eq. cbn [fst snd].
      rewrite IH by (eauto using encode_example_aligned).
      now rewrite <- app_assoc.
    + rewrite bind_Ok_eq. cbn [fst snd].
      apply IH.
      * apply pending_extend_aligned; eauto using encode_example_aligned.
      * simpl. rewrite length_app. lia.
Qed.

(** C2.  When every example encodes to a sequence of at most
    [max_seq_length] ids, the transformer strategy returns the records of
    [pack_spec]: a sequence is appended to the pending buffer unless that
    would make the buffer longer than [max_seq_length]; exactly in that case
    the buffer is emitted as one record padded to [max_seq_length] (pad id 1,
    the three masks 0, label id IGNORE = 0) and the sequence starts the next
    buffer; the last buffer is emitted after the last example.  So two
    examples that fit together share one record, and a third one that
    overflows starts a second record. *)
Theorem packing_refines_pack_spec
    (examples : list InputExample) (label_list : list string)
    (max_seq_length : nat) (encode_method : string -> list Z)
    (seqs : list pending) :
  Forall2 (fun e s =>
             encode_example (build_label_map label_list) max_seq_length
               encode_method e = Ok s /\
             (length (pending_token_ids s) <= max_seq_length)%nat)
          examples seqs ->
  convert_examples_to_features_Transformers examples label_list max_seq_length
    encode_method = Ok (pack_spec max_seq_length empty_pending seqs) /\
  (forall s1 s2,
     seqs = [s1; s2] ->
     (length (pending_token_ids s1) + length (pending_token_ids s2)
        <= max_seq_length)%nat ->
     convert_examples_to_features_Transformers examples label_list
       max_seq_length encode_method =
     Ok [pad_record max_seq_length (pending_extend s1 s2)]) /\
  (forall s1 s2 s3,
     seqs = [s1; s2; s3] ->
     (length (pending_token_ids s1) + length (pending_token_ids s2)
        <= max_seq_length)%nat ->
     (max_seq_length <
        length (pending_token_ids s1) + length (pending_token_ids s2) +
        length (pending_token_ids s3))%nat ->
     convert_examples_to_features_Transformers examples label_list
       max_seq_length encode_method =
     Ok [pad_record max_seq_length (pending_extend s1 s2);
         pad_record max_seq_length s3]).
Proof.
  intros Hseqs.
  assert (Hrun : convert_examples_to_features_Transformers examples label_list
                   max_seq_length encode_method =
                 Ok (pack_spec max_seq_length empty_pending seqs)).
  { rewrite convert_Transformers_run_from.
    rewrite (run_from_pack_spec _ _ _ _ _ Hseqs).
    - reflexivity.
    - unfold aligned, empty_pending. simpl. tauto.
    - simpl. lia. }
  split; [exact Hrun|]. split.
  - intros s1 s2 -> Hfit. rewrite Hrun. cbn [pack_spec].
    cbn [empty_pending pending_token_ids length].
    destruct (Nat.ltb_spec max_seq_length (length (pending_token_ids s1) + 0));
      [lia|].
    rewrite pending_extend_empty.
    destruct (Nat.ltb_spec max_seq_length
                (length (pending_token_ids s2) + length (pending_token_ids s1)));
      [lia|].
    reflexivity.
  - intros s1 s2 s3 -> Hfit Hover. rewrite Hrun. cbn [pack_spec].
    cbn [empty_pending pending_token_ids length].
    destruct (Nat.ltb_spec max_seq_length (length (pending_token_ids s1) + 0));
      [lia|].
    rewrite pending_extend_empty.
    destruct (Nat.ltb_spec max_seq_length
                (length (pending_token_ids s2) + length (pending_token_ids s1)));
      [lia|].
    destruct (Nat.ltb_spec max_seq_length
                (length (pending_token_ids s3) +
                 length (pending_token_ids (pending_extend s1 s2)))) as [_|Hno].
    + reflexivity.
    + simpl in Hno. rewrite length_app in Hno. lia.
Qed.

Lemma packing_refines_pack_spec_witness :
  convert_examples_to_features_Transformers
    [mkInputExample "train-0" "Jan Kowalski pracuje" None ["PERSON"; "PERSON"; "O"];
     mkInputExample "train-1" "Ala" None ["PERSON"];
     mkInputExample "train-2" "Ola ma" None ["PERSON"; "O"]]
    ["PERSON"; "O"] 8 (fun _ => [5]) =
  Ok [ {| input_ids := [0; 5; 5; 5; 2; 0; 5; 2];
          input_mask := [1; 1; 1; 1; 1; 1; 1; 1];
          label_id := [0; 1; 1; 2; 0; 0; 1; 0];
          valid_ids := [0; 1; 1; 1; 0; 0; 1; 0];
          label_mask := [0; 1; 1; 1; 0; 0; 1; 0] |};
       {| input_ids := [0; 5; 5; 2; 1; 1; 1; 1];
          input_mask := [1; 1; 1; 1; 0; 0; 0; 0];
          label_id := [0; 1; 2; 0; 0; 0; 0; 0];
          valid_ids := [0; 1; 1; 0; 0; 0; 0; 0];
          label_mask := [0; 1; 1; 0; 0; 0; 0; 0] |} ].
Proof.
  refine (proj1 (packing_refines_pack_spec _ _ _ _
    [ {| pending_token_ids := [0; 5; 5; 5; 2];
         pending_input_mask := [1; 1; 1; 1; 1];
         pending_label_ids := [0; 1; 1; 2; 0];
         pending_valid := [0; 1; 1; 1; 0];
         pending_label_mask := [0; 1; 1; 1; 0] |};
      {| pending_token_ids := [0; 5; 2];
         pending_input_mask := [1; 1; 1];
         pending_label_ids := [0; 1; 0];
         pending_valid := [0; 1; 0];
         pending_label_mask := [0; 1; 0] |};
      {| pending_token_ids := [0; 5; 5; 2];
         pending_input_mask := [1; 1; 1; 1];
         pending_label_ids := [0; 1; 2; 0];
         pending_valid := [0; 1; 1; 0];
         pending_label_mask := [0; 1; 1; 0] |} ] _)).
  repeat constructor; try (vm_compute; reflexivity); simpl; lia.
Defined.

(** ** Transformer strategy: projecting back to the words *)

Lemma project_valid_app v1 l1 v2 l2 :
  length v1 = length l1 ->
  project_valid (v1 ++ v2) (l1 ++ l2) = project_valid v1 l1 ++ project_valid v2 l2.
Proof.
  revert l1. induction v1 as [|v v1 IH]; intros [|l l1] H; simpl in H;
    try discriminate; simpl.
  - reflexivity.
  - rewrite IH by lia. now destruct (v =? 1).
Qed.

Lemma project_valid_zeros n labels : project_valid (repeat 0 n) labels = [].
Proof.
  revert labels. induction n as [|n IH]; intros [|l labels]; simpl; auto.
Qed.

Lemma projected_pad_record max_seq_length p :
  aligned p -> projected_labels (pad_record max_seq_length p) = projected_pending p.
Proof.
  intros (_ & Hl & Hv & _). unfold projected_labels, projected_pending, pad_record.
  simpl. rewrite project_valid_app by lia.
  rewrite project_valid_zeros. apply app_nil_r.
Qed.

Lemma projected_pending_extend p s :
  aligned p ->
  projected_pending (pending_extend p s) = projected_pending p ++ projected_pending s.
Proof.
  intros (_ & Hl & Hv & _). unfold projected_pending, pending_extend. simpl.
  apply project_valid_app. lia.
Qed.

(** Packing keeps the projected labels, in order. *)
Lemma projected_pack_spec max_seq_length seqs :
  Forall aligned seqs ->
  forall pend,
    aligned pend ->
    concat (map projected_labels (pack_spec max_seq_length pend seqs)) =
    projected_pending pend ++ concat (map projected_pending seqs).
Proof.
  induction 1 as [|s seqs Hs _ IH]; intros pend Hpend; cbn [pack_spec].
  - simpl. now rewrite projected_pad_record.
  - destruct (max_seq_length <?
                length (pending_token_ids s) + length (pending_token_ids pend))%nat.
    + cbn [map concat]. rewrite projected_pad_record, IH by assumption. reflexivity.
    + rewrite IH by (now apply pending_extend_aligned).
      rewrite projected_pending_extend by assumption.
      cbn [map concat]. now rewrite <- app_assoc.
Qed.

(** The validity flags of the words select one id per word. *)
Lemma project_words encode_method (R : string -> Z -> Prop) words :
  Forall (fun w => (1 <= length (pieces_of encode_method w))%nat) words ->
  forall labels mid,
    (length words <= length labels)%nat ->
    Forall2 R (words_labels encode_method words labels) mid ->
    Forall2 R (firstn (length words) labels)
            (project_valid (words_flags encode_method words) mid).
Proof.
  unfold words_labels, words_flags.
  induction 1 as [|w words Hw _ IH]; intros labels mid Hlen Hmid.
  - simpl. constructor.
  - destruct labels as [|l labels]; [simpl in Hlen; lia|].
    cbn [combine map concat fst snd length firstn] in *.
    destruct (length (pieces_of encode_method w)) as [|k] eqn:Hk; [lia|].
    cbn [piece_labels piece_flags] in *.
    apply Forall2_app_inv_l in Hmid.
    destruct Hmid as (m1 & m2 & Hm1 & Hm2 & ->).
    inversion Hm1 as [|? id ? rest Hid Hrest]; subst.
    cbn [app project_valid]. change (1 =? 1) with true. cbv iota.
    constructor; [exact Hid|].
    rewrite project_valid_app.
    + rewrite project_valid_zeros. cbn [app]. apply IH; [lia | exact Hm2].
    + apply Forall2_length in Hrest. rewrite repeat_length in *. exact Hrest.
Qed.

Lemma trim_short max_seq_length p :
  Z.of_nat (length (p_token_ids p)) < Z.of_nat max_seq_length - 1 ->
  trim max_seq_length p = p.
Proof.
  intros H. unfold trim.
  destruct (Z.leb_spec (Z.of_nat max_seq_length - 1)
                       (Z.of_nat (length (p_token_ids p)))); [lia | reflexivity].
Qed.

(** An example that is not truncated and whose words all have a piece
    projects to the ids of the labels of its words. *)
Lemma projected_example label_list max_seq_length encode_method example s :
  encode_example (build_label_map label_list) max_seq_length encode_method
    example = Ok s ->
  Z.of_nat (length (words_token_ids encode_method (words_of example)))
    < Z.of_nat max_seq_length - 1 ->
  Forall (fun w => (1 <= length (encode_method (py_strip w)))%nat)
         (words_of example) ->
  Forall2 (fun l id => build_label_map label_list !! l = Some id)
          (word_labels_of example) (projected_pending s).
Proof.
  intros Hs Hshort Hpieces.
  destruct (encode_example_Ok _ _ _ _ _ Hs) as (p & ids & Hp & Hids & ->).
  fold (words_of example) in Hp.
  destruct (encode_words_Ok _ _ _ _ Hp) as (Hlen & Ht & Hl & Hv & Hm).
  rewrite trim_short in * by (rewrite Ht; exact Hshort).
  cbn [add_markers p_labels] in Hids. rewrite lookup_labels_markers in Hids.
  inv_bind Hids. injection Hids as <-. rename a into mid.
  apply lookup_labels_Ok in Ha. rewrite Hl in Ha.
  unfold projected_pending, assemble, add_markers. simpl.
  rewrite Hv, project_valid_app.
  - simpl. rewrite app_nil_r. unfold word_labels_of.
    apply (project_words encode_method); assumption.
  - apply Forall2_length in Ha. rewrite <- Ha.
    now rewrite length_words_labels, length_words_flags.
Qed.

Lemma Forall2_of_exists {A B : Type} (R : A -> B -> Prop) (l : list A) :
  (forall x, In x l -> exists y, R x y) -> exists k, Forall2 R l k.
Proof.
  induction l as [|x l IH]; intros H.
  - exists []. constructor.
  - destruct (H x (or_introl eq_refl)) as (y & Hy).
    destruct IH as (k & Hk); [intros z Hz; apply H; now right|].
    exists (y :: k). now constructor.
Qed.

Lemma projected_examples label_list max_seq_length encode_method examples seqs :
  Forall2 (fun e s =>
             encode_example (build_label_map label_list) max_seq_length
               encode_method e = Ok s /\
             (length (pending_token_ids s) <= max_seq_length)%nat)
          examples seqs ->
  Forall (fun e =>
            Z.of_nat (length (words_token_ids encode_method (words_of e)))
              < Z.of_nat max_seq_length - 1 /\
            Forall (fun w => (1 <= length (encode_method (py_strip w)))%nat)
                   (words_of e))
         examples ->
  Forall aligned seqs /\
  Forall2 (fun l id => build_label_map label_list !! l = Some id)
          (concat (map word_labels_of examples))
          (concat (map projected_pending seqs)) /\
  length (concat (map word_labels_of examples)) =
  length (concat (map words_of examples)).
Proof.
  induction 1 as [|e s examples seqs (Hs & _) _ IH]; intros Hex.
  - simpl. repeat split; constructor.
  - inversion Hex as [|? ? (Hshort & Hpieces) Hrest]; subst.
    destruct (IH Hrest) as (Hal & Hproj & Hcount).
    split; [|split].
    + constructor; [eapply encode_example_aligned; eauto | exact Hal].
    + cbn [map concat]. apply Forall2_app; [|exact Hproj].
      eapply projected_example; eauto.
    + cbn [map concat]. rewrite !length_app, Hcount. f_equal.
      destruct (encode_example_Ok _ _ _ _ _ Hs) as (p & ids & Hp & _).
      apply encode_words_Ok in Hp. destruct Hp as (Hlen & _).
      unfold word_labels_of. rewrite length_take. fold (words_of e) in Hlen. lia.
Qed.

(** C6.  Round trip of the transformer strategy.  When no example is
    truncated and every word of every example has at least one sub-word
    piece, the label ids found at the validity-1 positions of the returned
    records, read in order, are the ids of the labels of the original words
    in their original order: exactly one id per word. *)
Theorem validity_projection_round_trip
    (examples : list InputExample) (label_list : list string)
    (max_seq_length : nat) (encode_method : string -> list Z)
    (fs : list InputFeatures) :
  convert_examples_to_features_Transformers examples label_list max_seq_length
    encode_method = Ok fs ->
  Forall (fun e =>
            Z.of_nat (length (words_token_ids encode_method (words_of e)))
              < Z.of_nat max_seq_length - 1 /\
            Forall (fun w => (1 <= length (encode_method (py_strip w)))%nat)
                   (words_of e))
         examples ->
  Forall2 (fun l id => build_label_map label_list !! l = Some id)
          (concat (map word_labels_of examples))
          (concat (map projected_labels fs)) /\
  length (concat (map projected_labels fs)) =
  length (concat (map words_of examples)).
Proof.
  intros H Hex. rewrite convert_Transformers_run_from in H.
  destruct (Forall2_of_exists
              (fun e s =>
                 encode_example (build_label_map label_list) max_seq_length
                   encode_method e = Ok s /\
                 (length (pending_token_ids s) <= max_seq_length)%nat)
              examples) as (seqs & Hseqs).
  { intros e He. eapply run_from_examples_fit; eauto. }
  rewrite (run_from_pack_spec _ _ _ _ _ Hseqs) in H.
  2:{ unfold aligned, empty_pending. simpl. tauto. }
  2:{ simpl. lia. }
  injection H as <-. cbn [app].
  destruct (projected_examples _ _ _ _ _ Hseqs Hex) as (Hal & Hproj & Hcount).
  rewrite projected_pack_spec.
  - cbn [projected_pending empty_pending pending_valid project_valid app].
    split; [exact Hproj|].
    apply Forall2_length in Hproj. now rewrite <- Hproj.
  - exact Hal.
  - unfold aligned, empty_pending. simpl. tauto.
Qed.

Lemma validity_projection_round_trip_witness :
  let examples :=
    [mkInputExample "train-0" "Jan Kowalski pracuje" None ["PERSON"; "PERSON"; "O"];
     mkInputExample "train-1" "Ala" None ["PERSON"];
     mkInputExample "train-2" "Ola ma" None ["PERSON"; "O"]] in
  let fs :=
    [ {| input_ids := [0; 5; 6; 5; 6; 5; 6; 2; 1; 1];
         input_mask := [1; 1; 1; 1; 1; 1; 1; 1; 0; 0];
         label_id := [0; 1; 0; 1; 0; 2; 0; 0; 0; 0];
         valid_ids := [0; 1; 0; 1; 0; 1; 0; 0; 0; 0];
         label_mask := [0; 1; 0; 1; 0; 1; 0; 0; 0; 0] |};
      {| input_ids := [0; 5; 6; 2; 0; 5; 6; 5; 6; 2];
         input_mask := [1; 1; 1; 1; 1; 1; 1; 1; 1; 1];
         label_id := [0; 1; 0; 0; 0; 1; 0; 2; 0; 0];
         valid_ids := [0; 1; 0; 0; 0; 1; 0; 1; 0; 0];
         label_mask := [0; 1; 0; 0; 0; 1; 0; 1; 0; 0] |} ] in
  Forall2 (fun l id => build_label_map ["PERSON"; "O"] !! l = Some id)
          (concat (map word_labels_of examples))
          (concat (map projected_labels fs)) /\
  length (concat (map projected_labels fs)) =
  length (concat (map words_of examples)).
Proof.
  intros examples fs.
  apply (validity_projection_round_trip examples ["PERSON"; "O"] 10%nat
           (fun _ => [5; 6]) fs).
  - vm_compute. reflexivity.
  - repeat constructor; vm_compute; try reflexivity; try lia.
Defined.

(** ** Recurrent-model strategy: the validity mask *)

(** Whatever the example, the validity mask of the recurrent strategy is 1
    at every position: it is built after the token ids have been padded. *)
Lemma lstm_valid_ids_all_one examples label_list max_seq_length encode_method fs :
  convert_examples_to_features_LSTM examples label_list max_seq_length
    encode_method = Ok fs ->
  Forall (fun f => valid_ids f = repeat 1 max_seq_length) fs.
Proof.
  apply lstm_records. intros example f Hf.
  apply lstm_features_inv in Hf. tauto.
Qed.

(** C1.  The recurrent strategy on an example of one token with
    [max_seq_length = 3]: the token ids are padded at positions 1 and 2, and
    the validity mask is 1 at these two padding positions as well. *)
Theorem lstm_validity_mask_on_padding :
  convert_examples_to_features_LSTM
    [mkInputExample "train-0" "Ala" None ["PERSON"]] ["PERSON"; "O"] 3
    (fun _ => [5]) =
  Ok [ {| input_ids := [5; 0; 0]; input_mask := [1; 1; 1];
          label_id := [1; 0; 0]; valid_ids := [1; 1; 1];
          label_mask := [1; 0; 0] |} ].
Proof. vm_compute. reflexivity. Qed.

(** ** Corpus loader *)

(** With every read succeeding, the loop keeps reading until [x_train] holds
    101 documents. *)
Lemma load_loop_closed (docs : string -> list string * list string)
    (path : string) (files : list string) :
  forall x_train y_train,
    (length x_train <= 100)%nat ->
    load_loop (fun p => Ok (docs p)) path files x_train y_train =
    Ok (x_train ++
          map (fun f => fst (docs (path ++ "/" ++ f)%string))
              (firstn (101 - length x_train) files),
        y_train ++
          map (fun f => snd (docs (path ++ "/" ++ f)%string))
              (firstn (101 - length x_train) files)).
Proof.
  induction files as [|f files IH]; intros x_train y_train Hlen.
  - cbn [load_loop]. rewrite take_nil. simpl. now rewrite !app_nil_r.
  - cbn [load_loop]. rewrite bind_Ok_eq.
    destruct (docs (path ++ "/" ++ f)%string) as [tokens labels] eqn:Hdoc.
    rewrite length_app. cbn [length].
    destruct (Nat.ltb_spec 100 (length x_train + 1)).
    + replace (101 - length x_train)%nat with 1%nat by lia.
      cbn [firstn map]. rewrite take_0, Hdoc. reflexivity.
    + rewrite IH by (rewrite length_app; simpl; lia).
      rewrite length_app. cbn [length].
      replace (101 - length x_train)%nat
        with (S (101 - (length x_train + 1))) by lia.
      cbn [firstn map]. rewrite Hdoc. cbn [fst snd].
      now rewrite <- !app_assoc.
Qed.

(** A directory whose files are all recognized and readable gives
    [min n 101] documents, where [n] is the number of files. *)
Lemma load_from_folder_count (docs : string -> list string * list string)
    (path : string) (listing : list string) x_train y_train :
  filter_json listing = Ok listing ->
  load_from_folder listing (fun p => Ok (docs p)) path = Ok (x_train, y_train) ->
  length x_train = Nat.min (length listing) 101 /\
  length y_train = Nat.min (length listing) 101.
Proof.
  intros Hjson. unfold load_from_folder. rewrite Hjson, bind_Ok_eq.
  rewrite load_loop_closed by (simpl; lia).
  intros H. injection H as <- <-. cbn [app length].
  rewrite !length_map, length_take. lia.
Qed.

(** C7.  The loader on a directory of the 102 annotation files [0.json],
    ..., [101.json]: it returns 101 token sequences and 101 label sequences,
    the last of them read from [100.json]. *)
Theorem load_from_folder_reads_101_documents :
  exists x_train y_train,
    load_from_folder (map (fun i : nat => (pretty i ++ ".json")%string) (seq 0 102))
      (fun p => Ok ([p], ["O"])) "data" = Ok (x_train, y_train) /\
    length x_train = 101%nat /\
    length y_train = 101%nat /\
    last x_train = Some ["data/100.json"].
Proof.
  eexists. eexists. split; [vm_compute; reflexivity|].
  repeat split; vm_compute; reflexivity.
Qed.

(** ** The training driver *)

(** An output directory that exists and is not empty: [ValueError], and
    nothing at all has been done. *)
Lemma train_nonempty_output_dir output_dir entry entries train_batch_size
    gradient_accumulation_steps epochs train_examples warmup_proportion
    epoch_save_model evaluate_model :
  train output_dir (Directory (entry :: entries)) train_batch_size
    gradient_accumulation_steps epochs train_examples warmup_proportion
    epoch_save_model evaluate_model =
  {| trace := [];
     outcome := Raise (ValueError
       ("Output directory (" ++ output_dir ++
        ") already exists and is not empty.")%string) |}.
Proof. reflexivity. Qed.

(** A fresh output directory and [gradient_accumulation_steps < 1]: the
    message of the [ValueError] cannot be formatted, so the call ends with a
    [TypeError]; no work on the data or the model has been done. *)
Lemma train_invalid_accumulation output_dir out train_batch_size
    gradient_accumulation_steps epochs train_examples warmup_proportion
    epoch_save_model evaluate_model :
  out = Missing \/ out = Directory [] ->
  gradient_accumulation_steps < 1 ->
  let r := train output_dir out train_batch_size gradient_accumulation_steps
             epochs train_examples warmup_proportion epoch_save_model
             evaluate_model in
  outcome r =
    Raise (TypeError "not all arguments converted during string formatting") /\
  List.filter is_work (trace r) = [].
Proof.
  intros Hout Hgas r. subst r. unfold train.
  destruct (Z.ltb_spec gradient_accumulation_steps 1) as [_|]; [|lia].
  destruct Hout as [-> | ->]; split; reflexivity.
Qed.

(** C8.  [train] called with an output directory that does not exist and
    [gradient_accumulation_steps = 0]: the directory is created, logging is
    set up, and the call ends with a [TypeError], not a [ValueError]. *)
Theorem train_zero_accumulation_steps_raises_TypeError :
  train "out" Missing 32 0 3 [] 0.1%float false (fun _ => 0%float) =
  {| trace := [MakeDirs OutputDir; ConfigureLogging];
     outcome :=
       Raise (TypeError "not all arguments converted during string formatting") |}.
Proof. vm_compute. reflexivity. Qed.

(** ** The training driver: checkpoints *)

Lemma epoch_body_closed epoch_save_model evaluate_model best_val_f1 epoch_no :
  epoch_body epoch_save_model evaluate_model best_val_f1 epoch_no =
  {| trace :=
       [EpochStart epoch_no; TrainingPass epoch_no; EvaluateModel epoch_no] ++
       (if (best_val_f1 <? evaluate_model epoch_no)%float
        then [SaveModel OutputDir; SaveParams OutputDir] else []) ++
       (if epoch_save_model
        then [MakeDirs (EpochDir epoch_no); SaveModel (EpochDir epoch_no);
              SaveParams (EpochDir epoch_no)]
        else []);
     outcome := Ok (best_of best_val_f1 (evaluate_model epoch_no)) |}.
Proof.
  unfold epoch_body, best_of.
  destruct (best_val_f1 <? evaluate_model epoch_no)%float, epoch_save_model;
    reflexivity.
Qed.

Lemma epoch_loop_cons epoch_save_model evaluate_model epoch_no rest best_val_f1 :
  trace (epoch_loop epoch_save_model evaluate_model (epoch_no :: rest) best_val_f1) =
  trace (epoch_body epoch_save_model evaluate_model best_val_f1 epoch_no) ++
  trace (epoch_loop epoch_save_model evaluate_model rest
           (best_of best_val_f1 (evaluate_model epoch_no))).
Proof.
  cbn [epoch_loop]. unfold mbind, io_mbind, io_bind.
  rewrite epoch_body_closed. reflexivity.
Qed.

(** The events of one epoch name that epoch exactly when its score beats
    the best so far; the events after them belong to that epoch until the
    next [EpochStart]. *)
Lemma checkpoint_epochs_body epoch_save_model evaluate_model best_val_f1
    epoch_no current rest :
  checkpoint_epochs current
    (trace (epoch_body epoch_save_model evaluate_model best_val_f1 epoch_no) ++ rest) =
  (if (best_val_f1 <? evaluate_model epoch_no)%float then [epoch_no] else []) ++
  checkpoint_epochs epoch_no rest.
Proof.
  rewrite epoch_body_closed. cbn [trace].
  destruct (best_val_f1 <? evaluate_model epoch_no)%float, epoch_save_model;
    reflexivity.
Qed.

Lemma checkpoint_epochs_loop epoch_save_model evaluate_model e n :
  forall start best_val_f1 current,
    In e (checkpoint_epochs current
            (trace (epoch_loop epoch_save_model evaluate_model (seq start n)
                      best_val_f1))) <->
    (start <= e < start + n)%nat /\
    (fold_left best_of (map evaluate_model (seq start (e - start))) best_val_f1
       <? evaluate_model e)%float = true.
Proof.
  induction n as [|n IH]; intros start best_val_f1 current.
  - simpl. split; [tauto | lia].
  - cbn [seq]. rewrite epoch_loop_cons, checkpoint_epochs_body, in_app_iff, IH.
    split.
    + intros [Hnow | (Hrange & Hlater)].
      * destruct (best_val_f1 <? evaluate_model start)%float eqn:Hb;
          [|destruct Hnow].
        destruct Hnow as [<- | []]. split; [lia|].
        rewrite Nat.sub_diag. exact Hb.
      * split; [lia|].
        replace (e - start)%nat with (S (e - S start)) by lia.
        exact Hlater.
    + intros (Hrange & Hbeats).
      destruct (Nat.eq_dec e start) as [-> | Hne].
      * left. rewrite Nat.sub_diag in Hbeats. cbn [seq map fold_left] in Hbeats.
        rewrite Hbeats. now left.
      * right. split; [lia|].
        replace (e - start)%nat with (S (e - S start)) in Hbeats by lia.
        exact Hbeats.
Qed.

(** The parameters are written in the epochs in which the weights are. *)
Lemma params_epochs_body epoch_save_model evaluate_model best_val_f1
    epoch_no current rest :
  params_epochs current
    (trace (epoch_body epoch_save_model evaluate_model best_val_f1 epoch_no) ++ rest) =
  (if (best_val_f1 <? evaluate_model epoch_no)%float then [epoch_no] else []) ++
  params_epochs epoch_no rest.
Proof.
  rewrite epoch_body_closed. cbn [trace].
  destruct (best_val_f1 <? evaluate_model epoch_no)%float, epoch_save_model;
    reflexivity.
Qed.

Lemma params_epochs_loop epoch_save_model evaluate_model epoch_nos :
  forall best_val_f1 current,
    params_epochs current
      (trace (epoch_loop epoch_save_model evaluate_model epoch_nos best_val_f1)) =
    checkpoint_epochs current
      (trace (epoch_loop epoch_save_model evaluate_model epoch_nos best_val_f1)).
Proof.
  induction epoch_nos as [|e rest IH]; intros best_val_f1 current.
  - reflexivity.
  - rewrite epoch_loop_cons, checkpoint_epochs_body, params_epochs_body.
    f_equal. apply IH.
Qed.

(** The writes into [output_dir] come in pairs, the weights and then the
    parameters, one pair for each epoch that writes the best checkpoint. *)
Lemma writes_output_dir_loop epoch_save_model evaluate_model epoch_nos :
  forall best_val_f1 current,
    List.filter writes_output_dir
      (trace (epoch_loop epoch_save_model evaluate_model epoch_nos best_val_f1)) =
    flat_map (fun _ => [SaveModel OutputDir; SaveParams OutputDir])
      (checkpoint_epochs current
         (trace (epoch_loop epoch_save_model evaluate_model epoch_nos
                   best_val_f1))).
Proof.
  induction epoch_nos as [|e rest IH]; intros best_val_f1 current.
  - reflexivity.
  - rewrite epoch_loop_cons, checkpoint_epochs_body, List.filter_app,
      flat_map_app.
    f_equal; [|apply IH].
    rewrite epoch_body_closed. cbn [trace].
    destruct (best_val_f1 <? evaluate_model e)%float, epoch_save_model;
      reflexivity.
Qed.

(** C9.  During training the best checkpoint, the weights [model.pt] and
    the parameters [params.json] in the output directory, is written in
    epoch [e] exactly when the F1 score of that epoch is strictly greater
    than the best score seen before it, which starts at 0.0; the per-epoch
    snapshots do not change this.  The writes into the output directory are
    the weights followed by the parameters, once for each such epoch.  For
    the scores 0.5, 0.4, 0.6 the best checkpoint is written in epochs 1 and
    3 and in no other. *)
Theorem best_checkpoint_written_on_strict_improvement :
  (forall (epoch_save_model : bool) (evaluate_model : nat -> float)
          (epochs e : nat),
     In e (checkpoint_epochs 0
             (trace (run_epochs epoch_save_model evaluate_model epochs))) <->
     (1 <= e <= epochs)%nat /\
     (best_before evaluate_model e <? evaluate_model e)%float = true) /\
  (forall (epoch_save_model : bool) (evaluate_model : nat -> float)
          (epochs e : nat),
     In e (params_epochs 0
             (trace (run_epochs epoch_save_model evaluate_model epochs))) <->
     (1 <= e <= epochs)%nat /\
     (best_before evaluate_model e <? evaluate_model e)%float = true) /\
  (forall (epoch_save_model : bool) (evaluate_model : nat -> float)
          (epochs : nat),
     List.filter writes_output_dir
       (trace (run_epochs epoch_save_model evaluate_model epochs)) =
     flat_map (fun _ => [SaveModel OutputDir; SaveParams OutputDir])
       (checkpoint_epochs 0
          (trace (run_epochs epoch_save_model evaluate_model epochs)))) /\
  (forall epoch_save_model : bool,
     checkpoint_epochs 0
       (trace (run_epochs epoch_save_model
                 (fun e => nth (e - 1) [0.5; 0.4; 0.6]%float 0%float) 3)) =
     [1; 3]%nat /\
     params_epochs 0
       (trace (run_epochs epoch_save_model
                 (fun e => nth (e - 1) [0.5; 0.4; 0.6]%float 0%float) 3)) =
     [1; 3]%nat /\
     List.filter writes_output_dir
       (trace (run_epochs epoch_save_model
                 (fun e => nth (e - 1) [0.5; 0.4; 0.6]%float 0%float) 3)) =
     [SaveModel OutputDir; SaveParams OutputDir;
      SaveModel OutputDir; SaveParams OutputDir]).
Proof.
  assert (Hweights :
    forall (epoch_save_model : bool) (evaluate_model : nat -> float)
           (epochs e : nat),
      In e (checkpoint_epochs 0
              (trace (run_epochs epoch_save_model evaluate_model epochs))) <->
      (1 <= e <= epochs)%nat /\
      (best_before evaluate_model e <? evaluate_model e)%float = true).
  { intros epoch_save_model evaluate_model epochs e.
    unfold run_epochs, best_before. rewrite checkpoint_epochs_loop.
    split; intros (Hrange & Hbeats); (split; [lia | exact Hbeats]). }
  split; [exact Hweights|]. split; [|split].
  - intros epoch_save_model evaluate_model epochs e.
    rewrite <- Hweights. unfold run_epochs. now rewrite params_epochs_loop.
  - intros epoch_save_model evaluate_model epochs. unfold run_epochs.
    apply writes_output_dir_loop.
  - intros [|]; repeat split; vm_compute; reflexivity.
Qed.

(** * Further properties of the code *)

(** ** The label map *)

Lemma build_label_map_insert_labels label_list :
  build_label_map label_list =
  <[ignored_label := 0]> (insert_labels 1 label_list ∅).
Proof. reflexivity. Qed.

Lemma insert_labels_cons start l label_list m :
  insert_labels start (l :: label_list) m =
  insert_labels (S start) label_list (<[l := Z.of_nat start]> m).
Proof. reflexivity. Qed.

Lemma insert_labels_is_Some label_list :
  forall start m l,
    is_Some (insert_labels start label_list m !! l) <->
    In l label_list \/ is_Some (m !! l).
Proof.
  induction label_list as [|x label_list IH]; intros start m l.
  - simpl. unfold insert_labels. simpl. tauto.
  - rewrite insert_labels_cons, IH, lookup_insert_is_Some. simpl.
    destruct (decide (x = l)); tauto.
Qed.

(** An id found after the insertions was in the map before or is the
    position of the label in the list, counted from [start]. *)
Lemma insert_labels_Some label_list :
  forall start m l id,
    insert_labels start label_list m !! l = Some id ->
    m !! l = Some id \/
    exists i, nth_error label_list i = Some l /\ id = Z.of_nat (start + i).
Proof.
  induction label_list as [|x label_list IH]; intros start m l id H.
  - left. exact H.
  - rewrite insert_labels_cons in H. apply IH in H.
    destruct H as [H | (i & Hi & ->)].
    + destruct (decide (x = l)) as [-> | Hne].
      * rewrite lookup_insert_eq in H. injection H as <-.
        right. exists O. split; [reflexivity | f_equal; lia].
      * rewrite lookup_insert_ne in H by exact Hne. now left.
    + right. exists (S i). split; [exact Hi | f_equal; lia].
Qed.

Lemma insert_labels_not_in label_list :
  forall start m l,
    ~ In l label_list -> insert_labels start label_list m !! l = m !! l.
Proof.
  induction label_list as [|x label_list IH]; intros start m l Hnot.
  - reflexivity.
  - rewrite insert_labels_cons, IH by (simpl in Hnot; tauto).
    apply lookup_insert_ne. simpl in Hnot. tauto.
Qed.

Lemma insert_labels_NoDup label_list :
  forall start m i l,
    NoDup label_list ->
    nth_error label_list i = Some l ->
    insert_labels start label_list m !! l = Some (Z.of_nat (start + i)).
Proof.
  induction label_list as [|x label_list IH]; intros start m i l Hnd Hi.
  - destruct i; discriminate.
  - apply NoDup_cons in Hnd. destruct Hnd as (Hx & Hnd).
    rewrite insert_labels_cons. destruct i as [|i]; simpl in Hi.
    + injection Hi as ->. rewrite insert_labels_not_in.
      * rewrite lookup_insert_eq. f_equal. lia.
      * intros Hin. apply Hx. now apply list_elem_of_In.
    + rewrite (IH _ _ i l Hnd Hi). f_equal. lia.
Qed.

Lemma build_label_map_is_Some label_list l :
  is_Some (build_label_map label_list !! l) <-> known_label label_list l.
Proof.
  rewrite build_label_map_insert_labels, lookup_insert_is_Some,
    insert_labels_is_Some, lookup_empty.
  unfold known_label. split.
  - intros [-> | (_ & [Hin | Hnone])]; [now left | now right |].
    destruct Hnone as (? & ?). discriminate.
  - intros [-> | Hin]; [now left|].
    destruct (decide (ignored_label = l)); [now left | right; tauto].
Qed.

Lemma build_label_map_Some label_list l id :
  build_label_map label_list !! l = Some id ->
  (l = ignored_label /\ id = 0) \/
  (l <> ignored_label /\
   exists i, nth_error label_list i = Some l /\ id = Z.of_nat i + 1).
Proof.
  rewrite build_label_map_insert_labels. intros H.
  destruct (decide (ignored_label = l)) as [<- | Hne].
  - rewrite lookup_insert_eq in H. injection H as <-. now left.
  - rewrite lookup_insert_ne in H by exact Hne. right. split; [congruence|].
    apply insert_labels_Some in H. destruct H as [H | (i & Hi & ->)].
    + rewrite lookup_empty in H. discriminate.
    + exists i. split; [exact Hi | lia].
Qed.

(** X1.  The label map knows exactly the IGNORE label and the labels of
    [label_list]: the lookup of any other label is a [KeyError]. *)
Theorem label_map_domain (label_list : list string) (l : string) :
  (exists id, py_getitem (build_label_map label_list) l = Ok id) <->
  l = ignored_label \/ In l label_list.
Proof.
  rewrite <- (build_label_map_is_Some label_list l : _ <-> _ \/ _).
  unfold py_getitem. destruct (build_label_map label_list !! l) as [id|] eqn:H.
  - split; [intros _; now exists id | intros _; now exists id].
  - split; [intros (id & Hid); discriminate | intros (id & Hid); discriminate].
Qed.

(** X2.  Whatever the label list (duplicates, or a label spelt IGNORE,
    included), two labels never share an id; the id 0 belongs to the IGNORE
    label alone, and every id lies between 0 and the length of the list. *)
Theorem label_map_injective (label_list : list string) (l1 l2 : string) (id : Z) :
  build_label_map label_list !! l1 = Some id ->
  build_label_map label_list !! l2 = Some id ->
  l1 = l2 /\ (id = 0 <-> l1 = ignored_label) /\
  0 <= id <= Z.of_nat (length label_list).
Proof.
  intros H1 H2.
  apply build_label_map_Some in H1. apply build_label_map_Some in H2.
  destruct H1 as [(-> & ->) | (Hne1 & i & Hi & ->)];
    destruct H2 as [(-> & H0) | (Hne2 & j & Hj & Hij)]; try lia.
  - repeat split; lia.
  - assert (i = j) as -> by lia.
    assert (Hlt : (j < length label_list)%nat) by (apply nth_error_Some; congruence).
    repeat split; try lia; congruence.
Qed.

Lemma label_map_injective_witness :
  "PERSON" = "PERSON" /\ (3 = 0 <-> "PERSON" = ignored_label) /\
  0 <= 3 <= Z.of_nat (length ["PERSON"; "O"; "PERSON"; "IGNORE"]).
Proof.
  apply (label_map_injective ["PERSON"; "O"; "PERSON"; "IGNORE"] "PERSON" "PERSON" 3
           ltac:(vm_compute; reflexivity) ltac:(vm_compute; reflexivity)).
Defined.

(** X3.  When the label list has no duplicates, a label other than IGNORE
    gets its position in the list plus one. *)
Theorem label_map_positions (label_list : list string) (i : nat) (l : string) :
  NoDup label_list ->
  nth_error label_list i = Some l ->
  l <> ignored_label ->
  py_getitem (build_label_map label_list) l = Ok (Z.of_nat i + 1).
Proof.
  intros Hnd Hi Hne. unfold py_getitem.
  rewrite build_label_map_insert_labels, lookup_insert_ne by congruence.
  rewrite (insert_labels_NoDup _ 1 _ i l Hnd Hi). f_equal. lia.
Qed.

Lemma label_map_positions_witness :
  py_getitem (build_label_map ["PERSON"; "O"; "PLACE"]) "PLACE" = Ok (Z.of_nat 2 + 1).
Proof.
  apply (label_map_positions ["PERSON"; "O"; "PLACE"] 2 "PLACE").
  - repeat constructor; rewrite ?list_elem_of_In; simpl; intuition discriminate.
  - reflexivity.
  - discriminate.
Defined.

(** ** Words and tokens *)

Lemma py_split_no_sep sep s :
  contains_char sep s = false -> py_split sep s = [s].
Proof.
  induction s as [|c s IH]; intros H; simpl in *.
  - reflexivity.
  - apply orb_false_iff in H. destruct H as (Hc & Hs).
    rewrite Hc, (IH Hs). reflexivity.
Qed.

Lemma py_split_app sep a b :
  contains_char sep a = false ->
  py_split sep (a ++ String sep b)%string = a :: py_split sep b.
Proof.
  induction a as [|c a IH]; intros H; simpl in *.
  - now rewrite Ascii.eqb_refl.
  - apply orb_false_iff in H. destruct H as (Hc & Ha).
    rewrite Hc, (IH Ha). reflexivity.
Qed.

Lemma py_split_join_cons (t : string) (tokens : list string) :
  Forall (fun t => contains_char " " t = false) (t :: tokens) ->
  py_split " " (py_join " " (t :: tokens)) = t :: tokens.
Proof.
  revert t. induction tokens as [|t' tokens IH]; intros t Htok;
    inversion Htok as [|? ? Ht Hrest]; subst.
  - simpl. now apply py_split_no_sep.
  - change (py_join " " (t :: t' :: tokens))
      with (t ++ String " " (py_join " " (t' :: tokens)))%string.
    rewrite py_split_app by exact Ht. f_equal. now apply IH.
Qed.

(** X4.  Splitting the joined tokens of a document at single spaces gives
    the tokens back, provided the document has at least one token and no
    token contains a space. *)
Theorem split_join_round_trip (tokens : list string) :
  tokens <> [] ->
  Forall (fun t => contains_char " " t = false) tokens ->
  py_split " " (py_join " " tokens) = tokens.
Proof.
  intros Hne Htok. destruct tokens as [|t tokens]; [congruence|].
  now apply py_split_join_cons.
Qed.

Lemma split_join_round_trip_witness :
  py_split " " (py_join " " ["Jan"; "Kowalski"; "pracuje"]) =
  ["Jan"; "Kowalski"; "pracuje"].
Proof.
  apply split_join_round_trip; [discriminate | repeat constructor].
Defined.

Lemma length_py_split sep s :
  length (py_split sep s) = S (count_char sep s).
Proof.
  induction s as [|c s IH]; simpl.
  - reflexivity.
  - destruct (Ascii.eqb c sep); simpl.
    + now rewrite IH.
    + destruct (py_split sep s) as [|w ws]; simpl in *; [discriminate | exact IH].
Qed.

Lemma count_char_app c a b :
  count_char c (a ++ b)%string = (count_char c a + count_char c b)%nat.
Proof.
  induction a as [|d a IH]; simpl; [reflexivity|].
  rewrite IH. lia.
Qed.

(** X5.  The words of a joined document: a document without tokens is read
    back as one (empty) word, and otherwise every space inside a token adds
    a word to the number of tokens. *)
Theorem split_join_word_count (tokens : list string) :
  length (py_split " " (py_join " " tokens)) =
  match tokens with
  | [] => 1%nat
  | _ :: _ => (length tokens + list_sum (map (count_char " ") tokens))%nat
  end.
Proof.
  rewrite length_py_split. destruct tokens as [|t tokens]; [reflexivity|].
  revert t. induction tokens as [|t' tokens IH]; intros t.
  - simpl. lia.
  - change (py_join " " (t :: t' :: tokens))
      with (t ++ String " " (py_join " " (t' :: tokens)))%string.
    rewrite count_char_app. cbn [count_char]. rewrite Ascii.eqb_refl.
    cbn [Nat.b2n]. specialize (IH t'). cbn [length map] in *.
    unfold list_sum in *. cbn [fold_right] in *. lia.
Qed.

(** ** Looking labels up *)

Lemma lookup_labels_known label_list labels :
  (exists ids, lookup_labels (build_label_map label_list) labels = Ok ids) <->
  Forall (known_label label_list) labels.
Proof.
  induction labels as [|l labels IH].
  - split; [constructor | now exists []].
  - cbn [lookup_labels]. split.
    + intros (ids & H). inv_bind H. inv_bind H.
      constructor.
      * apply build_label_map_is_Some. unfold py_getitem in Ha.
        destruct (build_label_map label_list !! l) eqn:Hl; [eauto | discriminate].
      * apply IH. eauto.
    + intros H. inversion H as [|? ? Hl Hrest]; subst.
      apply build_label_map_is_Some in Hl. destruct Hl as (id & Hid).
      apply IH in Hrest. destruct Hrest as (ids & Hids).
      exists (id :: ids). unfold py_getitem. rewrite Hid, bind_Ok_eq, Hids.
      reflexivity.
Qed.

(** ** Recurrent-model strategy: the records in closed form *)

Lemma lstm_token_ids_closed max_seq_length token_ids :
  lstm_token_ids max_seq_length token_ids =
  firstn max_seq_length token_ids ++
  repeat 0 (max_seq_length - length token_ids).
Proof.
  unfold lstm_token_ids.
  destruct (Nat.ltb_spec max_seq_length (length token_ids)).
  - rewrite py_slice_to_nonneg.
    replace (max_seq_length - length token_ids)%nat with O by lia.
    simpl. now rewrite app_nil_r.
  - rewrite take_ge by lia.
    destruct (Nat.ltb_spec (length token_ids) max_seq_length); [reflexivity|].
    replace (max_seq_length - length token_ids)%nat with O by lia.
    simpl. now rewrite app_nil_r.
Qed.

Lemma lstm_label_step_out label_list labellist label_ids mask i :
  (length labellist <= i)%nat ->
  lstm_label_step (build_label_map label_list) labellist (label_ids, mask) i =
  Ok (label_ids ++ [0], mask ++ [0]).
Proof.
  intros H. unfold lstm_label_step.
  destruct (Nat.leb_spec (length labellist) i); [|lia].
  now rewrite py_getitem_ignore.
Qed.

Lemma lstm_label_step_in label_map labellist label_ids mask i l :
  nth_error labellist i = Some l ->
  lstm_label_step label_map labellist (label_ids, mask) i =
  (id ← py_getitem label_map l; Ok (label_ids ++ [id], mask ++ [1])).
Proof.
  intros H. unfold lstm_label_step.
  assert (i < length labellist)%nat by (apply nth_error_Some; congruence).
  destruct (Nat.leb_spec (length labellist) i); [lia|].
  now rewrite (py_index_Ok _ _ _ H), bind_Ok_eq.
Qed.

(** The loop over the positions looks up the labels that exist and fills
    the other positions with the IGNORE id and mask 0. *)
Lemma lstm_label_loop_closed label_list labellist n :
  forall start label_ids mask,
    foldM (lstm_label_step (build_label_map label_list) labellist)
          (seq start n) (label_ids, mask) =
    (new ← lookup_labels (build_label_map label_list)
             (firstn n (skipn start labellist));
     Ok (label_ids ++ new ++ repeat 0 (n - length new),
         mask ++ repeat 1 (length new) ++ repeat 0 (n - length new))).
Proof.
  induction n as [|n IH]; intros start label_ids mask.
  - simpl. now rewrite !app_nil_r.
  - cbn [seq foldM].
    destruct (Nat.leb_spec (length labellist) start) as [Hout | Hin].
    + rewrite lstm_label_step_out by exact Hout. rewrite bind_Ok_eq, IH.
      rewrite drop_ge by lia. rewrite drop_ge by lia. rewrite !take_nil.
      cbn [lookup_labels]. rewrite !bind_Ok_eq. cbn [length app].
      rewrite !Nat.sub_0_r. cbn [repeat]. now rewrite <- !app_assoc.
    + destruct (nth_error labellist start) as [l|] eqn:Hl.
      2:{ apply nth_error_None in Hl. lia. }
      rewrite (lstm_label_step_in _ _ _ _ _ _ Hl), (drop_nth_error _ _ _ Hl).
      cbn [firstn lookup_labels].
      destruct (py_getitem (build_label_map label_list) l) as [id|err];
        rewrite ?bind_Ok_eq, ?bind_Raise_eq; [|reflexivity].
      rewrite IH.
      destruct (lookup_labels (build_label_map label_list)
                  (firstn n (skipn (S start) labellist))) as [new|err];
        rewrite ?bind_Ok_eq, ?bind_Raise_eq; [|reflexivity].
      cbn [length Nat.sub repeat app]. now rewrite <- !app_assoc.
Qed.

Lemma lstm_features_closed label_list max_seq_length encode_method example :
  lstm_features (build_label_map label_list) max_seq_length encode_method example =
  (ids ← lookup_labels (build_label_map label_list)
           (firstn max_seq_length (label example));
   Ok {| input_ids :=
           firstn max_seq_length (encode_method (py_split " " (text_a example))) ++
           repeat 0 (max_seq_length -
                     length (encode_method (py_split " " (text_a example))));
         input_mask := repeat 1 max_seq_length;
         label_id := ids ++ repeat 0 (max_seq_length - length ids);
         valid_ids := repeat 1 max_seq_length;
         label_mask := repeat 1 (length ids) ++
                       repeat 0 (max_seq_length - length ids) |}).
Proof.
  unfold lstm_features.
  fold (lstm_token_ids max_seq_length (encode_method (py_split " " (text_a example)))).
  unfold range. rewrite lstm_label_loop_closed, drop_0.
  destruct (lookup_labels (build_label_map label_list)
              (firstn max_seq_length (label example))) as [ids|err];
    rewrite ?bind_Ok_eq, ?bind_Raise_eq; [|reflexivity].
  cbv beta iota.
  rewrite length_lstm_token_ids, Nat.sub_diag, lstm_token_ids_closed.
  cbn [repeat app]. now rewrite app_nil_r.
Qed.

(** A loop that appends one result per element returns the results of the
    elements, in order. *)
Lemma foldM_collect_Ok {A B : Type} (g : A -> result B) (l : list A) :
  forall acc r,
    foldM (fun fs x => f ← g x; Ok (fs ++ [f])) l acc = Ok r ->
    exists new, r = acc ++ new /\ Forall2 (fun x f => g x = Ok f) l new.
Proof.
  induction l as [|x l IH]; intros acc r H; cbn [foldM] in H.
  - injection H as <-. exists []. split; [now rewrite app_nil_r | constructor].
  - inv_bind H. inv_bind Ha. injection Ha as <-.
    apply IH in H. destruct H as (new & -> & Hnew).
    exists (a0 :: new). split; [now rewrite <- app_assoc | now constructor].
Qed.

Lemma foldM_collect {A B : Type} (g : A -> result B) (l : list A) (new : list B) :
  Forall2 (fun x f => g x = Ok f) l new ->
  forall acc,
    foldM (fun fs x => f ← g x; Ok (fs ++ [f])) l acc = Ok (acc ++ new).
Proof.
  induction 1 as [|x f l new Hx _ IH]; intros acc; cbn [foldM].
  - now rewrite app_nil_r.
  - rewrite Hx, !bind_Ok_eq, IH. now rewrite <- app_assoc.
Qed.

(** X6.  The recurrent strategy returns one record per example, in the
    order of the examples.  The token ids of a record are the encoded tokens
    cut to [max_seq_length] or padded on the right with the id 0, and the
    input mask is 1 at every position, padding included. *)
Theorem lstm_one_record_per_example
    (examples : list InputExample) (label_list : list string)
    (max_seq_length : nat) (encode_method : list string -> list Z)
    (fs : list InputFeatures) :
  convert_examples_to_features_LSTM examples label_list max_seq_length
    encode_method = Ok fs ->
  Forall2 (fun e f =>
             input_ids f =
               firstn max_seq_length (encode_method (py_split " " (text_a e))) ++
               repeat 0 (max_seq_length -
                         length (encode_method (py_split " " (text_a e)))) /\
             input_mask f = repeat 1 max_seq_length)
          examples fs.
Proof.
  intros H. unfold convert_examples_to_features_LSTM in H.
  apply foldM_collect_Ok in H. destruct H as (new & -> & Hnew). cbn [app].
  eapply Forall2_impl; [exact Hnew|].
  intros e f Hf. cbv beta in Hf. rewrite lstm_features_closed in Hf.
  inv_bind Hf. injection Hf as <-. simpl. tauto.
Qed.

Lemma lstm_one_record_per_example_witness :
  Forall2 (fun e f =>
             input_ids f =
               firstn 2 ((fun ws : list string => map (fun _ => 7) ws)
                           (py_split " " (text_a e))) ++
               repeat 0 (2 - length ((fun ws : list string => map (fun _ => 7) ws)
                                       (py_split " " (text_a e)))) /\
             input_mask f = repeat 1 2)
    [mkInputExample "train-0" "Jan Kowalski pracuje" None ["PERSON"; "PERSON"; "O"];
     mkInputExample "train-1" "Ala" None ["PERSON"]]
    [ {| input_ids := [7; 7]; input_mask := [1; 1]; label_id := [1; 1];
         valid_ids := [1; 1]; label_mask := [1; 1] |};
      {| input_ids := [7; 0]; input_mask := [1; 1]; label_id := [1; 0];
         valid_ids := [1; 1]; label_mask := [1; 0] |} ].
Proof.
  apply (lstm_one_record_per_example _ ["PERSON"; "O"] 2
           (fun ws => map (fun _ => 7) ws)).
  vm_compute. reflexivity.
Defined.

(** X7.  In a record of the recurrent strategy, position [i] carries the id
    of the [i]-th label of the example with label mask 1 while the example
    has an [i]-th label, and the IGNORE id 0 with label mask 0 from there
    on; labels beyond [max_seq_length] are dropped. *)
Theorem lstm_labels_are_positional
    (examples : list InputExample) (label_list : list string)
    (max_seq_length : nat) (encode_method : list string -> list Z)
    (fs : list InputFeatures) :
  convert_examples_to_features_LSTM examples label_list max_seq_length
    encode_method = Ok fs ->
  Forall2 (fun e f =>
             exists ids,
               Forall2 (fun l id => build_label_map label_list !! l = Some id)
                       (firstn max_seq_length (label e)) ids /\
               label_id f = ids ++ repeat 0 (max_seq_length - length ids) /\
               label_mask f =
                 repeat 1 (length ids) ++ repeat 0 (max_seq_length - length ids))
          examples fs.
Proof.
  intros H. unfold convert_examples_to_features_LSTM in H.
  apply foldM_collect_Ok in H. destruct H as (new & -> & Hnew). cbn [app].
  eapply Forall2_impl; [exact Hnew|].
  intros e f Hf. cbv beta in Hf. rewrite lstm_features_closed in Hf.
  inv_bind Hf. injection Hf as <-. exists a. simpl.
  split; [now apply lookup_labels_Ok | tauto].
Qed.

Lemma lstm_labels_are_positional_witness :
  Forall2 (fun e f =>
             exists ids,
               Forall2 (fun l id => build_label_map ["PERSON"; "O"] !! l = Some id)
                       (firstn 2 (label e)) ids /\
               label_id f = ids ++ repeat 0 (2 - length ids) /\
               label_mask f = repeat 1 (length ids) ++ repeat 0 (2 - length ids))
    [mkInputExample "train-0" "Jan Kowalski pracuje" None ["PERSON"; "PERSON"; "O"];
     mkInputExample "train-1" "Ala" None ["PERSON"]]
    [ {| input_ids := [7; 7]; input_mask := [1; 1]; label_id := [1; 1];
         valid_ids := [1; 1]; label_mask := [1; 1] |};
      {| input_ids := [7; 0]; input_mask := [1; 1]; label_id := [1; 0];
         valid_ids := [1; 1]; label_mask := [1; 0] |} ].
Proof.
  apply (lstm_labels_are_positional _ ["PERSON"; "O"] 2
           (fun ws => map (fun _ => 7) ws)).
  vm_compute. reflexivity.
Defined.

Lemma lstm_returns_of_known examples label_list max_seq_length encode_method :
  Forall (fun e => Forall (known_label label_list)
                          (firstn max_seq_length (label e)))
         examples ->
  exists fs,
    convert_examples_to_features_LSTM examples label_list max_seq_length
      encode_method = Ok fs.
Proof.
  intros Hknown. unfold convert_examples_to_features_LSTM.
  assert (Hall : exists new,
             Forall2 (fun e f =>
                        lstm_features (build_label_map label_list)
                          max_seq_length encode_method e = Ok f)
                     examples new).
  { induction Hknown as [|e examples He _ IH].
    - exists []. constructor.
    - destruct IH as (new & Hnew).
      apply lookup_labels_known in He. destruct He as (ids & Hids).
      eexists (_ :: new). constructor; [|exact Hnew].
      rewrite lstm_features_closed, Hids, bind_Ok_eq. reflexivity. }
  destruct Hall as (new & Hnew). exists new.
  apply (foldM_collect _ _ _ Hnew []).
Qed.

(** X8.  The recurrent strategy returns its records exactly when, in every
    example, each of the first [max_seq_length] labels is IGNORE or a label
    of [label_list]; otherwise it raises.  A label beyond position
    [max_seq_length] is never looked up. *)
Theorem lstm_returns_iff_labels_known
    (examples : list InputExample) (label_list : list string)
    (max_seq_length : nat) (encode_method : list string -> list Z) :
  (exists fs,
     convert_examples_to_features_LSTM examples label_list max_seq_length
       encode_method = Ok fs) <->
  Forall (fun e => Forall (known_label label_list)
                          (firstn max_seq_length (label e)))
         examples.
Proof.
  split; [|apply lstm_returns_of_known].
  unfold convert_examples_to_features_LSTM.
  intros (fs & H). apply foldM_collect_Ok in H.
  destruct H as (new & _ & Hnew).
  induction Hnew as [|e f examples new Hf _ IH]; constructor; [|exact IH].
  rewrite lstm_features_closed in Hf. inv_bind Hf.
  apply lookup_labels_known. eauto.
Qed.

(** ** Transformer strategy: what a run returns *)

(** A run that returns is the packing of the encoded examples. *)
Lemma run_is_pack_spec examples label_list max_seq_length encode_method fs :
  convert_examples_to_features_Transformers examples label_list max_seq_length
    encode_method = Ok fs ->
  exists seqs,
    Forall2 (fun e s =>
               encode_example (build_label_map label_list) max_seq_length
                 encode_method e = Ok s /\
               (length (pending_token_ids s) <= max_seq_length)%nat)
            examples seqs /\
    fs = pack_spec max_seq_length empty_pending seqs.
Proof.
  intros H. rewrite convert_Transformers_run_from in H.
  destruct (Forall2_of_exists
              (fun e s =>
                 encode_example (build_label_map label_list) max_seq_length
                   encode_method e = Ok s /\
                 (length (pending_token_ids s) <= max_seq_length)%nat)
              examples) as (seqs & Hseqs).
  { intros e He. eapply run_from_examples_fit; eauto. }
  exists seqs. split; [exact Hseqs|].
  rewrite (run_from_pack_spec _ _ _ _ _ Hseqs) in H.
  - now injection H as <-.
  - unfold aligned, empty_pending. simpl. tauto.
  - simpl. lia.
Qed.

Lemma empty_pending_aligned : aligned empty_pending.
Proof. unfold aligned, empty_pending. simpl. tauto. Qed.

(** A property of the pending buffer that holds for the empty buffer and
    for every encoded sequence, and that extending keeps, holds for every
    buffer that the packing emits. *)
Lemma pack_spec_emits (P : pending -> Prop) max_seq_length seqs :
  (forall p s, P p -> P s -> P (pending_extend p s)) ->
  Forall P seqs ->
  forall pend,
    P pend ->
    exists bufs,
      Forall P bufs /\
      pack_spec max_seq_length pend seqs = map (pad_record max_seq_length) bufs.
Proof.
  intros Hext. induction 1 as [|s seqs Hs _ IH]; intros pend Hpend; cbn [pack_spec].
  - exists [pend]. split; [now constructor | reflexivity].
  - destruct (max_seq_length <?
                length (pending_token_ids s) + length (pending_token_ids pend))%nat.
    + destruct (IH s Hs) as (bufs & Hbufs & ->).
      exists (pend :: bufs). split; [now constructor | reflexivity].
    + apply IH. now apply Hext.
Qed.

Lemma encode_example_twin label_map max_seq_length encode_method example s :
  encode_example label_map max_seq_length encode_method example = Ok s ->
  pending_label_mask s = pending_valid s.
Proof.
  intros H. apply encode_example_Ok in H. destruct H as (p & ids & Hp & _ & ->).
  apply encode_words_Ok in Hp. destruct Hp as (_ & _ & _ & Hv & Hm).
  unfold assemble, add_markers, trim. simpl.
  destruct (Z.of_nat max_seq_length - 1 <=? Z.of_nat (length (p_token_ids p)));
    simpl; now rewrite Hv, Hm.
Qed.

(** X9.  In every record of the transformer strategy the label mask and
    the validity mask are the same list. *)
Theorem label_mask_equals_validity_mask
    (examples : list InputExample) (label_list : list string)
    (max_seq_length : nat) (encode_method : string -> list Z)
    (fs : list InputFeatures) :
  convert_examples_to_features_Transformers examples label_list max_seq_length
    encode_method = Ok fs ->
  Forall (fun f => label_mask f = valid_ids f) fs.
Proof.
  intros H. apply run_is_pack_spec in H. destruct H as (seqs & Hseqs & ->).
  destruct (pack_spec_emits
              (fun p => pending_label_mask p = pending_valid p)
              max_seq_length seqs) with (pend := empty_pending)
    as (bufs & Hbufs & ->).
  - intros p s Hp Hs. unfold pending_extend. simpl. now rewrite Hp, Hs.
  - clear -Hseqs. induction Hseqs as [|e s examples seqs (Hs & _) _ IH];
      constructor; [eapply encode_example_twin; eauto | exact IH].
  - reflexivity.
  - apply Forall_map. eapply Forall_impl; [exact Hbufs|].
    intros p Hp. unfold pad_record. simpl in *. now rewrite Hp.
Qed.

Lemma label_mask_equals_validity_mask_witness :
  Forall (fun f => label_mask f = valid_ids f)
    [ {| input_ids := [0; 5; 6; 5; 2]; input_mask := [1; 1; 1; 1; 1];
         label_id := [0; 1; 0; 1; 0]; valid_ids := [0; 1; 0; 1; 0];
         label_mask := [0; 1; 0; 1; 0] |};
      {| input_ids := [0; 5; 6; 2; 1]; input_mask := [1; 1; 1; 1; 0];
         label_id := [0; 1; 0; 0; 0]; valid_ids := [0; 1; 0; 0; 0];
         label_mask := [0; 1; 0; 0; 0] |} ].
Proof.
  apply (label_mask_equals_validity_mask
           [mkInputExample "train-0" "Jan Kowalski pracuje" None
              ["PERSON"; "PERSON"; "O"];
            mkInputExample "train-1" "Ala" None ["PERSON"]]
           ["PERSON"; "O"] 5%nat (fun _ => [5; 6])).
  vm_compute. reflexivity.
Defined.

Lemma project_valid_ones (l : list Z) : project_valid (repeat 1 (length l)) l = l.
Proof. induction l as [|x l IH]; simpl; [reflexivity | now rewrite IH]. Qed.

Lemma masked_ids_pad_record max_seq_length p :
  pending_input_mask p = repeat 1 (length (pending_token_ids p)) ->
  masked_ids (pad_record max_seq_length p) = pending_token_ids p.
Proof.
  intros Hm. unfold masked_ids, pad_record. simpl. rewrite Hm, repeat_length.
  rewrite project_valid_app by now rewrite repeat_length.
  rewrite project_valid_ones, project_valid_zeros. apply app_nil_r.
Qed.

Lemma masked_ids_pack_spec max_seq_length seqs :
  Forall (fun s => pending_input_mask s = repeat 1 (length (pending_token_ids s)))
         seqs ->
  forall pend,
    pending_input_mask pend = repeat 1 (length (pending_token_ids pend)) ->
    concat (map masked_ids (pack_spec max_seq_length pend seqs)) =
    pending_token_ids pend ++ concat (map pending_token_ids seqs).
Proof.
  induction 1 as [|s seqs Hs _ IH]; intros pend Hpend; cbn [pack_spec].
  - simpl. now rewrite masked_ids_pad_record.
  - destruct (max_seq_length <?
                length (pending_token_ids s) + length (pending_token_ids pend))%nat.
    + cbn [map concat]. rewrite masked_ids_pad_record, IH by assumption.
      reflexivity.
    + rewrite IH.
      * simpl. now rewrite <- app_assoc.
      * simpl. rewrite Hpend, Hs, length_app. now rewrite repeat_app.
Qed.

(** X10.  Packing loses and reorders nothing: the token ids found at the
    positions with input mask 1, read record after record, are the encoded
    sequences of the examples one after the other. *)
Theorem packing_keeps_every_token
    (examples : list InputExample) (label_list : list string)
    (max_seq_length : nat) (encode_method : string -> list Z)
    (fs : list InputFeatures) :
  convert_examples_to_features_Transformers examples label_list max_seq_length
    encode_method = Ok fs ->
  exists seqs,
    Forall2 (fun e s =>
               encode_example (build_label_map label_list) max_seq_length
                 encode_method e = Ok s)
            examples seqs /\
    concat (map masked_ids fs) = concat (map pending_token_ids seqs).
Proof.
  intros H. apply run_is_pack_spec in H. destruct H as (seqs & Hseqs & ->).
  exists seqs. split.
  - eapply Forall2_impl; [exact Hseqs|]. intros e s (Hs & _). exact Hs.
  - rewrite masked_ids_pack_spec; [reflexivity | | reflexivity].
    clear -Hseqs. induction Hseqs as [|e s examples seqs (Hs & _) _ IH];
      constructor; [|exact IH].
    apply encode_example_Ok in Hs. destruct Hs as (p & ids & _ & _ & ->).
    reflexivity.
Qed.

Lemma packing_keeps_every_token_witness :
  let examples :=
    [mkInputExample "train-0" "Jan Kowalski pracuje" None ["PERSON"; "PERSON"; "O"];
     mkInputExample "train-1" "Ala" None ["PERSON"]] in
  let fs :=
    [ {| input_ids := [0; 5; 6; 5; 2]; input_mask := [1; 1; 1; 1; 1];
         label_id := [0; 1; 0; 1; 0]; valid_ids := [0; 1; 0; 1; 0];
         label_mask := [0; 1; 0; 1; 0] |};
      {| input_ids := [0; 5; 6; 2; 1]; input_mask := [1; 1; 1; 1; 0];
         label_id := [0; 1; 0; 0; 0]; valid_ids := [0; 1; 0; 0; 0];
         label_mask := [0; 1; 0; 0; 0] |} ] in
  exists seqs,
    Forall2 (fun e s =>
               encode_example (build_label_map ["PERSON"; "O"]) 5
                 (fun _ => [5; 6]) e = Ok s)
            examples seqs /\
    concat (map masked_ids fs) = concat (map pending_token_ids seqs).
Proof.
  intros examples fs.
  apply (packing_keeps_every_token examples ["PERSON"; "O"] 5%nat
           (fun _ => [5; 6]) fs).
  vm_compute. reflexivity.
Defined.

(** ** Transformer strategy: when a run returns *)

Lemma words_labels_Forall (P : string -> Prop) encode_method words :
  P ignored_label ->
  forall labels,
    Forall P (firstn (length words) labels) ->
    Forall P (words_labels encode_method words labels).
Proof.
  intros Hign. unfold words_labels.
  induction words as [|w words IH]; intros labels Hl.
  - constructor.
  - destruct labels as [|l labels]; [constructor|].
    cbn [length firstn combine map concat fst snd] in *.
    inversion Hl as [|? ? Hhead Hrest]; subst.
    apply Forall_app. split; [|now apply IH].
    destruct (length (pieces_of encode_method w)) as [|k]; [constructor|].
    cbn [piece_labels]. constructor; [exact Hhead|].
    clear -Hign. induction k; simpl; constructor; assumption.
Qed.

Lemma py_slice_to_Forall {A : Type} (P : A -> Prop) (l : list A) (stop : Z) :
  Forall P l -> Forall P (py_slice_to l stop).
Proof. intros H. unfold py_slice_to. destruct (0 <=? stop); now apply Forall_take. Qed.

Lemma length_trim_fits max_seq_length p :
  (2 <= max_seq_length)%nat ->
  (length (p_token_ids (add_markers (trim max_seq_length p))) <= max_seq_length)%nat.
Proof.
  intros Hmax. rewrite trim_closed by exact Hmax.
  destruct (Nat.leb_spec (max_seq_length - 1) (length (p_token_ids p)));
    unfold add_markers, truncate_pieces; simpl;
    rewrite length_app, ?length_take; simpl; lia.
Qed.

(** An example with a label for each word, all of them known, is encoded
    to a sequence that fits, as soon as a record has room for the markers. *)
Lemma encode_example_total label_list max_seq_length encode_method example :
  (2 <= max_seq_length)%nat ->
  (length (words_of example) <= length (label example))%nat ->
  Forall (known_label label_list) (word_labels_of example) ->
  exists s,
    encode_example (build_label_map label_list) max_seq_length encode_method
      example = Ok s /\
    (length (pending_token_ids s) <= max_seq_length)%nat.
Proof.
  intros Hmax Hlen Hknown. rewrite encode_example_closed, encode_words_closed.
  fold (words_of example).
  destruct (Nat.leb_spec (length (words_of example)) (length (label example)));
    [|lia].
  rewrite bind_Ok_eq.
  set (p := {| p_token_ids := words_token_ids encode_method (words_of example);
               p_labels := words_labels encode_method (words_of example)
                             (label example);
               p_valid := words_flags encode_method (words_of example);
               p_label_mask := words_flags encode_method (words_of example) |}).
  assert (Hlab : Forall (known_label label_list) (p_labels (trim max_seq_length p))).
  { unfold trim.
    destruct (Z.of_nat max_seq_length - 1 <=? Z.of_nat (length (p_token_ids p)));
      simpl; [apply py_slice_to_Forall|];
      (apply words_labels_Forall; [now left | exact Hknown]). }
  apply lookup_labels_known in Hlab. destruct Hlab as (mid & Hmid).
  cbn [add_markers p_labels]. rewrite lookup_labels_markers, Hmid, !bind_Ok_eq.
  eexists. split; [reflexivity|].
  apply (length_trim_fits max_seq_length p Hmax).
Qed.

(** A run returns when every example is encoded to a sequence that fits. *)
Lemma run_total examples label_list max_seq_length encode_method :
  (forall e, In e examples ->
     exists s,
       encode_example (build_label_map label_list) max_seq_length
         encode_method e = Ok s /\
       (length (pending_token_ids s) <= max_seq_length)%nat) ->
  exists fs,
    convert_examples_to_features_Transformers examples label_list
      max_seq_length encode_method = Ok fs.
Proof.
  intros Hall.
  destruct (Forall2_of_exists
              (fun e s =>
                 encode_example (build_label_map label_list) max_seq_length
                   encode_method e = Ok s /\
                 (length (pending_token_ids s) <= max_seq_length)%nat)
              examples Hall) as (seqs & Hseqs).
  eexists. rewrite convert_Transformers_run_from.
  apply (run_from_pack_spec _ _ _ _ _ Hseqs).
  - apply empty_pending_aligned.
  - simpl. lia.
Qed.

(** X11.  The transformer strategy returns its records whenever a record
    has room for the two sentence markers, every example has at least as
    many labels as words, and the labels of its words are IGNORE or labels
    of [label_list]. *)
Theorem transformers_returns_when_labels_suffice
    (examples : list InputExample) (label_list : list string)
    (max_seq_length : nat) (encode_method : string -> list Z) :
  (2 <= max_seq_length)%nat ->
  Forall (fun e =>
            (length (words_of e) <= length (label e))%nat /\
            Forall (known_label label_list) (word_labels_of e))
         examples ->
  exists fs,
    convert_examples_to_features_Transformers examples label_list
      max_seq_length encode_method = Ok fs.
Proof.
  intros Hmax Hex. apply run_total.
  intros e He. rewrite Forall_forall in Hex.
  destruct (Hex e (proj2 (list_elem_of_In _ _) He)) as (Hlen & Hknown).
  now apply encode_example_total.
Qed.

Lemma transformers_returns_when_labels_suffice_witness :
  exists fs,
    convert_examples_to_features_Transformers
      [mkInputExample "train-0" "Jan Kowalski pracuje" None
         ["PERSON"; "PERSON"; "O"; "O"];
       mkInputExample "train-1" "Ala" None ["IGNORE"]]
      ["PERSON"; "O"] 4%nat (fun w => repeat 9 (String.length w)) = Ok fs.
Proof.
  apply transformers_returns_when_labels_suffice.
  - lia.
  - constructor; [|constructor; [|constructor]].
    + split; [simpl; lia|].
      unfold word_labels_of, words_of, known_label. simpl.
      constructor; [|constructor; [|constructor; [|constructor]]]; simpl; tauto.
    + split; [simpl; lia|].
      unfold word_labels_of, words_of, known_label. simpl.
      constructor; [|constructor]; simpl; tauto.
Defined.

(** X12.  An example with fewer labels than words makes the transformer
    strategy raise, wherever it stands in the list.  An example with the
    empty text and no label is such an example: the empty text is one
    word. *)
Theorem transformers_raises_on_missing_labels
    (examples : list InputExample) (label_list : list string)
    (max_seq_length : nat) (encode_method : string -> list Z)
    (example : InputExample) :
  In example examples ->
  (length (label example) < length (py_split " " (text_a example)))%nat ->
  exists err,
    convert_examples_to_features_Transformers examples label_list
      max_seq_length encode_method = Raise err.
Proof.
  intros Hin Hfew.
  destruct (convert_examples_to_features_Transformers examples label_list
              max_seq_length encode_method) as [fs|err] eqn:H; [|eauto].
  rewrite convert_Transformers_run_from in H.
  destruct (run_from_examples_fit _ _ _ _ _ _ _ _ H Hin) as (s & Hs & _).
  destruct (encode_example_Ok _ _ _ _ _ Hs) as (p & ids & Hp & _).
  apply encode_words_Ok in Hp. lia.
Qed.

Lemma transformers_raises_on_missing_labels_witness :
  exists err,
    convert_examples_to_features_Transformers
      [mkInputExample "train-0" "Ala" None ["PERSON"];
       mkInputExample "train-1" "" None []]
      ["PERSON"; "O"] 8%nat (fun _ => [5]) = Raise err.
Proof.
  apply (transformers_raises_on_missing_labels _ _ _ _
           (mkInputExample "train-1" "" None [])).
  - right. left. reflexivity.
  - simpl. lia.
Defined.

(** X13.  With [max_seq_length] below 2 a record has no room for the two
    sentence markers, and the transformer strategy raises on every list
    that holds an example. *)
Theorem transformers_needs_room_for_markers
    (examples : list InputExample) (label_list : list string)
    (max_seq_length : nat) (encode_method : string -> list Z) :
  examples <> [] ->
  (max_seq_length < 2)%nat ->
  exists err,
    convert_examples_to_features_Transformers examples label_list
      max_seq_length encode_method = Raise err.
Proof.
  intros Hne Hsmall.
  destruct (convert_examples_to_features_Transformers examples label_list
              max_seq_length encode_method) as [fs|err] eqn:H; [|eauto].
  destruct examples as [|e examples]; [congruence|].
  pose proof (run_needs_room_for_markers _ _ _ _ _ e H (or_introl eq_refl)). lia.
Qed.

Lemma transformers_needs_room_for_markers_witness :
  exists err,
    convert_examples_to_features_Transformers
      [mkInputExample "train-0" "Ala" None ["PERSON"]]
      ["PERSON"; "O"] 1%nat (fun _ => [5]) = Raise err.
Proof.
  apply transformers_needs_room_for_markers; [discriminate | lia].
Defined.

(** X14.  [append_pending] never cuts a buffer: one whose token ids are
    more than [max_seq_length] fails its first assertion. *)
Theorem append_pending_rejects_long_buffer
    (label_list : list string) (p : pending) (max_seq_length : nat) :
  (max_seq_length < length (pending_token_ids p))%nat ->
  append_pending ignored_label p max_seq_length (build_label_map label_list) =
  Raise AssertionError.
Proof.
  intros Hlong. unfold append_pending.
  rewrite (pad_all_closed _ _ _ 0) by apply py_getitem_ignore.
  rewrite bind_Ok_eq.
  rewrite (pad_labels_closed _ _ _ 0) by apply py_getitem_ignore.
  rewrite bind_Ok_eq. cbn [pending_token_ids].
  rewrite length_app, repeat_length.
  destruct (Nat.eqb_spec
              (length (pending_token_ids p) +
               (max_seq_length - length (pending_token_ids p)))
              max_seq_length); [lia | reflexivity].
Qed.

Lemma append_pending_rejects_long_buffer_witness :
  append_pending ignored_label
    {| pending_token_ids := [0; 5; 2]; pending_input_mask := [1; 1; 1];
       pending_label_ids := [0; 1; 0]; pending_valid := [0; 1; 0];
       pending_label_mask := [0; 1; 0] |}
    2 (build_label_map ["PERSON"]) = Raise AssertionError.
Proof.
  apply append_pending_rejects_long_buffer. simpl. lia.
Defined.

(** ** Transformer strategy: the number and the content of the records *)

Lemma length_pack_spec max_seq_length seqs :
  forall pend,
    (length (pack_spec max_seq_length pend seqs) <= S (length seqs))%nat.
Proof.
  induction seqs as [|s seqs IH]; intros pend; cbn [pack_spec].
  - simpl. lia.
  - destruct (max_seq_length <?
                length (pending_token_ids s) + length (pending_token_ids pend))%nat.
    + cbn [length]. specialize (IH s). lia.
    + cbn [length]. specialize (IH (pending_extend pend s)). lia.
Qed.

(** X15.  The transformer strategy never returns more records than it was
    given examples, except for the single padding record of the empty
    list. *)
Theorem transformers_at_most_one_record_per_example
    (examples : list InputExample) (label_list : list string)
    (max_seq_length : nat) (encode_method : string -> list Z)
    (fs : list InputFeatures) :
  convert_examples_to_features_Transformers examples label_list max_seq_length
    encode_method = Ok fs ->
  (length fs <= Nat.max 1 (length examples))%nat.
Proof.
  intros H. apply run_is_pack_spec in H. destruct H as (seqs & Hseqs & ->).
  pose proof (Forall2_length _ _ _ Hseqs) as Hlen.
  destruct Hseqs as [|e s examples seqs (_ & Hfit) Hrest].
  - simpl. lia.
  - cbn [pack_spec empty_pending pending_token_ids length] in *.
    destruct (Nat.ltb_spec max_seq_length (length (pending_token_ids s) + 0));
      [lia|].
    rewrite pending_extend_empty.
    pose proof (length_pack_spec max_seq_length seqs s). lia.
Qed.

Lemma transformers_at_most_one_record_per_example_witness :
  Nat.le
    (length
       [ {| input_ids := [0; 5; 5; 5; 2; 0; 5; 2];
            input_mask := [1; 1; 1; 1; 1; 1; 1; 1];
            label_id := [0; 1; 1; 2; 0; 0; 1; 0];
            valid_ids := [0; 1; 1; 1; 0; 0; 1; 0];
            label_mask := [0; 1; 1; 1; 0; 0; 1; 0] |};
         {| input_ids := [0; 5; 5; 2; 1; 1; 1; 1];
            input_mask := [1; 1; 1; 1; 0; 0; 0; 0];
            label_id := [0; 1; 2; 0; 0; 0; 0; 0];
            valid_ids := [0; 1; 1; 0; 0; 0; 0; 0];
            label_mask := [0; 1; 1; 0; 0; 0; 0; 0] |} ])
    (Nat.max 1
       (length
          [mkInputExample "train-0" "Jan Kowalski pracuje" None
             ["PERSON"; "PERSON"; "O"];
           mkInputExample "train-1" "Ala" None ["PERSON"];
           mkInputExample "train-2" "Ola ma" None ["PERSON"; "O"]])).
Proof.
  apply (transformers_at_most_one_record_per_example _ ["PERSON"; "O"] 8%nat
           (fun _ => [5]%Z)).
  vm_compute. reflexivity.
Defined.

Lemma pending_extend_nil p s :
  aligned p -> length (pending_token_ids p) = O -> pending_extend p s = s.
Proof.
  intros (Hm & Hl & Hv & Hk) H0. rewrite H0 in *.
  destruct p as [t m l v k]. simpl in *.
  apply length_zero_iff_nil in H0, Hm, Hl, Hv, Hk. subst.
  apply pending_extend_empty.
Qed.

(** A sequence that fills a record is emitted alone, whatever buffer was
    pending before it and whatever follows it. *)
Lemma pack_spec_full_sequence max_seq_length s seqs :
  Forall (fun r => aligned r /\ (1 <= length (pending_token_ids r))%nat) seqs ->
  In s seqs ->
  length (pending_token_ids s) = max_seq_length ->
  forall pend,
    aligned pend ->
    In (pad_record max_seq_length s) (pack_spec max_seq_length pend seqs).
Proof.
  intros Hseqs Hin Hfull.
  assert (Hstart : forall rest,
             Forall (fun r => aligned r /\ (1 <= length (pending_token_ids r))%nat)
                    rest ->
             In (pad_record max_seq_length s) (pack_spec max_seq_length s rest)).
  { intros rest Hrest. destruct Hrest as [|r rest (_ & Hr) _]; cbn [pack_spec].
    - now left.
    - destruct (Nat.ltb_spec max_seq_length
                  (length (pending_token_ids r) + length (pending_token_ids s)));
        [now left | lia]. }
  induction Hseqs as [|s0 seqs (Hal0 & Hlen0) Hseqs IH]; [destruct Hin|].
  intros pend Hpend. cbn [pack_spec]. destruct Hin as [-> | Hin].
  - destruct (Nat.ltb_spec max_seq_length
                (length (pending_token_ids s) + length (pending_token_ids pend))).
    + right. now apply Hstart.
    + rewrite pending_extend_nil by (assumption || lia). now apply Hstart.
  - destruct (max_seq_length <?
                length (pending_token_ids s0) + length (pending_token_ids pend))%nat.
    + right. now apply IH.
    + apply IH; [exact Hin|]. now apply pending_extend_aligned.
Qed.

(** X16.  An example whose sub-word encoding has at least
    [max_seq_length - 1] ids is never packed with another example: one of
    the returned records consists of the start marker 0, the first
    [max_seq_length - 2] ids of the example and the end marker 2, with input
    mask 1 at every position. *)
Theorem truncated_example_fills_a_record
    (examples : list InputExample) (label_list : list string)
    (max_seq_length : nat) (encode_method : string -> list Z)
    (fs : list InputFeatures) (example : InputExample) :
  convert_examples_to_features_Transformers examples label_list max_seq_length
    encode_method = Ok fs ->
  In example examples ->
  (max_seq_length - 1 <=
     length (words_token_ids encode_method (py_split " " (text_a example))))%nat ->
  exists f,
    In f fs /\
    input_ids f =
      0 :: firstn (max_seq_length - 2)
             (words_token_ids encode_method (py_split " " (text_a example)))
        ++ [2] /\
    input_mask f = repeat 1 max_seq_length.
Proof.
  intros H Hin Hlong.
  pose proof (run_needs_room_for_markers _ _ _ _ _ _ H Hin) as Hmax.
  apply run_is_pack_spec in H. destruct H as (seqs & Hseqs & ->).
  assert (Hs : exists s,
             In s seqs /\
             encode_example (build_label_map label_list) max_seq_length
               encode_method example = Ok s).
  { clear -Hseqs Hin.
    induction Hseqs as [|e s examples seqs (Hs & _) _ IH]; [destruct Hin|].
    destruct Hin as [-> | Hin].
    - exists s. split; [now left | exact Hs].
    - destruct (IH Hin) as (s' & Hs' & He). exists s'. split; [now right | exact He]. }
  destruct Hs as (s & Hs & He).
  assert (Hall : Forall (fun r => aligned r /\
                                  (1 <= length (pending_token_ids r))%nat) seqs).
  { clear -Hseqs. induction Hseqs as [|e r examples seqs (Hr & _) _ IH];
      constructor; [|exact IH].
    split; [eapply encode_example_aligned; eauto|].
    apply encode_example_Ok in Hr. destruct Hr as (p & ids & _ & _ & ->).
    simpl. lia. }
  destruct (encode_example_Ok _ _ _ _ _ He) as (p & ids & Hp & _ & Hsp).
  destruct (encode_words_Ok _ _ _ _ Hp) as (_ & Ht & _).
  assert (Htok : pending_token_ids s =
                 0 :: firstn (max_seq_length - 2)
                        (words_token_ids encode_method
                           (py_split " " (text_a example))) ++ [2]).
  { rewrite Hsp, trim_closed by exact Hmax. rewrite Ht.
    destruct (Nat.leb_spec (max_seq_length - 1)
                (length (words_token_ids encode_method
                           (py_split " " (text_a example))))); [|lia].
    simpl. now rewrite Ht. }
  assert (Hfull : length (pending_token_ids s) = max_seq_length).
  { rewrite Htok. simpl. rewrite length_app, length_take. simpl. lia. }
  exists (pad_record max_seq_length s). split; [|split].
  - apply pack_spec_full_sequence; try assumption. apply empty_pending_aligned.
  - unfold pad_record. simpl. rewrite Hfull, Nat.sub_diag. simpl.
    now rewrite app_nil_r.
  - assert (Hmask : pending_input_mask s =
                    repeat 1 (length (pending_token_ids s)))
      by (rewrite Hsp; reflexivity).
    unfold pad_record. simpl.
    rewrite Hmask, repeat_length, Hfull, Nat.sub_diag. simpl. apply app_nil_r.
Qed.

Lemma truncated_example_fills_a_record_witness :
  exists f,
    In f
      [ {| input_ids := [0; 5; 2; 1; 1]; input_mask := [1; 1; 1; 0; 0];
           label_id := [0; 1; 0; 0; 0]; valid_ids := [0; 1; 0; 0; 0];
           label_mask := [0; 1; 0; 0; 0] |};
        {| input_ids := [0; 5; 5; 5; 2]; input_mask := [1; 1; 1; 1; 1];
           label_id := [0; 1; 1; 2; 0]; valid_ids := [0; 1; 1; 1; 0];
           label_mask := [0; 1; 1; 1; 0] |};
        {| input_ids := [0; 5; 2; 1; 1]; input_mask := [1; 1; 1; 0; 0];
           label_id := [0; 1; 0; 0; 0]; valid_ids := [0; 1; 0; 0; 0];
           label_mask := [0; 1; 0; 0; 0] |} ] /\
    input_ids f =
      0 :: firstn (5 - 2)
             (words_token_ids (fun _ => [5])
                (py_split " " (text_a
                   (mkInputExample "train-1" "Jan Kowalski pracuje ciezko" None
                      ["PERSON"; "PERSON"; "O"; "O"])))) ++ [2] /\
    input_mask f = repeat 1 5.
Proof.
  apply (truncated_example_fills_a_record
           [mkInputExample "train-0" "Ala" None ["PERSON"];
            mkInputExample "train-1" "Jan Kowalski pracuje ciezko" None
              ["PERSON"; "PERSON"; "O"; "O"];
            mkInputExample "train-2" "Ola" None ["PERSON"]]
           ["PERSON"; "O"] 5%nat (fun _ => [5])).
  - vm_compute. reflexivity.
  - right. left. reflexivity.
  - vm_compute. lia.
Defined.

(** ** Corpus loader: which files are read *)

Lemma contains_char_count c s :
  contains_char c s = true <-> (1 <= count_char c s)%nat.
Proof.
  induction s as [|d s IH]; simpl.
  - split; [discriminate | lia].
  - destruct (Ascii.eqb d c); simpl; [split; [lia | reflexivity]|].
    exact IH.
Qed.

Lemma is_json_dot x :
  contains_char "." x = true -> is_json x = Ok (has_json_ext x).
Proof.
  intros H. apply contains_char_count in H.
  pose proof (length_py_split "." x) as Hlen.
  unfold is_json, has_json_ext, py_index.
  destruct (py_split "." x) as [|a [|ext rest]]; simpl in *; try lia.
  reflexivity.
Qed.

Lemma is_json_no_dot x :
  contains_char "." x = false -> is_json x = Raise IndexError.
Proof.
  intros H. unfold is_json. now rewrite (py_split_no_sep _ _ H).
Qed.

Lemma filter_json_closed listing :
  Forall (fun x => contains_char "." x = true) listing ->
  filter_json listing = Ok (List.filter has_json_ext listing).
Proof.
  induction 1 as [|x listing Hx _ IH]; cbn [filter_json List.filter].
  - reflexivity.
  - rewrite (is_json_dot _ Hx), bind_Ok_eq, IH, bind_Ok_eq. reflexivity.
Qed.

Lemma filter_json_no_dot listing x :
  In x listing ->
  contains_char "." x = false ->
  filter_json listing = Raise IndexError.
Proof.
  induction listing as [|y listing IH]; intros Hin Hx; [destruct Hin|].
  cbn [filter_json].
  destruct (contains_char "." y) eqn:Hy.
  - rewrite (is_json_dot _ Hy), bind_Ok_eq.
    destruct Hin as [-> | Hin]; [congruence|].
    now rewrite (IH Hin Hx).
  - now rewrite (is_json_no_dot _ Hy).
Qed.

(** X17.  When every name of the directory has a dot and every read
    succeeds, the loader returns the documents of the first 101 names whose
    second dot-separated component is [json], in the order of the listing;
    the other names are skipped and do not count. *)
Theorem load_from_folder_closed
    (docs : string -> list string * list string) (path : string)
    (listing : list string) :
  Forall (fun x => contains_char "." x = true) listing ->
  load_from_folder listing (fun p => Ok (docs p)) path =
  Ok (map (fun f => fst (docs (path ++ "/" ++ f)%string))
          (firstn 101 (List.filter has_json_ext listing)),
      map (fun f => snd (docs (path ++ "/" ++ f)%string))
          (firstn 101 (List.filter has_json_ext listing))).
Proof.
  intros Hdots. unfold load_from_folder.
  rewrite (filter_json_closed _ Hdots), bind_Ok_eq.
  rewrite load_loop_closed by (simpl; lia). reflexivity.
Qed.

Lemma load_from_folder_closed_witness :
  load_from_folder ["a.json"; "notes.txt"; "b.json.bak"; "c.tar.json"]
    (fun p => Ok ([p], ["O"])) "data" =
  Ok (map (fun f => fst ([("data" ++ "/" ++ f)%string], ["O"]))
          (firstn 101 (List.filter has_json_ext
                         ["a.json"; "notes.txt"; "b.json.bak"; "c.tar.json"])),
      map (fun f => snd ([("data" ++ "/" ++ f)%string], ["O"]))
          (firstn 101 (List.filter has_json_ext
                         ["a.json"; "notes.txt"; "b.json.bak"; "c.tar.json"]))).
Proof.
  apply (load_from_folder_closed (fun p => ([p], ["O"])) "data").
  repeat constructor.
Defined.

(** X18.  One name without a dot in the directory (a subdirectory, a
    README) makes the loader raise [IndexError] before any file is read,
    whatever the other names are. *)
Theorem load_from_folder_name_without_dot
    (listing : list string)
    (read_json : string -> result (list string * list string))
    (path x : string) :
  In x listing ->
  contains_char "." x = false ->
  load_from_folder listing read_json path = Raise IndexError.
Proof.
  intros Hin Hx. unfold load_from_folder.
  now rewrite (filter_json_no_dot _ _ Hin Hx).
Qed.

Lemma load_from_folder_name_without_dot_witness :
  load_from_folder ["a.json"; "README"; "b.json"]
    (fun p => Ok ([p], ["O"])) "data" = Raise IndexError.
Proof.
  apply (load_from_folder_name_without_dot _ _ _ "README").
  - right. left. reflexivity.
  - reflexivity.
Defined.

Lemma load_loop_invariant read_json path files :
  forall x_train y_train x y,
    length x_train = length y_train ->
    (length x_train <= 100)%nat ->
    load_loop read_json path files x_train y_train = Ok (x, y) ->
    length x = length y /\ (length x <= 101)%nat.
Proof.
  induction files as [|f files IH]; intros x_train y_train x y Heq Hle H;
    cbn [load_loop] in H.
  - injection H as <- <-. lia.
  - inv_bind H. destruct a as [tokens labels].
    rewrite length_app in H. cbn [length] in H.
    destruct (Nat.ltb_spec 100 (length x_train + 1)).
    + injection H as <- <-. rewrite !length_app. simpl. lia.
    + eapply IH; [| |exact H]; rewrite !length_app; simpl; lia.
Qed.

(** X19.  Whatever the directory and the files hold, the loader returns
    as many label sequences as token sequences, and never more than 101 of
    them. *)
Theorem load_from_folder_parallel_and_bounded
    (listing : list string)
    (read_json : string -> result (list string * list string))
    (path : string) (x_train y_train : list (list string)) :
  load_from_folder listing read_json path = Ok (x_train, y_train) ->
  length x_train = length y_train /\ (length x_train <= 101)%nat.
Proof.
  unfold load_from_folder. intros H. inv_bind H.
  eapply load_loop_invariant; [| |exact H]; simpl; lia.
Qed.

Lemma load_from_folder_parallel_and_bounded_witness :
  length [["data/a.json"]; ["data/b.json"]] = length [["O"]; ["O"]] /\
  (length [["data/a.json"]; ["data/b.json"]] <= 101)%nat.
Proof.
  apply (load_from_folder_parallel_and_bounded ["a.json"; "b.json"]
           (fun p => Ok ([p], ["O"])) "data").
  reflexivity.
Defined.

(** ** Reading one annotation file *)

Lemma text_tuples_of_closed first_chunk :
  text_tuples_of first_chunk =
  map (fun t => (orth t, token_annotations t)) (concat first_chunk).
Proof.
  unfold text_tuples_of.
  assert (Hinner : forall chunk acc,
             fold_left (fun acc sub_chunk =>
                          acc ++ [(orth sub_chunk, token_annotations sub_chunk)])
                       chunk acc =
             acc ++ map (fun t => (orth t, token_annotations t)) chunk).
  { induction chunk as [|t chunk IH]; intros acc; simpl.
    - now rewrite app_nil_r.
    - rewrite IH. now rewrite <- app_assoc. }
  assert (Houter : forall cks acc,
             fold_left (fun acc chunk =>
                          fold_left (fun acc sub_chunk =>
                                       acc ++ [(orth sub_chunk,
                                                token_annotations sub_chunk)])
                                    chunk acc)
                       cks acc =
             acc ++ map (fun t => (orth t, token_annotations t)) (concat cks)).
  { induction cks as [|c cs IH]; intros acc; simpl.
    - now rewrite app_nil_r.
    - rewrite IH, Hinner, map_app. now rewrite <- app_assoc. }
  apply (Houter first_chunk []).
Qed.

Lemma ann_dict_fold_Some anns :
  forall (d : gmap Z Annotation) id a,
    fold_left (fun (d : gmap Z Annotation) a => <[ann_id a := a]> d) anns d !! id
      = Some a ->
    d !! id = Some a \/ (In a anns /\ ann_id a = id).
Proof.
  induction anns as [|b anns IH]; intros d id a H; simpl in H.
  - now left.
  - apply IH in H. destruct H as [H | (Hin & Hid)].
    + destruct (decide (ann_id b = id)) as [Heq | Hne].
      * rewrite <- Heq, lookup_insert_eq in H. injection H as <-.
        right. split; [now left | exact Heq].
      * rewrite lookup_insert_ne in H by exact Hne. now left.
    + right. split; [now right | exact Hid].
Qed.

Lemma ann_dict_fold_is_Some anns :
  forall (d : gmap Z Annotation) id,
    is_Some (fold_left (fun (d : gmap Z Annotation) a => <[ann_id a := a]> d)
                       anns d !! id) <->
    In id (map ann_id anns) \/ is_Some (d !! id).
Proof.
  induction anns as [|b anns IH]; intros d id; simpl.
  - tauto.
  - rewrite IH, lookup_insert_is_Some.
    destruct (decide (ann_id b = id)); tauto.
Qed.

Lemma ann_dict_of_Some anns id a :
  ann_dict_of anns !! id = Some a -> In a anns /\ ann_id a = id.
Proof.
  intros H. apply ann_dict_fold_Some in H. destruct H as [H | H]; [|exact H].
  rewrite lookup_empty in H. discriminate.
Qed.

Lemma ann_dict_of_None anns id :
  ann_dict_of anns !! id = None <-> ~ In id (map ann_id anns).
Proof.
  rewrite eq_None_not_Some. unfold ann_dict_of.
  rewrite ann_dict_fold_is_Some, lookup_empty. split.
  - intros H Hin. apply H. now left.
  - intros H [Hin | (x & Hx)]; [now apply H | discriminate].
Qed.

(** The loop over the tokens: what it returns, and how it fails. *)
Lemma label_loop_Ok get_type anns tokens_json :
  forall labels tokens labels' tokens',
    foldM (label_step get_type (ann_dict_of anns))
          (map (fun t => (orth t, token_annotations t)) tokens_json)
          (labels, tokens) = Ok (labels', tokens') ->
    tokens' = tokens ++ map orth tokens_json /\
    exists new,
      labels' = labels ++ new /\
      Forall2 (token_label get_type anns) tokens_json new.
Proof.
  induction tokens_json as [|t ts IH]; intros labels tokens labels' tokens' H;
    cbn [map foldM] in H.
  - injection H as <- <-. rewrite app_nil_r. split; [reflexivity|].
    exists []. split; [now rewrite app_nil_r | constructor].
  - inv_bind H. unfold label_step in Ha. inv_bind Ha. injection Ha as <-.
    apply IH in H. destruct H as (-> & new & -> & Hnew).
    split; [simpl; now rewrite <- app_assoc|].
    exists (a0 :: new). split; [now rewrite <- app_assoc|].
    constructor; [|exact Hnew].
    unfold token_label. destruct (token_annotations t) as [|first ids].
    + simpl in Ha0. now injection Ha0 as <-.
    + simpl in Ha0.
      destruct (ann_dict_of anns !! first) as [a|] eqn:Hd; [|discriminate].
      injection Ha0 as <-. apply ann_dict_of_Some in Hd.
      exists a. tauto.
Qed.

Lemma label_loop_Raise get_type anns tokens_json :
  forall labels tokens e,
    foldM (label_step get_type (ann_dict_of anns))
          (map (fun t => (orth t, token_annotations t)) tokens_json)
          (labels, tokens) = Raise e ->
    exists t first ids,
      In t tokens_json /\ token_annotations t = first :: ids /\
      ~ In first (map ann_id anns) /\ e = KeyError (pretty first).
Proof.
  induction tokens_json as [|t ts IH]; intros labels tokens e H;
    cbn [map foldM] in H; [discriminate|].
  destruct (label_step get_type (ann_dict_of anns) (labels, tokens)
              (orth t, token_annotations t)) as [[labels1 tokens1]|err] eqn:Hstep.
  - rewrite bind_Ok_eq in H. apply IH in H.
    destruct H as (t' & first & ids & Hin & Hann & Hnot & ->).
    exists t', first, ids. split; [now right | tauto].
  - rewrite bind_Raise_eq in H. injection H as <-.
    unfold label_step in Hstep.
    destruct (token_annotations t) as [|first ids] eqn:Hann; simpl in Hstep;
      [discriminate|].
    destruct (ann_dict_of anns !! first) as [a|] eqn:Hd; simpl in Hstep;
      [discriminate|].
    injection Hstep as <-. apply ann_dict_of_None in Hd.
    exists t, first, ids. split; [now left | tauto].
Qed.

(** X20.  What [read_json] returns: the tokens are the [orth] fields of
    the tokens of the first top-level chunk, in order (other top-level
    chunks are not read), and each token's label is ["O"] when the token has
    no annotation, and otherwise the type of an annotation of the document
    whose id is the token's first annotation id. *)
Theorem read_json_returns
    (get_type : Annotation -> string) (data : document)
    (tokens labels : list string) :
  read_json get_type data = Ok (tokens, labels) ->
  exists first_chunk rest,
    chunks data = first_chunk :: rest /\
    tokens = map orth (concat first_chunk) /\
    Forall2 (token_label get_type (annotations data)) (concat first_chunk) labels.
Proof.
  unfold read_json. intros H. inv_bind H.
  unfold py_index in Ha. destruct (chunks data) as [|first_chunk rest];
    simpl in Ha; [discriminate|]. injection Ha as <-.
  inv_bind H. destruct a as [labels0 tokens0]. inv_assert H.
  injection H as <- <-.
  rewrite text_tuples_of_closed in Ha.
  apply label_loop_Ok in Ha. destruct Ha as (-> & new & -> & Hnew).
  exists first_chunk, rest. simpl. tauto.
Qed.

Lemma read_json_returns_witness :
  let data :=
    {| chunks := [ [ [mkToken "Jan" [7; 9]; mkToken "Kowalski" [7]];
                     [mkToken "pracuje" []] ];
                   [ [mkToken "Ala" []] ] ];
       annotations := [mkAnnotation 7 1 "PERSON" "Jan Kowalski";
                       mkAnnotation 9 2 "NAME" "Jan"] |} in
  exists first_chunk rest,
    chunks data = first_chunk :: rest /\
    ["Jan"; "Kowalski"; "pracuje"] = map orth (concat first_chunk) /\
    Forall2 (token_label ann_type (annotations data)) (concat first_chunk)
            ["PERSON"; "PERSON"; "O"].
Proof.
  intros data.
  apply (read_json_returns ann_type data). vm_compute. reflexivity.
Defined.

(** X21.  [read_json] fails in two ways only: with [IndexError] when the
    document has no top-level chunk, and with [KeyError] when the first
    annotation id of a token is not the id of any annotation.  Its
    assertion that tokens and labels have the same length never fails. *)
Theorem read_json_raises
    (get_type : Annotation -> string) (data : document) (e : exn) :
  read_json get_type data = Raise e ->
  (chunks data = [] /\ e = IndexError) \/
  (exists first_chunk rest t first ids,
     chunks data = first_chunk :: rest /\
     In t (concat first_chunk) /\
     token_annotations t = first :: ids /\
     ~ In first (map ann_id (annotations data)) /\
     e = KeyError (pretty first)).
Proof.
  unfold read_json. intros H.
  destruct (chunks data) as [|first_chunk rest] eqn:Hc.
  - left. simpl in H. injection H as <-. tauto.
  - right. cbn [py_index nth_error] in H. rewrite bind_Ok_eq in H.
    rewrite text_tuples_of_closed in H.
    destruct (foldM (label_step get_type (ann_dict_of (annotations data)))
                (map (fun t => (orth t, token_annotations t))
                     (concat first_chunk)) ([], []))
      as [[labels tokens]|err] eqn:Hloop.
    + rewrite bind_Ok_eq in H. cbv beta iota in H.
      apply label_loop_Ok in Hloop. destruct Hloop as (-> & new & -> & Hnew).
      apply Forall2_length in Hnew.
      cbn [app] in H. rewrite length_map, Hnew, Nat.eqb_refl in H.
      discriminate.
    + rewrite bind_Raise_eq in H. injection H as <-.
      apply label_loop_Raise in Hloop.
      destruct Hloop as (t & first & ids & Hin & Hann & Hnot & ->).
      exists first_chunk, rest, t, first, ids. tauto.
Qed.

Lemma read_json_raises_witness :
  let data :=
    {| chunks := [ [ [mkToken "Jan" [7]; mkToken "Kowalski" [8]] ] ];
       annotations := [mkAnnotation 7 1 "PERSON" "Jan Kowalski"] |} in
  (chunks data = [] /\ KeyError "8" = IndexError) \/
  (exists first_chunk rest t first ids,
     chunks data = first_chunk :: rest /\
     In t (concat first_chunk) /\
     token_annotations t = first :: ids /\
     ~ In first (map ann_id (annotations data)) /\
     KeyError "8" = KeyError (pretty first)).
Proof.
  intros data.
  apply (read_json_raises ann_type data). vm_compute. reflexivity.
Defined.

(** X22.  [read_json] returns whenever the document has a top-level chunk
    and the first annotation id of every token of that chunk is the id of
    an annotation of the document. *)
Theorem read_json_total
    (get_type : Annotation -> string) (data : document)
    (first_chunk : list (list token_json)) (rest : list (list (list token_json))) :
  chunks data = first_chunk :: rest ->
  Forall (fun t => match token_annotations t with
                   | [] => True
                   | first :: _ => In first (map ann_id (annotations data))
                   end)
         (concat first_chunk) ->
  exists labels,
    read_json get_type data = Ok (map orth (concat first_chunk), labels) /\
    length labels = length (concat first_chunk).
Proof.
  intros Hc Hids. unfold read_json. rewrite Hc.
  cbn [py_index nth_error]. rewrite bind_Ok_eq, text_tuples_of_closed.
  destruct (foldM (label_step get_type (ann_dict_of (annotations data)))
              (map (fun t => (orth t, token_annotations t))
                   (concat first_chunk)) ([], []))
    as [[labels tokens]|err] eqn:Hloop.
  - apply label_loop_Ok in Hloop. destruct Hloop as (-> & new & -> & Hnew).
    apply Forall2_length in Hnew.
    rewrite bind_Ok_eq. cbv beta iota. cbn [app].
    rewrite length_map, Hnew, Nat.eqb_refl. cbn [py_assert].
    rewrite bind_Ok_eq. exists new. split; [reflexivity | now symmetry].
  - apply label_loop_Raise in Hloop.
    destruct Hloop as (t & first & ids & Hin & Hann & Hnot & _).
    rewrite Forall_forall in Hids.
    specialize (Hids t (proj2 (list_elem_of_In _ _) Hin)).
    rewrite Hann in Hids. contradiction.
Qed.

Lemma read_json_total_witness :
  let data :=
    {| chunks := [ [ [mkToken "Jan" [7; 9]; mkToken "Kowalski" [7]];
                     [mkToken "pracuje" []] ] ];
       annotations := [mkAnnotation 7 1 "PERSON" "Jan Kowalski"] |} in
  exists labels,
    read_json ann_type data =
      Ok (map orth (concat [ [mkToken "Jan" [7; 9]; mkToken "Kowalski" [7]];
                             [mkToken "pracuje" []] ]), labels) /\
    length labels =
      length (concat [ [mkToken "Jan" [7; 9]; mkToken "Kowalski" [7]];
                       [mkToken "pracuje" []] ]).
Proof.
  intros data.
  apply (read_json_total ann_type data _ []); [reflexivity|].
  repeat constructor.
Defined.

(** ** Building the examples *)

Lemma example_step_Ok set_type (x_train y_train : list (list string))
    examples label_list i tokens labels :
  nth_error x_train i = Some tokens ->
  nth_error y_train i = Some labels ->
  example_step set_type x_train y_train (examples, label_list) i =
  Ok (examples ++ [example_of set_type (i, (tokens, labels))],
      label_list ++ labels).
Proof.
  intros Hx Hy. unfold example_step.
  now rewrite (py_index_Ok _ _ _ Hx), (py_index_Ok _ _ _ Hy), !bind_Ok_eq.
Qed.

Lemma example_loop_closed set_type (x_train y_train : list (list string)) :
  length x_train = length y_train ->
  forall n start examples label_list,
    (start + n = length x_train)%nat ->
    foldM (example_step set_type x_train y_train) (seq start n)
          (examples, label_list) =
    Ok (examples ++
          map (example_of set_type)
              (enumerate start (combine (skipn start x_train)
                                        (skipn start y_train))),
        label_list ++ concat (skipn start y_train)).
Proof.
  intros Heq. induction n as [|n IH]; intros start examples label_list Hn.
  - rewrite !drop_ge by lia. simpl. now rewrite !app_nil_r.
  - cbn [seq foldM].
    destruct (nth_error x_train start) as [tokens|] eqn:Hx.
    2:{ apply nth_error_None in Hx. lia. }
    destruct (nth_error y_train start) as [labels|] eqn:Hy.
    2:{ apply nth_error_None in Hy. lia. }
    rewrite (example_step_Ok _ _ _ _ _ _ _ _ Hx Hy), bind_Ok_eq.
    rewrite IH by lia.
    rewrite (drop_nth_error _ _ _ Hx), (drop_nth_error _ _ _ Hy).
    cbn [combine enumerate map concat]. now rewrite <- !app_assoc.
Qed.

Lemma load_from_folder_lengths listing read_json path x_train y_train :
  load_from_folder listing read_json path = Ok (x_train, y_train) ->
  length x_train = length y_train.
Proof.
  unfold load_from_folder. intros H. inv_bind H.
  eapply load_loop_invariant; [| |exact H]; simpl; lia.
Qed.

(** X23.  [get_examples] raises only when the loader does.  Otherwise it
    returns one example per loaded document, in order: the guid is the set
    type, a dash and the index of the document, the text is the tokens
    joined by single spaces, the labels are the labels of the document; and
    the label vocabulary is made from the labels of all documents. *)
Theorem get_examples_closed
    (list_of_set : list string -> list string) (listing : list string)
    (read_json : string -> result (list string * list string))
    (path set_type : string) :
  get_examples list_of_set listing read_json path set_type =
  (xy ← load_from_folder listing read_json path;
   Ok (map (example_of set_type) (enumerate 0 (combine (fst xy) (snd xy))),
       list_of_set (concat (snd xy)))).
Proof.
  unfold get_examples.
  destruct (load_from_folder listing read_json path) as [[x y]|err] eqn:Hload;
    [|reflexivity].
  rewrite !bind_Ok_eq. cbv beta iota. cbn [fst snd].
  unfold range.
  rewrite (example_loop_closed _ _ _ (load_from_folder_lengths _ _ _ _ _ Hload))
    by lia.
  rewrite bind_Ok_eq, !drop_0. reflexivity.
Qed.

(** The examples of a call that returns, with the documents they come
    from. *)
Lemma get_examples_Ok list_of_set listing read_json path set_type
    examples label_list :
  get_examples list_of_set listing read_json path set_type =
    Ok (examples, label_list) ->
  exists x_train y_train,
    load_from_folder listing read_json path = Ok (x_train, y_train) /\
    length x_train = length y_train /\
    examples = map (example_of set_type) (enumerate 0 (combine x_train y_train)) /\
    label_list = list_of_set (concat y_train).
Proof.
  unfold get_examples. intros H. inv_bind H. destruct a as [x y].
  pose proof (load_from_folder_lengths _ _ _ _ _ Ha) as Heq.
  unfold range in H. rewrite (example_loop_closed _ _ _ Heq) in H by lia.
  rewrite bind_Ok_eq, !drop_0 in H. injection H as <- <-.
  exists x, y. tauto.
Qed.

(** The examples built from documents, one by one. *)
Lemma examples_of_documents (P : InputExample -> Prop) set_type
    (docs : list (list string * list string)) :
  (forall i tokens labels,
     In (tokens, labels) docs -> P (example_of set_type (i, (tokens, labels)))) ->
  forall start, Forall P (map (example_of set_type) (enumerate start docs)).
Proof.
  intros HP. induction docs as [|[tokens labels] docs IH]; intros start;
    cbn [enumerate map]; constructor.
  - apply HP. now left.
  - apply IH. intros i t l Hin. apply HP. now right.
Qed.

(** X24.  The label list that [get_examples] returns suits the examples it
    returns: the recurrent strategy never raises on the two together,
    whatever [max_seq_length] and the encoder.  (Of [list(set(...))] only
    this is used: it keeps every element.) *)
Theorem lstm_features_of_get_examples
    (list_of_set : list string -> list string) (listing : list string)
    (read_json : string -> result (list string * list string))
    (path set_type : string)
    (examples : list InputExample) (label_list : list string)
    (max_seq_length : nat) (encode_method : list string -> list Z) :
  (forall l v, In v l -> In v (list_of_set l)) ->
  get_examples list_of_set listing read_json path set_type =
    Ok (examples, label_list) ->
  exists fs,
    convert_examples_to_features_LSTM examples label_list max_seq_length
      encode_method = Ok fs.
Proof.
  intros Hset H. apply get_examples_Ok in H.
  destruct H as (x & y & _ & Heq & -> & ->).
  apply lstm_returns_of_known. apply examples_of_documents.
  intros i tokens labels Hin. unfold example_of. cbn [label fst snd].
  apply Forall_take. rewrite Forall_forall. intros l Hl.
  right. apply Hset. apply in_concat. exists labels.
  split; [eapply in_combine_r; eauto | now apply list_elem_of_In].
Qed.

Lemma lstm_features_of_get_examples_witness :
  exists fs,
    convert_examples_to_features_LSTM
      [ {| guid := "train-0"; text_a := "Jan Kowalski"; text_b := None;
           label := ["PERSON"; "PERSON"] |};
        {| guid := "train-1"; text_a := "pracuje"; text_b := None;
           label := ["O"] |} ]
      ["PERSON"; "O"] 2 (fun ws => map (fun _ => 7) ws) = Ok fs.
Proof.
  apply (lstm_features_of_get_examples remove_dups ["a.json"; "b.json"]
           (fun p => if String.eqb p "data/a.json"
                     then Ok (["Jan"; "Kowalski"], ["PERSON"; "PERSON"])
                     else Ok (["pracuje"], ["O"]))
           "data" "train").
  - intros l v Hv. apply list_elem_of_In, elem_of_remove_dups.
    now apply list_elem_of_In.
  - vm_compute. reflexivity.
Defined.

(** X25.  When every loaded document has at least one token, no token
    contains a space and there are as many labels as tokens, the transformer
    strategy returns its records on the examples and the label list of
    [get_examples], as soon as [max_seq_length] is at least 2. *)
Theorem transformer_features_of_get_examples
    (list_of_set : list string -> list string) (listing : list string)
    (read_json : string -> result (list string * list string))
    (path set_type : string)
    (x_train y_train : list (list string))
    (examples : list InputExample) (label_list : list string)
    (max_seq_length : nat) (encode_method : string -> list Z) :
  (forall l v, In v l -> In v (list_of_set l)) ->
  (2 <= max_seq_length)%nat ->
  load_from_folder listing read_json path = Ok (x_train, y_train) ->
  Forall (fun d => fst d <> [] /\
                   Forall (fun t => contains_char " " t = false) (fst d) /\
                   length (fst d) = length (snd d))
         (combine x_train y_train) ->
  get_examples list_of_set listing read_json path set_type =
    Ok (examples, label_list) ->
  exists fs,
    convert_examples_to_features_Transformers examples label_list
      max_seq_length encode_method = Ok fs.
Proof.
  intros Hset Hmax Hload Hdocs H. apply get_examples_Ok in H.
  destruct H as (x & y & Hload' & _ & -> & ->).
  rewrite Hload in Hload'. injection Hload' as <- <-.
  apply run_total. intros e He.
  assert (Hall : Forall
            (fun e =>
               exists s,
                 encode_example
                   (build_label_map (list_of_set (concat y_train)))
                   max_seq_length encode_method e = Ok s /\
                 (length (pending_token_ids s) <= max_seq_length)%nat)
            (map (example_of set_type) (enumerate 0 (combine x_train y_train)))).
  { apply examples_of_documents. intros i tokens labels Hin.
    rewrite Forall_forall in Hdocs.
    destruct (Hdocs _ (proj2 (list_elem_of_In _ _) Hin)) as (Hne & Hsp & Hlen).
    cbn [fst snd] in *.
    assert (Hwords : words_of (example_of set_type (i, (tokens, labels))) = tokens).
    { unfold words_of, example_of. cbn [text_a fst snd].
      destruct tokens as [|t tokens]; [congruence|].
      now apply py_split_join_cons. }
    apply encode_example_total; [exact Hmax | |].
    - rewrite Hwords. cbn [example_of label fst snd]. lia.
    - unfold word_labels_of. rewrite Hwords. cbn [example_of label fst snd].
      apply Forall_take. rewrite Forall_forall. intros l Hl.
      right. apply Hset. apply in_concat. exists labels.
      split; [eapply in_combine_r; eauto | now apply list_elem_of_In]. }
  rewrite Forall_forall in Hall. apply Hall. now apply list_elem_of_In.
Qed.

Lemma transformer_features_of_get_examples_witness :
  exists fs,
    convert_examples_to_features_Transformers
      [ {| guid := "train-0"; text_a := "Jan Kowalski"; text_b := None;
           label := ["PERSON"; "PERSON"] |};
        {| guid := "train-1"; text_a := "pracuje"; text_b := None;
           label := ["O"] |} ]
      ["PERSON"; "O"] 4 (fun _ => [5; 6]) = Ok fs.
Proof.
  apply (transformer_features_of_get_examples remove_dups ["a.json"; "b.json"]
           (fun p => if String.eqb p "data/a.json"
                     then Ok (["Jan"; "Kowalski"], ["PERSON"; "PERSON"])
                     else Ok (["pracuje"], ["O"]))
           "data" "train"
           [["Jan"; "Kowalski"]; ["pracuje"]] [["PERSON"; "PERSON"]; ["O"]]).
  - intros l v Hv. apply list_elem_of_In, elem_of_remove_dups.
    now apply list_elem_of_In.
  - lia.
  - vm_compute. reflexivity.
  - repeat constructor; discriminate.
  - vm_compute. reflexivity.
Defined.

(** ** The training driver: when it runs and what it leaves *)

Lemma io_bind_Ok {A B : Type} (m : io A) (k : A -> io B) (a : A) :
  outcome m = Ok a ->
  (x ← m; k x) =
  {| trace := trace m ++ trace (k a); outcome := outcome (k a) |}.
Proof. intros H. unfold mbind, io_mbind, io_bind. now rewrite H. Qed.

Lemma epoch_loop_outcome epoch_save_model evaluate_model epoch_nos :
  forall best_val_f1,
    outcome (epoch_loop epoch_save_model evaluate_model epoch_nos best_val_f1) =
    Ok (fold_left best_of (map evaluate_model epoch_nos) best_val_f1).
Proof.
  induction epoch_nos as [|e rest IH]; intros best_val_f1; cbn [epoch_loop].
  - reflexivity.
  - rewrite (io_bind_Ok _ _ (best_of best_val_f1 (evaluate_model e)))
      by (now rewrite epoch_body_closed).
    cbn [outcome map fold_left]. apply IH.
Qed.

(** [train] on a fresh output directory with a valid accumulation count:
    the set-up, then the arithmetic on the numbers of steps, which ends the
    call when it raises, then the rest of the preparation and the epochs. *)
Lemma train_fresh output_dir out train_batch_size gradient_accumulation_steps
    epochs train_examples warmup_proportion epoch_save_model evaluate_model :
  out = Missing \/ out = Directory [] ->
  1 <= gradient_accumulation_steps ->
  train output_dir out train_batch_size gradient_accumulation_steps epochs
    train_examples warmup_proportion epoch_save_model evaluate_model =
  match num_train_optimization_steps (length train_examples)
          (Z.div train_batch_size gradient_accumulation_steps)
          gradient_accumulation_steps epochs with
  | Raise e =>
      {| trace :=
           (if path_exists out then [] else [MakeDirs OutputDir]) ++
           [ConfigureLogging; SeedRandom; GetExamples "train"];
         outcome := Raise e |}
  | Ok t_total =>
      match warmup_steps warmup_proportion t_total with
      | Raise e =>
          {| trace :=
               (if path_exists out then [] else [MakeDirs OutputDir]) ++
               [ConfigureLogging; SeedRandom; GetExamples "train"; BuildModel];
             outcome := Raise e |}
      | Ok warmup =>
          {| trace :=
               (if path_exists out then [] else [MakeDirs OutputDir]) ++
               [ConfigureLogging; SeedRandom; GetExamples "train"; BuildModel;
                BuildOptimizer; BuildScheduler warmup t_total;
                ConvertFeatures "train"; GetExamples "valid";
                ConvertFeatures "valid"] ++
               trace (run_epochs epoch_save_model evaluate_model epochs);
             outcome := Ok tt |}
      end
  end.
Proof.
  intros Hout Hgas. unfold train.
  destruct (Z.ltb_spec gradient_accumulation_steps 1) as [|_]; [lia|].
  pose proof (epoch_loop_outcome epoch_save_model evaluate_model (seq 1 epochs)
                0%float) as Hrun.
  fold (run_epochs epoch_save_model evaluate_model epochs) in Hrun.
  cbv zeta.
  destruct (num_train_optimization_steps (length train_examples)
              (Z.div train_batch_size gradient_accumulation_steps)
              gradient_accumulation_steps epochs) as [t_total | e].
  - destruct (warmup_steps warmup_proportion t_total) as [warmup | e] eqn:Hw;
      destruct Hout as [-> | ->]; cbn [path_exists listdir negb lift];
      unfold mbind, io_mbind, io_bind;
      cbn [outcome trace emit lift mret io_mret bind result_bind app];
      rewrite Hw; cbn [outcome trace emit lift mret io_mret app];
      try (rewrite Hrun; cbn [outcome trace app]; rewrite app_nil_r);
      reflexivity.
  - destruct Hout as [-> | ->]; reflexivity.
Qed.

(** The quotient of the batch size by the accumulation count is 0: the
    first division of the number of steps raises. *)
Lemma num_train_optimization_steps_zero_batch n_examples
    gradient_accumulation_steps epochs :
  num_train_optimization_steps n_examples 0 gradient_accumulation_steps epochs =
  Raise ZeroDivisionError.
Proof. reflexivity. Qed.

(** X26.  [train] runs to its end exactly when the output directory does
    not exist or is empty, [gradient_accumulation_steps] is at least 1 and
    the two numbers of steps can be computed.  The first of them cannot when
    [train_batch_size // gradient_accumulation_steps] is 0, as it is for a
    batch size from 0 to [gradient_accumulation_steps - 1]: the call then
    ends with a [ZeroDivisionError] after the training examples have been
    loaded and before the model is built.  With a batch size of 32, one
    accumulation step, 101 examples and 3 epochs the scheduler is built for
    9 steps, none of them for warm-up, and the call returns. *)
Theorem train_completes_iff :
  (forall (output_dir : string) (out : node)
          (train_batch_size gradient_accumulation_steps : Z) (epochs : nat)
          (train_examples : list InputExample) (warmup_proportion : float)
          (epoch_save_model : bool) (evaluate_model : nat -> float),
     outcome (train output_dir out train_batch_size gradient_accumulation_steps
                epochs train_examples warmup_proportion epoch_save_model
                evaluate_model) = Ok tt <->
     (out = Missing \/ out = Directory []) /\
     1 <= gradient_accumulation_steps /\
     exists t_total,
       num_train_optimization_steps (length train_examples)
         (Z.div train_batch_size gradient_accumulation_steps)
         gradient_accumulation_steps epochs = Ok t_total /\
       exists warmup, warmup_steps warmup_proportion t_total = Ok warmup) /\
  (forall (output_dir : string) (out : node)
          (train_batch_size gradient_accumulation_steps : Z) (epochs : nat)
          (train_examples : list InputExample) (warmup_proportion : float)
          (epoch_save_model : bool) (evaluate_model : nat -> float),
     out = Missing \/ out = Directory [] ->
     0 <= train_batch_size < gradient_accumulation_steps ->
     train output_dir out train_batch_size gradient_accumulation_steps epochs
       train_examples warmup_proportion epoch_save_model evaluate_model =
     {| trace :=
          (if path_exists out then [] else [MakeDirs OutputDir]) ++
          [ConfigureLogging; SeedRandom; GetExamples "train"];
        outcome := Raise ZeroDivisionError |}) /\
  train "out" Missing 32 64 3
    (repeat (mkInputExample "train-0" "Ala" None ["PERSON"]) 101) 0.1%float
    false (fun _ => 0.5%float) =
  {| trace := [MakeDirs OutputDir; ConfigureLogging; SeedRandom;
               GetExamples "train"];
     outcome := Raise ZeroDivisionError |} /\
  train "out" Missing 32 1 3
    (repeat (mkInputExample "train-0" "Ala" None ["PERSON"]) 101) 0.1%float
    false (fun _ => 0.5%float) =
  {| trace := [MakeDirs OutputDir; ConfigureLogging; SeedRandom;
               GetExamples "train"; BuildModel; BuildOptimizer;
               BuildScheduler 0 9; ConvertFeatures "train";
               GetExamples "valid"; ConvertFeatures "valid";
               EpochStart 1; TrainingPass 1; EvaluateModel 1;
               SaveModel OutputDir; SaveParams OutputDir;
               EpochStart 2; TrainingPass 2; EvaluateModel 2;
               EpochStart 3; TrainingPass 3; EvaluateModel 3];
     outcome := Ok tt |}.
Proof.
  split; [|split; [|split]].
  - intros output_dir out train_batch_size gradient_accumulation_steps epochs
      train_examples warmup_proportion epoch_save_model evaluate_model.
    split.
    + intros H.
      assert (Hout : out = Missing \/ out = Directory []).
      { destruct out as [| |[|entry entries]]; try tauto.
        - unfold train in H. cbn [path_exists listdir lift] in H.
          unfold mbind at 1, io_mbind, io_bind in H.
          cbn [outcome bind result_bind mbind] in H. discriminate.
        - rewrite train_nonempty_output_dir in H. discriminate. }
      split; [exact Hout|].
      destruct (Z.ltb_spec gradient_accumulation_steps 1) as [Hlow | Hok].
      * destruct (train_invalid_accumulation output_dir out train_batch_size
                    gradient_accumulation_steps epochs train_examples
                    warmup_proportion epoch_save_model evaluate_model Hout Hlow)
          as (Hr & _).
        rewrite Hr in H. discriminate.
      * split; [exact Hok|].
        rewrite train_fresh in H by assumption.
        destruct (num_train_optimization_steps (length train_examples)
                    (Z.div train_batch_size gradient_accumulation_steps)
                    gradient_accumulation_steps epochs) as [t_total | e];
          [|discriminate].
        exists t_total. split; [reflexivity|].
        destruct (warmup_steps warmup_proportion t_total) as [warmup | e];
          [|discriminate].
        now exists warmup.
    + intros (Hout & Hgas & t_total & Hsteps & warmup & Hwarmup).
      rewrite train_fresh by assumption. now rewrite Hsteps, Hwarmup.
  - intros output_dir out train_batch_size gradient_accumulation_steps epochs
      train_examples warmup_proportion epoch_save_model evaluate_model
      Hout Hsmall.
    rewrite train_fresh by (assumption || lia).
    rewrite Z.div_small by exact Hsmall.
    now rewrite num_train_optimization_steps_zero_batch.
  - vm_compute. reflexivity.
  - vm_compute. reflexivity.
Qed.

(** X27.  [train] leaves without any effect (no directory made, no log
    file, no work) exactly when the output path is a file or a directory that
    is not empty; in every other case it has at least set up logging in the
    output directory, even when it then rejects
    [gradient_accumulation_steps]. *)
Theorem train_no_effect_iff
    (output_dir : string) (out : node)
    (train_batch_size gradient_accumulation_steps : Z) (epochs : nat)
    (train_examples : list InputExample) (warmup_proportion : float)
    (epoch_save_model : bool) (evaluate_model : nat -> float) :
  (trace (train output_dir out train_batch_size gradient_accumulation_steps
            epochs train_examples warmup_proportion epoch_save_model
            evaluate_model) = [] <->
   out = RegularFile \/ exists entry entries, out = Directory (entry :: entries)) /\
  (out = Missing \/ out = Directory [] ->
   In ConfigureLogging
      (trace (train output_dir out train_batch_size gradient_accumulation_steps
                epochs train_examples warmup_proportion epoch_save_model
                evaluate_model))).
Proof.
  assert (Hfresh : out = Missing \/ out = Directory [] ->
            In ConfigureLogging
               (trace (train output_dir out train_batch_size
                         gradient_accumulation_steps epochs train_examples
                         warmup_proportion epoch_save_model evaluate_model))).
  { intros Hout.
    destruct (Z.ltb_spec gradient_accumulation_steps 1) as [Hlow | Hok].
    - unfold train. destruct (Z.ltb_spec gradient_accumulation_steps 1); [|lia].
      destruct Hout as [-> | ->]; simpl; tauto.
    - rewrite train_fresh by assumption.
      destruct (num_train_optimization_steps (length train_examples)
                  (Z.div train_batch_size gradient_accumulation_steps)
                  gradient_accumulation_steps epochs) as [t_total | e];
        [destruct (warmup_steps warmup_proportion t_total) as [warmup | e]|];
        cbn [trace]; apply in_or_app; right; now left. }
  split; [|exact Hfresh]. split.
  - intros Hnil. destruct out as [| |[|entry entries]].
    + specialize (Hfresh (or_introl eq_refl)). rewrite Hnil in Hfresh.
      destruct Hfresh.
    + now left.
    + specialize (Hfresh (or_intror eq_refl)). rewrite Hnil in Hfresh.
      destruct Hfresh.
    + right. eauto.
  - intros [-> | (entry & entries & ->)]; reflexivity.
Qed.

Lemma best_before_no_improvement scores :
  Forall (fun x => (0 <? x)%float = false) scores ->
  fold_left best_of scores 0%float = 0%float.
Proof.
  induction 1 as [|x scores Hx _ IH]; [reflexivity|].
  cbn [fold_left]. unfold best_of at 2. now rewrite Hx.
Qed.

(** Every write of the weights, and every write of the parameters, into
    [output_dir] is recorded by the scan of the epochs. *)
Lemma checkpoint_epochs_nil current t :
  checkpoint_epochs current t = [] -> ~ In (SaveModel OutputDir) t.
Proof.
  revert current. induction t as [|e t IH]; intros current Hnil Hin;
    [destruct Hin|].
  destruct Hin as [-> | Hin]; [discriminate|].
  destruct e as [| | | | | | | |epoch_no| | |[|]|]; cbn [checkpoint_epochs] in Hnil;
    try discriminate; eapply IH; eauto.
Qed.

Lemma params_epochs_nil current t :
  params_epochs current t = [] -> ~ In (SaveParams OutputDir) t.
Proof.
  revert current. induction t as [|e t IH]; intros current Hnil Hin;
    [destruct Hin|].
  destruct Hin as [-> | Hin]; [discriminate|].
  destruct e as [| | | | | | | |epoch_no| | | |[|]]; cbn [params_epochs] in Hnil;
    try discriminate; eapply IH; eauto.
Qed.

(** X28.  When no epoch scores an F1 strictly above 0.0, the best
    checkpoint is never written: a run whose validation F1 stays at 0.0
    leaves neither a [model.pt] nor a [params.json] in the output directory
    itself. *)
Theorem no_checkpoint_without_positive_score
    (epoch_save_model : bool) (evaluate_model : nat -> float) (epochs : nat) :
  (forall e, (1 <= e <= epochs)%nat -> (0 <? evaluate_model e)%float = false) ->
  checkpoint_epochs 0 (trace (run_epochs epoch_save_model evaluate_model epochs))
    = [] /\
  params_epochs 0 (trace (run_epochs epoch_save_model evaluate_model epochs))
    = [] /\
  ~ In (SaveModel OutputDir)
       (trace (run_epochs epoch_save_model evaluate_model epochs)) /\
  ~ In (SaveParams OutputDir)
       (trace (run_epochs epoch_save_model evaluate_model epochs)).
Proof.
  intros Hnone.
  assert (Hweights :
    checkpoint_epochs 0
      (trace (run_epochs epoch_save_model evaluate_model epochs)) = []).
  { destruct (checkpoint_epochs 0
                (trace (run_epochs epoch_save_model evaluate_model epochs)))
      as [|e rest] eqn:Hc; [reflexivity|].
    assert (Hin : In e (checkpoint_epochs 0
                          (trace (run_epochs epoch_save_model evaluate_model
                                    epochs))))
      by (rewrite Hc; now left).
    unfold run_epochs in Hin. apply checkpoint_epochs_loop in Hin.
    destruct Hin as (Hrange & Hbeats).
    rewrite best_before_no_improvement in Hbeats.
    - rewrite Hnone in Hbeats by lia. discriminate.
    - apply Forall_map, Forall_forall. intros x Hx.
      apply list_elem_of_In, in_seq in Hx. apply Hnone. lia. }
  assert (Hparams :
    params_epochs 0
      (trace (run_epochs epoch_save_model evaluate_model epochs)) = []).
  { unfold run_epochs. rewrite params_epochs_loop. exact Hweights. }
  repeat split; try assumption.
  - eapply checkpoint_epochs_nil; eassumption.
  - eapply params_epochs_nil; eassumption.
Qed.

Lemma no_checkpoint_without_positive_score_witness :
  checkpoint_epochs 0 (trace (run_epochs true (fun _ => 0%float) 4)) = [] /\
  params_epochs 0 (trace (run_epochs true (fun _ => 0%float) 4)) = [] /\
  ~ In (SaveModel OutputDir) (trace (run_epochs true (fun _ => 0%float) 4)) /\
  ~ In (SaveParams OutputDir) (trace (run_epochs true (fun _ => 0%float) 4)).
Proof.
  apply no_checkpoint_without_positive_score. intros e _. reflexivity.
Defined.

(** The last epoch that wrote the best checkpoint scored the final best
    F1; without such an epoch the best F1 is still the initial one. *)
Lemma last_checkpoint_loop epoch_save_model evaluate_model epoch_nos :
  forall best_val_f1 current,
    match last (checkpoint_epochs current
                  (trace (epoch_loop epoch_save_model evaluate_model epoch_nos
                            best_val_f1))) with
    | Some e =>
        evaluate_model e = fold_left best_of (map evaluate_model epoch_nos)
                             best_val_f1
    | None =>
        fold_left best_of (map evaluate_model epoch_nos) best_val_f1 = best_val_f1
    end.
Proof.
  induction epoch_nos as [|e rest IH]; intros best_val_f1 current.
  - reflexivity.
  - rewrite epoch_loop_cons, checkpoint_epochs_body. cbn [map fold_left].
    specialize (IH (best_of best_val_f1 (evaluate_model e)) e).
    destruct (checkpoint_epochs e
                (trace (epoch_loop epoch_save_model evaluate_model rest
                          (best_of best_val_f1 (evaluate_model e)))))
      as [|c cs] eqn:Hc.
    + rewrite app_nil_r. cbn [last] in IH. rewrite IH. unfold best_of.
      destruct (best_val_f1 <? evaluate_model e)%float; reflexivity.
    + rewrite last_app_cons.
      destruct (last (c :: cs)) eqn:Hl; [exact IH|].
      apply last_None in Hl. discriminate.
Qed.

(** X29.  At the end of training the best F1 is the score of the last
    epoch that wrote the best checkpoint, so the checkpoint left in the
    output directory is the one of the best-scoring epoch; when no epoch
    wrote one, the best F1 is still 0.0. *)
Theorem last_checkpoint_holds_best_score
    (epoch_save_model : bool) (evaluate_model : nat -> float) (epochs : nat) :
  exists best,
    outcome (run_epochs epoch_save_model evaluate_model epochs) = Ok best /\
    match last (checkpoint_epochs 0
                  (trace (run_epochs epoch_save_model evaluate_model epochs)))
    with
    | Some e => (1 <= e <= epochs)%nat /\ evaluate_model e = best
    | None => best = 0%float
    end.
Proof.
  unfold run_epochs. eexists. split; [apply epoch_loop_outcome|].
  pose proof (last_checkpoint_loop epoch_save_model evaluate_model
                (seq 1 epochs) 0%float 0%nat) as Hlast.
  destruct (last (checkpoint_epochs 0
                    (trace (epoch_loop epoch_save_model evaluate_model
                              (seq 1 epochs) 0%float)))) as [e|] eqn:Hl;
    [|exact Hlast].
  split; [|exact Hlast].
  apply last_Some in Hl. destruct Hl as (front & Hfront).
  assert (Hin : In e (checkpoint_epochs 0
                        (trace (epoch_loop epoch_save_model evaluate_model
                                  (seq 1 epochs) 0%float)))).
  { rewrite Hfront. apply in_or_app. right. now left. }
  apply checkpoint_epochs_loop in Hin. lia.
Qed.

(** ** The training pass: gradient accumulation *)

Lemma training_pass_S gradient_accumulation_steps n :
  training_pass gradient_accumulation_steps (S n) =
  batch_step gradient_accumulation_steps
    (training_pass gradient_accumulation_steps n) n.
Proof.
  unfold training_pass, range. rewrite seq_S, fold_left_app. reflexivity.
Qed.

Lemma optimizer_steps_app t1 t2 :
  optimizer_steps (t1 ++ t2) = (optimizer_steps t1 + optimizer_steps t2)%nat.
Proof.
  induction t1 as [|e t1 IH]; [reflexivity|].
  destruct e; simpl; rewrite IH; reflexivity.
Qed.

Lemma accumulated_app t1 t2 acc :
  accumulated acc (t1 ++ t2) = accumulated (accumulated acc t1) t2.
Proof.
  revert acc. induction t1 as [|e t1 IH]; intros acc; [reflexivity|].
  destruct e; simpl; apply IH.
Qed.

Lemma div_mod_succ (n g : Z) :
  0 <= n -> 1 <= g ->
  ((n + 1) mod g = 0 -> (n + 1) / g = n / g + 1 /\ g <= n + 1) /\
  ((n + 1) mod g <> 0 -> (n + 1) / g = n / g /\ (n + 1) mod g = n mod g + 1).
Proof.
  intros Hn Hg.
  pose proof (Z.div_mod n g ltac:(lia)) as Hdn.
  pose proof (Z.mod_pos_bound n g ltac:(lia)) as Hbn.
  pose proof (Z.div_mod (n + 1) g ltac:(lia)) as Hds.
  pose proof (Z.mod_pos_bound (n + 1) g ltac:(lia)) as Hbs.
  assert (Hcases : n mod g + 1 = g \/ n mod g + 1 < g) by lia.
  destruct Hcases as [Hfull | Hpart].
  - assert (Hq : (n + 1) / g = n / g + 1 /\ (n + 1) mod g = 0).
    { assert (n + 1 = g * (n / g + 1) + 0) by nia.
      split.
      - symmetry. apply (Z.div_unique_pos (n + 1) g (n / g + 1) 0); lia.
      - symmetry. apply (Z.mod_unique_pos (n + 1) g (n / g + 1) 0); lia. }
    destruct Hq as (Hq & Hr). split; [intros _ | intros Hne; congruence].
    split; [exact Hq|].
    assert (0 <= n / g) by (apply Z.div_pos; lia). nia.
  - assert (Hq : (n + 1) / g = n / g /\ (n + 1) mod g = n mod g + 1).
    { assert (n + 1 = g * (n / g) + (n mod g + 1)) by lia.
      split.
      - symmetry. apply (Z.div_unique_pos (n + 1) g (n / g) (n mod g + 1)); lia.
      - symmetry. apply (Z.mod_unique_pos (n + 1) g (n / g) (n mod g + 1)); lia. }
    destruct Hq as (Hq & Hr). split; [intros H0; lia | intros _; tauto].
Qed.

(** X30.  In a pass over [n] batches with accumulation count [g >= 1] the
    optimizer steps [n / g] times.  The gradients of the last [n mod g]
    batches are not applied in that pass and are not cleared either: they
    are still accumulated when the next epoch starts.  With fewer than [g]
    batches the optimizer never steps and the gradients add to those left
    before. *)
Theorem gradient_accumulation_counts
    (gradient_accumulation_steps : Z) (n_batches acc : nat) :
  1 <= gradient_accumulation_steps ->
  Z.of_nat (optimizer_steps (training_pass gradient_accumulation_steps n_batches))
    = Z.of_nat n_batches / gradient_accumulation_steps /\
  Z.of_nat (accumulated acc (training_pass gradient_accumulation_steps n_batches))
    = if Z.of_nat n_batches <? gradient_accumulation_steps
      then Z.of_nat acc + Z.of_nat n_batches
      else Z.of_nat n_batches mod gradient_accumulation_steps.
Proof.
  intros Hg. induction n_batches as [|n (IHsteps & IHacc)].
  - simpl. change (Z.of_nat 0) with 0. rewrite Z.div_0_l by lia.
    destruct (Z.ltb_spec 0 gradient_accumulation_steps); lia.
  - rewrite training_pass_S. unfold batch_step.
    rewrite optimizer_steps_app, accumulated_app.
    destruct (div_mod_succ (Z.of_nat n) gradient_accumulation_steps
                ltac:(lia) Hg) as (Hzero & Hnonzero).
    replace (Z.of_nat (S n)) with (Z.of_nat n + 1) by lia.
    destruct (Z.eqb_spec ((Z.of_nat n + 1) mod gradient_accumulation_steps) 0)
      as [H0 | Hne].
    + destruct (Hzero H0) as (Hq & Hle). cbn [app optimizer_steps accumulated].
      split; [lia|].
      destruct (Z.ltb_spec (Z.of_nat n + 1) gradient_accumulation_steps); lia.
    + destruct (Hnonzero Hne) as (Hq & Hr). cbn [app optimizer_steps accumulated].
      split; [lia|].
      destruct (Z.ltb_spec (Z.of_nat n + 1) gradient_accumulation_steps);
        destruct (Z.ltb_spec (Z.of_nat n) gradient_accumulation_steps);
        try lia.
      assert (Z.of_nat n + 1 = gradient_accumulation_steps) by lia.
      rewrite H1, Z.mod_same in Hne by lia. congruence.
Qed.

Lemma gradient_accumulation_counts_witness :
  Z.of_nat (optimizer_steps (training_pass 4 10)) = Z.of_nat 10 / 4 /\
  Z.of_nat (accumulated 3 (training_pass 4 10))
    = if Z.of_nat 10 <? 4 then Z.of_nat 3 + Z.of_nat 10 else Z.of_nat 10 mod 4.
Proof.
  apply gradient_accumulation_counts. lia.
Defined.
